(** * runxml: an in-situ XML parser

    Shallow embedding of the parsing engine (runxml.go), of the document
    tree with its arenas (node.go, nodearena.go) and of the traversal
    primitives, followed by the properties established about them.

    The repository holds two revisions of node.go and nodearena.go.  The
    embedding follows the one the parser of runxml.go compiles against:
    the arenas are [nodeArena] and [attributeArena] with the method [get]
    and one size counter each, the sibling links of a node are [prev] and
    [next], and the attribute chain has [PrependAttribute] and
    [InsertAttribute] besides [AppendAttribute].  Of the other revision
    only [SendCloseChildren] is kept, as [SendCloseChildrenOld], because it
    differs on a node without children.

    Conventions of the embedding:
    - a Go [int] is a [Z]; a [byte] is a [Byte.byte];
    - a pointer is an optional address into a store of cells ([None] is
      [nil]); a method whose receiver or argument is dereferenced while
      [nil] panics;
    - a [[]byte] value that views the parse buffer is kept as the pair of
      its bounds in that buffer, so that in-place rewriting of the buffer
      is seen through every view of it ([None] is the [nil] slice);
    - a Go [error] is a value of the type [error] below, [None] is [nil];
    - a run-time panic, and the exhaustion of the step budget of the
      recursive functions, are outcomes of their own. *)

From Stdlib Require Import ZArith List Lia Bool Strings.String Strings.Byte ZifyBool.
From stdpp Require Import base list.
Import ListNotations.
Local Open Scope Z_scope.

(** ** Bytes and buffers *)

Definition bytes (s : string) : list byte := list_byte_of_string s.

(** [d[i]] for a Go [int] index; [None] when the index is out of range. *)
Definition index (d : list byte) (i : Z) : option byte :=
  if i <? 0 then None else d !! Z.to_nat i.

(** [bytes.HasPrefix(s, p)] *)
Fixpoint hasPrefix (s p : list byte) : bool :=
  match p, s with
  | [], _ => true
  | _ :: _, [] => false
  | a :: p', b :: s' => Byte.eqb a b && hasPrefix s' p'
  end.

(** Byte-wise equality, [bytes.Compare(a, b) == 0]. *)
Fixpoint bytesEq (a b : list byte) : bool :=
  match a, b with
  | [], [] => true
  | x :: a', y :: b' => Byte.eqb x y && bytesEq a' b'
  | _, _ => false
  end.

(** [bytes.ToLower] on the ASCII range, which is all that a comparison with
    the three bytes [xml] can observe. *)
Definition toLowerByte (c : byte) : byte :=
  let n := Byte.to_N c in
  if ((65 <=? n) && (n <=? 90))%N then
    match Byte.of_N (n + 32) with Some c' => c' | None => c end
  else c.

Definition toLower (l : list byte) : list byte := map toLowerByte l.

(** A view [data[lo:hi]] of the parse buffer. *)
Record span := Span { lo : Z; hi : Z }.

Abbreviation slice := (option span) (only parsing).

Definition spanBytes (d : list byte) (sp : span) : list byte :=
  take (Z.to_nat (hi sp - lo sp)) (drop (Z.to_nat (lo sp)) d).

Definition sliceBytes (d : list byte) (sl : slice) : list byte :=
  match sl with Some sp => spanBytes d sp | None => [] end.

Definition sliceLen (sl : slice) : Z :=
  match sl with Some sp => hi sp - lo sp | None => 0 end.

(** ** The lookup tables *)

(** [table[c]] *)
Definition tbl (t : list nat) (c : byte) : nat := nth (Byte.to_nat c) t 0%nat.

(** [table[c] == 1] *)
Definition isSet (t : list nat) (c : byte) : bool := Nat.eqb (tbl t c) 1.

(** [lookupNodeName], runxml.go. Node name (anything but space \n \r \t / > ? \0) *)
Definition lookupNodeName : list nat :=
  [ 0; 1; 1; 1; 1; 1; 1; 1; 1; 0; 0; 1; 1; 0; 1; 1;
    1; 1; 1; 1; 1; 1; 1; 1; 1; 1; 1; 1; 1; 1; 1; 1;
    0; 1; 1; 1; 1; 1; 1; 1; 1; 1; 1; 1; 1; 1; 1; 0;
    1; 1; 1; 1; 1; 1; 1; 1; 1; 1; 1; 1; 1; 1; 0; 0;
    1; 1; 1; 1; 1; 1; 1; 1; 1; 1; 1; 1; 1; 1; 1; 1;
    1; 1; 1; 1; 1; 1; 1; 1; 1; 1; 1; 1; 1; 1; 1; 1;
    1; 1; 1; 1; 1; 1; 1; 1; 1; 1; 1; 1; 1; 1; 1; 1;
    1; 1; 1; 1; 1; 1; 1; 1; 1; 1; 1; 1; 1; 1; 1; 1;
    1; 1; 1; 1; 1; 1; 1; 1; 1; 1; 1; 1; 1; 1; 1; 1;
    1; 1; 1; 1; 1; 1; 1; 1; 1; 1; 1; 1; 1; 1; 1; 1;
    1; 1; 1; 1; 1; 1; 1; 1; 1; 1; 1; 1; 1; 1; 1; 1;
    1; 1; 1; 1; 1; 1; 1; 1; 1; 1; 1; 1; 1; 1; 1; 1;
    1; 1; 1; 1; 1; 1; 1; 1; 1; 1; 1; 1; 1; 1; 1; 1;
    1; 1; 1; 1; 1; 1; 1; 1; 1; 1; 1; 1; 1; 1; 1; 1;
    1; 1; 1; 1; 1; 1; 1; 1; 1; 1; 1; 1; 1; 1; 1; 1;
    1; 1; 1; 1; 1; 1; 1; 1; 1; 1; 1; 1; 1; 1; 1; 1 ]%nat.

(** [lookupWhitespace], runxml.go. whitespace: space, tab, LF, CR *)
Definition lookupWhitespace : list nat :=
  [ 0; 0; 0; 0; 0; 0; 0; 0; 0; 1; 1; 0; 0; 1; 0; 0;
    0; 0; 0; 0; 0; 0; 0; 0; 0; 0; 0; 0; 0; 0; 0; 0;
    1; 0; 0; 0; 0; 0; 0; 0; 0; 0; 0; 0; 0; 0; 0; 0;
    0; 0; 0; 0; 0; 0; 0; 0; 0; 0; 0; 0; 0; 0; 0; 0;
    0; 0; 0; 0; 0; 0; 0; 0; 0; 0; 0; 0; 0; 0; 0; 0;
    0; 0; 0; 0; 0; 0; 0; 0; 0; 0; 0; 0; 0; 0; 0; 0;
    0; 0; 0; 0; 0; 0; 0; 0; 0; 0; 0; 0; 0; 0; 0; 0;
    0; 0; 0; 0; 0; 0; 0; 0; 0; 0; 0; 0; 0; 0; 0; 0;
    0; 0; 0; 0; 0; 0; 0; 0; 0; 0; 0; 0; 0; 0; 0; 0;
    0; 0; 0; 0; 0; 0; 0; 0; 0; 0; 0; 0; 0; 0; 0; 0;
    0; 0; 0; 0; 0; 0; 0; 0; 0; 0; 0; 0; 0; 0; 0; 0;
    0; 0; 0; 0; 0; 0; 0; 0; 0; 0; 0; 0; 0; 0; 0; 0;
    0; 0; 0; 0; 0; 0; 0; 0; 0; 0; 0; 0; 0; 0; 0; 0;
    0; 0; 0; 0; 0; 0; 0; 0; 0; 0; 0; 0; 0; 0; 0; 0;
    0; 0; 0; 0; 0; 0; 0; 0; 0; 0; 0; 0; 0; 0; 0; 0;
    0; 0; 0; 0; 0; 0; 0; 0; 0; 0; 0; 0; 0; 0; 0; 0 ]%nat.

(** [lookupAttributeName], runxml.go. Attribute name (anything but space \n \r \t / < > = ? ! \0) *)
Definition lookupAttributeName : list nat :=
  [ 0; 1; 1; 1; 1; 1; 1; 1; 1; 0; 0; 1; 1; 0; 1; 1;
    1; 1; 1; 1; 1; 1; 1; 1; 1; 1; 1; 1; 1; 1; 1; 1;
    0; 0; 1; 1; 1; 1; 1; 1; 1; 1; 1; 1; 1; 1; 1; 0;
    1; 1; 1; 1; 1; 1; 1; 1; 1; 1; 1; 1; 0; 0; 0; 0;
    1; 1; 1; 1; 1; 1; 1; 1; 1; 1; 1; 1; 1; 1; 1; 1;
    1; 1; 1; 1; 1; 1; 1; 1; 1; 1; 1; 1; 1; 1; 1; 1;
    1; 1; 1; 1; 1; 1; 1; 1; 1; 1; 1; 1; 1; 1; 1; 1;
    1; 1; 1; 1; 1; 1; 1; 1; 1; 1; 1; 1; 1; 1; 1; 1;
    1; 1; 1; 1; 1; 1; 1; 1; 1; 1; 1; 1; 1; 1; 1; 1;
    1; 1; 1; 1; 1; 1; 1; 1; 1; 1; 1; 1; 1; 1; 1; 1;
    1; 1; 1; 1; 1; 1; 1; 1; 1; 1; 1; 1; 1; 1; 1; 1;
    1; 1; 1; 1; 1; 1; 1; 1; 1; 1; 1; 1; 1; 1; 1; 1;
    1; 1; 1; 1; 1; 1; 1; 1; 1; 1; 1; 1; 1; 1; 1; 1;
    1; 1; 1; 1; 1; 1; 1; 1; 1; 1; 1; 1; 1; 1; 1; 1;
    1; 1; 1; 1; 1; 1; 1; 1; 1; 1; 1; 1; 1; 1; 1; 1;
    1; 1; 1; 1; 1; 1; 1; 1; 1; 1; 1; 1; 1; 1; 1; 1 ]%nat.

(** [lookupAttributeDataSQ], runxml.go. Attribute data with single quote (anything but single-quote \0) *)
Definition lookupAttributeDataSQ : list nat :=
  [ 0; 1; 1; 1; 1; 1; 1; 1; 1; 1; 1; 1; 1; 1; 1; 1;
    1; 1; 1; 1; 1; 1; 1; 1; 1; 1; 1; 1; 1; 1; 1; 1;
    1; 1; 1; 1; 1; 1; 1; 0; 1; 1; 1; 1; 1; 1; 1; 1;
    1; 1; 1; 1; 1; 1; 1; 1; 1; 1; 1; 1; 1; 1; 1; 1;
    1; 1; 1; 1; 1; 1; 1; 1; 1; 1; 1; 1; 1; 1; 1; 1;
    1; 1; 1; 1; 1; 1; 1; 1; 1; 1; 1; 1; 1; 1; 1; 1;
    1; 1; 1; 1; 1; 1; 1; 1; 1; 1; 1; 1; 1; 1; 1; 1;
    1; 1; 1; 1; 1; 1; 1; 1; 1; 1; 1; 1; 1; 1; 1; 1;
    1; 1; 1; 1; 1; 1; 1; 1; 1; 1; 1; 1; 1; 1; 1; 1;
    1; 1; 1; 1; 1; 1; 1; 1; 1; 1; 1; 1; 1; 1; 1; 1;
    1; 1; 1; 1; 1; 1; 1; 1; 1; 1; 1; 1; 1; 1; 1; 1;
    1; 1; 1; 1; 1; 1; 1; 1; 1; 1; 1; 1; 1; 1; 1; 1;
    1; 1; 1; 1; 1; 1; 1; 1; 1; 1; 1; 1; 1; 1; 1; 1;
    1; 1; 1; 1; 1; 1; 1; 1; 1; 1; 1; 1; 1; 1; 1; 1;
    1; 1; 1; 1; 1; 1; 1; 1; 1; 1; 1; 1; 1; 1; 1; 1;
    1; 1; 1; 1; 1; 1; 1; 1; 1; 1; 1; 1; 1; 1; 1; 1 ]%nat.

(** [lookupAttributeDataSQPure], runxml.go. Attribute data with single quote that does not require processing (anything but single-quote \0 &) *)
Definition lookupAttributeDataSQPure : list nat :=
  [ 0; 1; 1; 1; 1; 1; 1; 1; 1; 1; 1; 1; 1; 1; 1; 1;
    1; 1; 1; 1; 1; 1; 1; 1; 1; 1; 1; 1; 1; 1; 1; 1;
    1; 1; 1; 1; 1; 1; 0; 0; 1; 1; 1; 1; 1; 1; 1; 1;
    1; 1; 1; 1; 1; 1; 1; 1; 1; 1; 1; 1; 1; 1; 1; 1;
    1; 1; 1; 1; 1; 1; 1; 1; 1; 1; 1; 1; 1; 1; 1; 1;
    1; 1; 1; 1; 1; 1; 1; 1; 1; 1; 1; 1; 1; 1; 1; 1;
    1; 1; 1; 1; 1; 1; 1; 1; 1; 1; 1; 1; 1; 1; 1; 1;
    1; 1; 1; 1; 1; 1; 1; 1; 1; 1; 1; 1; 1; 1; 1; 1;
    1; 1; 1; 1; 1; 1; 1; 1; 1; 1; 1; 1; 1; 1; 1; 1;
    1; 1; 1; 1; 1; 1; 1; 1; 1; 1; 1; 1; 1; 1; 1; 1;
    1; 1; 1; 1; 1; 1; 1; 1; 1; 1; 1; 1; 1; 1; 1; 1;
    1; 1; 1; 1; 1; 1; 1; 1; 1; 1; 1; 1; 1; 1; 1; 1;
    1; 1; 1; 1; 1; 1; 1; 1; 1; 1; 1; 1; 1; 1; 1; 1;
    1; 1; 1; 1; 1; 1; 1; 1; 1; 1; 1; 1; 1; 1; 1; 1;
    1; 1; 1; 1; 1; 1; 1; 1; 1; 1; 1; 1; 1; 1; 1; 1;
    1; 1; 1; 1; 1; 1; 1; 1; 1; 1; 1; 1; 1; 1; 1; 1 ]%nat.

(** [lookupAttributeDataDQ], runxml.go. Attribute data with single quote that does not require processing (anything but double-quote \0) *)
Definition lookupAttributeDataDQ : list nat :=
  [ 0; 1; 1; 1; 1; 1; 1; 1; 1; 1; 1; 1; 1; 1; 1; 1;
    1; 1; 1; 1; 1; 1; 1; 1; 1; 1; 1; 1; 1; 1; 1; 1;
    1; 1; 0; 1; 1; 1; 1; 1; 1; 1; 1; 1; 1; 1; 1; 1;
    1; 1; 1; 1; 1; 1; 1; 1; 1; 1; 1; 1; 1; 1; 1; 1;
    1; 1; 1; 1; 1; 1; 1; 1; 1; 1; 1; 1; 1; 1; 1; 1;
    1; 1; 1; 1; 1; 1; 1; 1; 1; 1; 1; 1; 1; 1; 1; 1;
    1; 1; 1; 1; 1; 1; 1; 1; 1; 1; 1; 1; 1; 1; 1; 1;
    1; 1; 1; 1; 1; 1; 1; 1; 1; 1; 1; 1; 1; 1; 1; 1;
    1; 1; 1; 1; 1; 1; 1; 1; 1; 1; 1; 1; 1; 1; 1; 1;
    1; 1; 1; 1; 1; 1; 1; 1; 1; 1; 1; 1; 1; 1; 1; 1;
    1; 1; 1; 1; 1; 1; 1; 1; 1; 1; 1; 1; 1; 1; 1; 1;
    1; 1; 1; 1; 1; 1; 1; 1; 1; 1; 1; 1; 1; 1; 1; 1;
    1; 1; 1; 1; 1; 1; 1; 1; 1; 1; 1; 1; 1; 1; 1; 1;
    1; 1; 1; 1; 1; 1; 1; 1; 1; 1; 1; 1; 1; 1; 1; 1;
    1; 1; 1; 1; 1; 1; 1; 1; 1; 1; 1; 1; 1; 1; 1; 1;
    1; 1; 1; 1; 1; 1; 1; 1; 1; 1; 1; 1; 1; 1; 1; 1 ]%nat.

(** [lookupAttributeDataDQPure], runxml.go. Attribute data with double quote that does not require processing (anything but double-quote \0 &) *)
Definition lookupAttributeDataDQPure : list nat :=
  [ 0; 1; 1; 1; 1; 1; 1; 1; 1; 1; 1; 1; 1; 1; 1; 1;
    1; 1; 1; 1; 1; 1; 1; 1; 1; 1; 1; 1; 1; 1; 1; 1;
    1; 1; 0; 1; 1; 1; 0; 1; 1; 1; 1; 1; 1; 1; 1; 1;
    1; 1; 1; 1; 1; 1; 1; 1; 1; 1; 1; 1; 1; 1; 1; 1;
    1; 1; 1; 1; 1; 1; 1; 1; 1; 1; 1; 1; 1; 1; 1; 1;
    1; 1; 1; 1; 1; 1; 1; 1; 1; 1; 1; 1; 1; 1; 1; 1;
    1; 1; 1; 1; 1; 1; 1; 1; 1; 1; 1; 1; 1; 1; 1; 1;
    1; 1; 1; 1; 1; 1; 1; 1; 1; 1; 1; 1; 1; 1; 1; 1;
    1; 1; 1; 1; 1; 1; 1; 1; 1; 1; 1; 1; 1; 1; 1; 1;
    1; 1; 1; 1; 1; 1; 1; 1; 1; 1; 1; 1; 1; 1; 1; 1;
    1; 1; 1; 1; 1; 1; 1; 1; 1; 1; 1; 1; 1; 1; 1; 1;
    1; 1; 1; 1; 1; 1; 1; 1; 1; 1; 1; 1; 1; 1; 1; 1;
    1; 1; 1; 1; 1; 1; 1; 1; 1; 1; 1; 1; 1; 1; 1; 1;
    1; 1; 1; 1; 1; 1; 1; 1; 1; 1; 1; 1; 1; 1; 1; 1;
    1; 1; 1; 1; 1; 1; 1; 1; 1; 1; 1; 1; 1; 1; 1; 1;
    1; 1; 1; 1; 1; 1; 1; 1; 1; 1; 1; 1; 1; 1; 1; 1 ]%nat.

(** [lookupTextPureNoWS], runxml.go. Text (i.e. PCDATA) that does not require processing when ws normalization is disabled (anything but < \0 &) *)
Definition lookupTextPureNoWS : list nat :=
  [ 0; 1; 1; 1; 1; 1; 1; 1; 1; 1; 1; 1; 1; 1; 1; 1;
    1; 1; 1; 1; 1; 1; 1; 1; 1; 1; 1; 1; 1; 1; 1; 1;
    1; 1; 1; 1; 1; 1; 0; 1; 1; 1; 1; 1; 1; 1; 1; 1;
    1; 1; 1; 1; 1; 1; 1; 1; 1; 1; 1; 1; 0; 1; 1; 1;
    1; 1; 1; 1; 1; 1; 1; 1; 1; 1; 1; 1; 1; 1; 1; 1;
    1; 1; 1; 1; 1; 1; 1; 1; 1; 1; 1; 1; 1; 1; 1; 1;
    1; 1; 1; 1; 1; 1; 1; 1; 1; 1; 1; 1; 1; 1; 1; 1;
    1; 1; 1; 1; 1; 1; 1; 1; 1; 1; 1; 1; 1; 1; 1; 1;
    1; 1; 1; 1; 1; 1; 1; 1; 1; 1; 1; 1; 1; 1; 1; 1;
    1; 1; 1; 1; 1; 1; 1; 1; 1; 1; 1; 1; 1; 1; 1; 1;
    1; 1; 1; 1; 1; 1; 1; 1; 1; 1; 1; 1; 1; 1; 1; 1;
    1; 1; 1; 1; 1; 1; 1; 1; 1; 1; 1; 1; 1; 1; 1; 1;
    1; 1; 1; 1; 1; 1; 1; 1; 1; 1; 1; 1; 1; 1; 1; 1;
    1; 1; 1; 1; 1; 1; 1; 1; 1; 1; 1; 1; 1; 1; 1; 1;
    1; 1; 1; 1; 1; 1; 1; 1; 1; 1; 1; 1; 1; 1; 1; 1;
    1; 1; 1; 1; 1; 1; 1; 1; 1; 1; 1; 1; 1; 1; 1; 1 ]%nat.

(** [lookupText], runxml.go. Text (i.e. PCDATA) (anything but < \0) *)
Definition lookupText : list nat :=
  [ 0; 1; 1; 1; 1; 1; 1; 1; 1; 1; 1; 1; 1; 1; 1; 1;
    1; 1; 1; 1; 1; 1; 1; 1; 1; 1; 1; 1; 1; 1; 1; 1;
    1; 1; 1; 1; 1; 1; 1; 1; 1; 1; 1; 1; 1; 1; 1; 1;
    1; 1; 1; 1; 1; 1; 1; 1; 1; 1; 1; 1; 0; 1; 1; 1;
    1; 1; 1; 1; 1; 1; 1; 1; 1; 1; 1; 1; 1; 1; 1; 1;
    1; 1; 1; 1; 1; 1; 1; 1; 1; 1; 1; 1; 1; 1; 1; 1;
    1; 1; 1; 1; 1; 1; 1; 1; 1; 1; 1; 1; 1; 1; 1; 1;
    1; 1; 1; 1; 1; 1; 1; 1; 1; 1; 1; 1; 1; 1; 1; 1;
    1; 1; 1; 1; 1; 1; 1; 1; 1; 1; 1; 1; 1; 1; 1; 1;
    1; 1; 1; 1; 1; 1; 1; 1; 1; 1; 1; 1; 1; 1; 1; 1;
    1; 1; 1; 1; 1; 1; 1; 1; 1; 1; 1; 1; 1; 1; 1; 1;
    1; 1; 1; 1; 1; 1; 1; 1; 1; 1; 1; 1; 1; 1; 1; 1;
    1; 1; 1; 1; 1; 1; 1; 1; 1; 1; 1; 1; 1; 1; 1; 1;
    1; 1; 1; 1; 1; 1; 1; 1; 1; 1; 1; 1; 1; 1; 1; 1;
    1; 1; 1; 1; 1; 1; 1; 1; 1; 1; 1; 1; 1; 1; 1; 1;
    1; 1; 1; 1; 1; 1; 1; 1; 1; 1; 1; 1; 1; 1; 1; 1 ]%nat.

(** ** The tree model (node.go) *)

(** An address in a store; a pointer, [None] being [nil]. *)
Abbreviation addr := nat (only parsing).
Abbreviation ptr := (option nat) (only parsing).

Inductive NodeType :=
| Document | Element | Data | Cdata | Comment | Declaration | Doctype | Pi.

(** [base], the fields common to nodes and attributes; Go embeds it in
    both structs. *)
Record base := { Name : slice; Value : slice; Parent : ptr }.

Record GenericNode := {
  gbase : base;
  nodeType : NodeType;
  firstChild : ptr;
  lastChild : ptr;
  firstAttribute : ptr;
  lastAttribute : ptr;
  prev : ptr;
  next : ptr }.

(** [AttributeNode]; its links are [prev] and [next] in the source. *)
Record AttributeNode := { abase : base; attrPrev : ptr; attrNext : ptr }.

Definition zeroBase : base := {| Name := None; Value := None; Parent := None |}.

(** The zero value of [GenericNode], as [make] produces it. *)
Definition zeroNode : GenericNode :=
  {| gbase := zeroBase; nodeType := Document; firstChild := None;
     lastChild := None; firstAttribute := None; lastAttribute := None;
     prev := None; next := None |}.

Definition zeroAttr : AttributeNode :=
  {| abase := zeroBase; attrPrev := None; attrNext := None |}.

(** Field assignments. *)
Definition setName (v : slice) (b : base) : base :=
  {| Name := v; Value := Value b; Parent := Parent b |}.
Definition setValue (v : slice) (b : base) : base :=
  {| Name := Name b; Value := v; Parent := Parent b |}.
Definition setParent (v : ptr) (b : base) : base :=
  {| Name := Name b; Value := Value b; Parent := v |}.

Definition onBase (f : base -> base) (n : GenericNode) : GenericNode :=
  {| gbase := f (gbase n); nodeType := nodeType n; firstChild := firstChild n;
     lastChild := lastChild n; firstAttribute := firstAttribute n;
     lastAttribute := lastAttribute n; prev := prev n; next := next n |}.
Definition setNodeType (v : NodeType) (n : GenericNode) : GenericNode :=
  {| gbase := gbase n; nodeType := v; firstChild := firstChild n;
     lastChild := lastChild n; firstAttribute := firstAttribute n;
     lastAttribute := lastAttribute n; prev := prev n; next := next n |}.
Definition setFirstChild (v : ptr) (n : GenericNode) : GenericNode :=
  {| gbase := gbase n; nodeType := nodeType n; firstChild := v;
     lastChild := lastChild n; firstAttribute := firstAttribute n;
     lastAttribute := lastAttribute n; prev := prev n; next := next n |}.
Definition setLastChild (v : ptr) (n : GenericNode) : GenericNode :=
  {| gbase := gbase n; nodeType := nodeType n; firstChild := firstChild n;
     lastChild := v; firstAttribute := firstAttribute n;
     lastAttribute := lastAttribute n; prev := prev n; next := next n |}.
Definition setFirstAttribute (v : ptr) (n : GenericNode) : GenericNode :=
  {| gbase := gbase n; nodeType := nodeType n; firstChild := firstChild n;
     lastChild := lastChild n; firstAttribute := v;
     lastAttribute := lastAttribute n; prev := prev n; next := next n |}.
Definition setLastAttribute (v : ptr) (n : GenericNode) : GenericNode :=
  {| gbase := gbase n; nodeType := nodeType n; firstChild := firstChild n;
     lastChild := lastChild n; firstAttribute := firstAttribute n;
     lastAttribute := v; prev := prev n; next := next n |}.
Definition setPrev (v : ptr) (n : GenericNode) : GenericNode :=
  {| gbase := gbase n; nodeType := nodeType n; firstChild := firstChild n;
     lastChild := lastChild n; firstAttribute := firstAttribute n;
     lastAttribute := lastAttribute n; prev := v; next := next n |}.
Definition setNext (v : ptr) (n : GenericNode) : GenericNode :=
  {| gbase := gbase n; nodeType := nodeType n; firstChild := firstChild n;
     lastChild := lastChild n; firstAttribute := firstAttribute n;
     lastAttribute := lastAttribute n; prev := prev n; next := v |}.

Definition onAttrBase (f : base -> base) (a : AttributeNode) : AttributeNode :=
  {| abase := f (abase a); attrPrev := attrPrev a; attrNext := attrNext a |}.
Definition setAttrPrev (v : ptr) (a : AttributeNode) : AttributeNode :=
  {| abase := abase a; attrPrev := v; attrNext := attrNext a |}.
Definition setAttrNext (v : ptr) (a : AttributeNode) : AttributeNode :=
  {| abase := abase a; attrPrev := attrPrev a; attrNext := v |}.

(** ** Program state

    [RunXML] is the parser instance.  The package-level variables of
    nodearena.go ([na], [currentSize], [currAttrSize]) and the cells handed
    out so far make up the rest of the state.  An arena is the Go slice of
    cells not handed out yet; [get] takes its last cell, which from then on
    lives in the store under a fresh address. *)

Record RunXML := {
  ValidateClosingTag : bool;
  nodeArena : list GenericNode;
  attributeArena : list AttributeNode;
  data : list byte;
  position : Z }.

Record State := {
  r : RunXML;
  na : list GenericNode;
  currentSize : nat;
  currAttrSize : nat;
  nodes : list GenericNode;
  attrs : list AttributeNode }.

Definition maxsize : nat := 200 * 100.
Definition startsize : nat := 100.

Definition onR (f : RunXML -> RunXML) (s : State) : State :=
  {| r := f (r s); na := na s; currentSize := currentSize s;
     currAttrSize := currAttrSize s; nodes := nodes s; attrs := attrs s |}.
Definition setPosition (p : Z) (x : RunXML) : RunXML :=
  {| ValidateClosingTag := ValidateClosingTag x; nodeArena := nodeArena x;
     attributeArena := attributeArena x; data := data x; position := p |}.
Definition setData (d : list byte) (x : RunXML) : RunXML :=
  {| ValidateClosingTag := ValidateClosingTag x; nodeArena := nodeArena x;
     attributeArena := attributeArena x; data := d; position := position x |}.
Definition setAttributeArena (a : list AttributeNode) (x : RunXML) : RunXML :=
  {| ValidateClosingTag := ValidateClosingTag x; nodeArena := nodeArena x;
     attributeArena := a; data := data x; position := position x |}.
Definition setNa (a : list GenericNode) (s : State) : State :=
  {| r := r s; na := a; currentSize := currentSize s;
     currAttrSize := currAttrSize s; nodes := nodes s; attrs := attrs s |}.
Definition setCurrentSize (n : nat) (s : State) : State :=
  {| r := r s; na := na s; currentSize := n;
     currAttrSize := currAttrSize s; nodes := nodes s; attrs := attrs s |}.
Definition setCurrAttrSize (n : nat) (s : State) : State :=
  {| r := r s; na := na s; currentSize := currentSize s;
     currAttrSize := n; nodes := nodes s; attrs := attrs s |}.
Definition setNodes (h : list GenericNode) (s : State) : State :=
  {| r := r s; na := na s; currentSize := currentSize s;
     currAttrSize := currAttrSize s; nodes := h; attrs := attrs s |}.
Definition setAttrs (h : list AttributeNode) (s : State) : State :=
  {| r := r s; na := na s; currentSize := currentSize s;
     currAttrSize := currAttrSize s; nodes := nodes s; attrs := h |}.

(** [NewDefaultRunXML] *)
Definition NewDefaultRunXML : RunXML :=
  {| ValidateClosingTag := true; nodeArena := []; attributeArena := [];
     data := []; position := 0 |}.

(** The state of a program that has allocated nothing yet, around a given
    parser instance. *)
Definition initState (x : RunXML) : State :=
  {| r := x; na := []; currentSize := startsize; currAttrSize := startsize;
     nodes := []; attrs := [] |}.

(** ** Outcomes and the state monad *)

Inductive panic :=
| IndexOutOfRange
| SliceBoundsOutOfRange
| NilDereference
| PanicMsg (msg : string).

Inductive outcome (A : Type) :=
| Done (a : A)
| Crash (p : panic)
| Timeout.
Arguments Done {A} a.
Arguments Crash {A} p.
Arguments Timeout {A}.

Definition M (A : Type) : Type := State -> outcome (A * State).

Definition ret {A} (a : A) : M A := fun s => Done (a, s).
Definition bind {A B} (m : M A) (k : A -> M B) : M B :=
  fun s => match m s with
           | Done (a, s') => k a s'
           | Crash p => Crash p
           | Timeout => Timeout
           end.
Definition crash {A} (p : panic) : M A := fun _ => Crash p.
Definition timeout {A} : M A := fun _ => Timeout.
Definition gets {A} (f : State -> A) : M A := fun s => Done (f s, s).
Definition modify (f : State -> State) : M unit := fun s => Done (tt, f s).

Declare Scope run_scope.
Delimit Scope run_scope with run.
Notation "x <- m ;; k" := (bind m (fun x => k))
  (at level 100, m at next level, right associativity) : run_scope.
Notation "m ;;; k" := (bind m (fun _ => k))
  (at level 100, right associativity) : run_scope.
Local Open Scope run_scope.

Definition pos (s : State) : Z := position (r s).
Definition buf (s : State) : list byte := data (r s).
Definition len (s : State) : Z := Z.of_nat (length (buf s)).

Definition getPos : M Z := gets pos.
Definition getLen : M Z := gets len.
Definition setPos (p : Z) : M unit := modify (onR (setPosition p)).
Definition addPos (n : Z) : M unit := modify (fun s => onR (setPosition (pos s + n)) s).

(** [r.data[i]] as a value. *)
Definition byteAt (i : Z) : M byte :=
  fun s => match index (buf s) i with
           | Some c => Done (c, s)
           | None => Crash IndexOutOfRange
           end.

(** [r.data[i] = v] *)
Definition setByte (i : Z) (v : byte) : M unit :=
  fun s => if (0 <=? i) && (i <? len s)
           then Done (tt, onR (setData (<[Z.to_nat i := v]> (buf s))) s)
           else Crash IndexOutOfRange.

(** [r.data[a:b]]; the capacity of the buffer is its length. *)
Definition sliceData (a b : Z) : M span :=
  fun s => if (0 <=? a) && (a <=? b) && (b <=? len s)
           then Done (Span a b, s)
           else Crash SliceBoundsOutOfRange.

(** The bytes currently seen through a view. *)
Definition readSpan (sp : span) : M (list byte) :=
  gets (fun s => spanBytes (buf s) sp).
Definition readSlice (sl : slice) : M (list byte) :=
  gets (fun s => sliceBytes (buf s) sl).

(** ** Errors

    One constructor per [fmt.Errorf] site of runxml.go, carrying the values
    the format string interpolates. *)
Inductive error :=
| EndOfFile                              (* skipBytes: end of file *)
| UnexpectedEndOfFile                    (* unexpected end of file *)
| UnexpectedEndOfFileAt (p : Z)          (* unexpected end of file at %v *)
| UnexpectedEndOfData                    (* unexpected end of data *)
| UnexpectedDataAfterBracket             (* unexpecte data following <![ *)
| UnrecognizedNode (p : Z)               (* unrecognized node at %v *)
| ExpectedEquals (found : byte) (p : Z)  (* expected '=' but found %q at position %v *)
| ExpectedQuote (found : byte) (p : Z)   (* expected ' or double quote but found %q at position %v *)
| AttributeValueError                    (* error parsing attribute value *)
| ExpectedEndQuote (q : byte)            (* expected %v as end quote *)
| NodeNameError                          (* error parsing node name *)
| ExpectedGtAfterSlash (p : Z)           (* expected '>' after '/' at position %v *)
| UnknownEndType                         (* unknown end type error *)
| UnexpectedClosingTag (tag : list byte) (* unexpected closing tag %v *)
| ExpectedGt                             (* expected '>' *)
| BadDeclarationEnd                      (* unexpected end of xml declaration. Expected '?>' *)
| ExpectedPITarget                       (* expected PI target *)
| DashDashInComment                      (* invalid '--' inside comment *)
| CannotAppendData                       (* unable to append data node *)
| ExpectedLt (found : byte)              (* expected '<', but found %q *)
| WithContext (v : error) (left : list byte) (cur : option byte)
              (right : list byte).       (* contextError *)

(** ** Scanner primitives (runxml.go) *)

Definition getCurrentByte : M byte :=
  p <- getPos ;; byteAt p.

Definition getNextByte : M byte :=
  addPos 1 ;;;
  p <- getPos ;; n <- getLen ;;
  if p >? n - 1 then ret x00 else byteAt p.

Definition skipBytes (k : Z) : M (option error) :=
  p <- getPos ;; n <- getLen ;;
  if n <=? p + k then ret (Some EndOfFile)
  else addPos k ;;; ret None.

Fixpoint skipPastCharLoop (fuel : nat) (b : byte) : M (option error) :=
  addPos 1 ;;;
  p <- getPos ;; n <- getLen ;;
  if p >=? n - 1 then ret (Some UnexpectedEndOfData)
  else
    c <- byteAt p ;;
    if Byte.eqb c b then addPos 1 ;;; ret None
    else match fuel with
         | O => timeout
         | S f => skipPastCharLoop f b
         end.

Definition skipPastChar (b : byte) : M (option error) :=
  fun s => skipPastCharLoop (length (buf s)) b s.

Fixpoint skipToCharLoop (fuel : nat) (b : byte) : M (option error) :=
  addPos 1 ;;;
  p <- getPos ;; n <- getLen ;;
  if p >=? n then ret (Some UnexpectedEndOfData)
  else
    c <- byteAt p ;;
    if Byte.eqb c b then ret None
    else match fuel with
         | O => timeout
         | S f => skipToCharLoop f b
         end.

Definition skipToChar (b : byte) : M (option error) :=
  fun s => skipToCharLoop (length (buf s)) b s.

(** [r.data[r.position:]], read at once: its only use is as the subject of
    [bytes.HasPrefix]. *)
Definition sliceToEnd : M (list byte) :=
  p <- getPos ;; n <- getLen ;;
  sp <- sliceData p n ;; readSpan sp.

Definition hasPrefixToEnd (p : string) : M bool :=
  s <- sliceToEnd ;; ret (hasPrefix s (bytes p)).

Fixpoint skipToCharsLoop (fuel : nat) (b : list byte) : M (option error) :=
  p <- getPos ;; n <- getLen ;;
  if p <? n then
    s <- sliceToEnd ;;
    if hasPrefix s b then ret None
    else match fuel with
         | O => timeout
         | S f => addPos 1 ;;; skipToCharsLoop f b
         end
  else addPos (-1) ;;; ret (Some UnexpectedEndOfFile).

Definition skipToChars (b : list byte) : M (option error) :=
  fun s => skipToCharsLoop (length (buf s)) b s.

Fixpoint skipLoop (fuel : nat) (table : list nat) : M unit :=
  p <- getPos ;; n <- getLen ;;
  if p <? n then
    c <- byteAt p ;;
    if negb (isSet table c) then ret tt
    else match fuel with
         | O => timeout
         | S f => addPos 1 ;;; skipLoop f table
         end
  else addPos (-1).

(** [skip]: the loop runs at most once per byte of the buffer. *)
Definition skip (table : list nat) : M unit :=
  fun s => skipLoop (length (buf s)) table s.

Definition sliceFrom (start : Z) : M span :=
  p <- getPos ;; sliceData start p.

(** Go's [a && b] with an effectful right operand. *)
Definition andThen (a : bool) (b : M bool) : M bool :=
  if a then b else ret false.

Definition isNil {A} (e : option A) : bool :=
  match e with None => true | Some _ => false end.

(** ** Entity expansion: [skipAndExpandCharacterRefs] *)

(** What one turn of the loop hands to the next: the new values of the
    locals [c] and [trail], or the [return nil] taken at the end of the
    buffer. *)
Inductive turn :=
| Next (c : byte) (trail : Z)
| ReturnNil.

(** The [if c == '&' ... else if trail < r.position ...] statement; yields
    the locals [c] and [trail] after it. *)
Definition expandRef (c : byte) (trail : Z) : M (byte * Z) :=
  if Byte.eqb c "&" then
    c <- getNextByte ;;
    if Byte.eqb c "a" then
      err <- skipBytes 1 ;;
      amp <- andThen (isNil err) (hasPrefixToEnd "mp;") ;;
      if amp then addPos 2 ;;; ret (c, trail)
      else
        apos <- hasPrefixToEnd "pos;" ;;
        if apos then setByte trail "\" ;;; addPos 3 ;;; ret (c, trail)
        else ret (c, trail)
    else if Byte.eqb c "q" then
      err <- skipBytes 1 ;;
      quot <- andThen (isNil err) (hasPrefixToEnd "uot;") ;;
      if quot then addPos 3 ;;; ret (c, trail) else ret (c, trail)
    else if Byte.eqb c "g" then
      err <- skipBytes 1 ;;
      gt <- andThen (isNil err) (hasPrefixToEnd "t;") ;;
      if gt then setByte trail ">" ;;; addPos 1 ;;; ret (c, trail)
      else ret (c, trail)
    else if Byte.eqb c "l" then
      err <- skipBytes 1 ;;
      lt <- andThen (isNil err) (hasPrefixToEnd "t;") ;;
      if lt then setByte trail "<" ;;; addPos 1 ;;; ret (c, trail)
      else ret (c, trail)
    else if Byte.eqb c x00 then crash (PanicMsg "end of file")
    else ret (c, trail + 1)
  else
    p <- getPos ;;
    if trail <? p then
      b <- byteAt p ;; setByte trail b ;;; ret (c, trail)
    else ret (c, trail).

(** The body of the [for] loop. *)
Definition expandTurn (c : byte) (trail : Z) : M turn :=
  ct <- expandRef c trail ;;
  c' <- getNextByte ;;
  if Byte.eqb c' x00 then ret ReturnNil
  else ret (Next c' (snd ct + 1)).

(** [for c := ...; stopPred[c] == 1; { ... }]; yields the final [trail], or
    [None] for [return nil]. *)
Fixpoint expandLoop (fuel : nat) (stopPred : list nat) (c : byte) (trail : Z)
  : M (option Z) :=
  if isSet stopPred c then
    match fuel with
    | O => timeout
    | S f =>
        t <- expandTurn c trail ;;
        match t with
        | ReturnNil => ret None
        | Next c' trail' => expandLoop f stopPred c' trail'
        end
    end
  else ret (Some trail).

(** Every turn moves the read position forward, so the loop takes at most
    one turn per byte of the buffer. *)
Definition skipAndExpandCharacterRefs (stopPred stopPredPure : list nat)
  : M slice :=
  start <- getPos ;;
  skip stopPredPure ;;;
  trail <- getPos ;;
  c <- getCurrentByte ;;
  n <- gets (fun s => length (buf s)) ;;
  res <- expandLoop n stopPred c trail ;;
  match res with
  | None => ret None
  | Some trail' => sp <- sliceData start trail' ;; ret (Some sp)
  end.

(** ** Arenas (nodearena.go) *)

(** [(na *nodeArena) get], on the package variable [na]. *)
Definition nodeArena_get : M ptr :=
  free <- gets na ;;
  (if Nat.eqb (length free) 0 then
     cs <- gets currentSize ;;
     modify (setNa (repeat zeroNode cs)) ;;;
     modify (setCurrentSize (cs * 2)) ;;;
     modify (fun s => setCurrentSize (Nat.min maxsize (currentSize s)) s)
   else ret tt) ;;;
  free <- gets na ;;
  match last free with
  | None => crash IndexOutOfRange
  | Some cell =>
      modify (setNa (removelast free)) ;;;
      a <- gets (fun s => length (nodes s)) ;;
      modify (fun s => setNodes (nodes s ++ [cell]) s) ;;;
      ret (Some a)
  end.

(** [(aa *attributeArena) get], on [r.attributeArena]. *)
Definition attributeArena_get : M ptr :=
  free <- gets (fun s => attributeArena (r s)) ;;
  (if Nat.eqb (length free) 0 then
     cs <- gets currAttrSize ;;
     modify (onR (setAttributeArena (repeat zeroAttr cs))) ;;;
     modify (setCurrAttrSize (cs * 2)) ;;;
     modify (fun s => setCurrAttrSize (Nat.min maxsize (currAttrSize s)) s)
   else ret tt) ;;;
  free <- gets (fun s => attributeArena (r s)) ;;
  match last free with
  | None => crash IndexOutOfRange
  | Some cell =>
      modify (onR (setAttributeArena (removelast free))) ;;;
      a <- gets (fun s => length (attrs s)) ;;
      modify (fun s => setAttrs (attrs s ++ [cell]) s) ;;;
      ret (Some a)
  end.

(** ** Cells *)

(** Reading through a pointer; [nil], and an address that was never handed
    out, panic. *)
Definition loadNode (p : ptr) : M GenericNode :=
  fun s => match p with
           | Some a => match nodes s !! a with
                       | Some n => Done (n, s)
                       | None => Crash NilDereference
                       end
           | None => Crash NilDereference
           end.

(** One field assignment [p.f = v]. *)
Definition updNode (p : ptr) (f : GenericNode -> GenericNode) : M unit :=
  fun s => match p with
           | Some a => match nodes s !! a with
                       | Some n => Done (tt, setNodes (<[a := f n]> (nodes s)) s)
                       | None => Crash NilDereference
                       end
           | None => Crash NilDereference
           end.

Definition loadAttr (p : ptr) : M AttributeNode :=
  fun s => match p with
           | Some a => match attrs s !! a with
                       | Some n => Done (n, s)
                       | None => Crash NilDereference
                       end
           | None => Crash NilDereference
           end.

Definition updAttr (p : ptr) (f : AttributeNode -> AttributeNode) : M unit :=
  fun s => match p with
           | Some a => match attrs s !! a with
                       | Some n => Done (tt, setAttrs (<[a := f n]> (attrs s)) s)
                       | None => Crash NilDereference
                       end
           | None => Crash NilDereference
           end.

Definition ptrEq (p q : ptr) : bool := bool_decide (p = q).

(** [newNode] *)
Definition newNode (t : NodeType) : M ptr :=
  n <- nodeArena_get ;;
  updNode n (setNodeType t) ;;;
  ret n.

(** ** Structural mutation (node.go) *)

Definition AppendNode (g child : ptr) : M unit :=
  gn <- loadNode g ;;
  (if isNil (firstChild gn) then
     updNode g (setFirstChild child)
   else
     updNode (lastChild gn) (setNext child) ;;;
     gn <- loadNode g ;;
     updNode child (setPrev (lastChild gn))) ;;;
  updNode g (setLastChild child) ;;;
  updNode child (onBase (setParent g)).

Definition PrependNode (g child : ptr) : M unit :=
  gn <- loadNode g ;;
  (if isNil (firstChild gn) then
     updNode g (setLastChild child)
   else
     updNode (firstChild gn) (setPrev child) ;;;
     gn <- loadNode g ;;
     updNode child (setNext (firstChild gn))) ;;;
  updNode g (setFirstChild child) ;;;
  updNode child (onBase (setParent g)).

Definition AppendAttribute (g a : ptr) : M unit :=
  gn <- loadNode g ;;
  (if isNil (firstAttribute gn) then
     updNode g (setFirstAttribute a)
   else
     updAttr (lastAttribute gn) (setAttrNext a) ;;;
     gn <- loadNode g ;;
     updAttr a (setAttrPrev (lastAttribute gn))) ;;;
  updNode g (setLastAttribute a) ;;;
  updAttr a (onAttrBase (setParent g)).

(** The last statement of the source is [g.Parent = g]. *)
Definition PrependAttribute (g a : ptr) : M unit :=
  gn <- loadNode g ;;
  (if isNil (firstAttribute gn) then
     updNode g (setLastAttribute a)
   else
     updAttr (firstAttribute gn) (setAttrPrev a) ;;;
     gn <- loadNode g ;;
     updAttr a (setAttrNext (firstAttribute gn))) ;;;
  updNode g (setFirstAttribute a) ;;;
  updNode g (onBase (setParent g)).

Definition InsertAttribute (g where_ a : ptr) : M unit :=
  gn <- loadNode g ;;
  if ptrEq (firstAttribute gn) where_ then PrependAttribute g a
  else
    w <- loadAttr where_ ;;
    if negb (ptrEq (Parent (abase w)) g) then
      crash (PanicMsg "attemted to insert attribute at non-exising position")
    else
      updAttr a (setAttrPrev (attrPrev w)) ;;;
      updAttr a (setAttrNext where_) ;;;
      w <- loadAttr where_ ;;
      updAttr (attrPrev w) (setAttrNext a) ;;;
      updAttr where_ (setAttrPrev a) ;;;
      updAttr a (onAttrBase (setParent g)).

(** [GetAttributes]: the attribute chain, first to last. *)
Fixpoint attrChain (fuel : nat) (h : list AttributeNode) (i : ptr)
  : outcome (list addr) :=
  match i with
  | None => Done []
  | Some a =>
      match fuel with
      | O => Timeout
      | S f =>
          match h !! a with
          | None => Crash NilDereference
          | Some n =>
              match attrChain f h (attrNext n) with
              | Done l => Done (a :: l)
              | Crash p => Crash p
              | Timeout => Timeout
              end
          end
      end
  end.

(** The other operations on the child chain (node.go). *)

(** [InsertNode]: [child] goes before [where]. *)
Definition InsertNode (g where_ child : ptr) : M unit :=
  gn <- loadNode g ;;
  if ptrEq (firstChild gn) where_ then PrependNode g child
  else
    w <- loadNode where_ ;;
    if negb (ptrEq (Parent (gbase w)) g) then
      crash (PanicMsg "attempted to insert at non-existing position")
    else
      updNode child (setPrev (prev w)) ;;;
      updNode child (setNext where_) ;;;
      w <- loadNode where_ ;;
      updNode (prev w) (setNext child) ;;;
      updNode where_ (setPrev child) ;;;
      updNode child (onBase (setParent g)).

(** [RemoveFirstNode] *)
Definition RemoveFirstNode (g : ptr) : M unit :=
  gn <- loadNode g ;;
  if isNil (firstChild gn) then ret tt
  else
    first <- loadNode (firstChild gn) ;;
    updNode g (setFirstChild (next first)) ;;;
    gn <- loadNode g ;;
    if isNil (firstChild gn) then updNode g (setLastChild None)
    else updNode (firstChild gn) (setPrev None).

(** [RemoveLastNode] *)
Definition RemoveLastNode (g : ptr) : M unit :=
  gn <- loadNode g ;;
  if isNil (lastChild gn) then ret tt
  else
    last_ <- loadNode (lastChild gn) ;;
    updNode g (setLastChild (prev last_)) ;;;
    gn <- loadNode g ;;
    if isNil (lastChild gn) then updNode g (setFirstChild None)
    else updNode (lastChild gn) (setNext None).

(** [RemoveNode]; the two assignments of the splice read [where] again. *)
Definition RemoveNode (g where_ : ptr) : M unit :=
  gn <- loadNode g ;;
  if ptrEq where_ (firstChild gn) then RemoveFirstNode g
  else if ptrEq where_ (lastChild gn) then RemoveLastNode g
  else
    w <- loadNode where_ ;;
    if negb (ptrEq (Parent (gbase w)) g) then
      crash (PanicMsg "attempting to remove non-child node")
    else
      updNode (prev w) (setNext (next w)) ;;;
      w <- loadNode where_ ;;
      updNode (next w) (setPrev (prev w)).

(** [RemoveAllNodes] *)
Definition RemoveAllNodes (g : ptr) : M unit :=
  updNode g (setFirstChild None) ;;;
  updNode g (setLastChild None).

(** ** Traversal (node.go)

    A traversal is the sequence of pointers its goroutine sends on the
    channel before closing it; the store is not written meanwhile. *)

Definition obind {A B} (m : outcome A) (k : A -> outcome B) : outcome B :=
  match m with
  | Done a => k a
  | Crash p => Crash p
  | Timeout => Timeout
  end.

Definition load (h : list GenericNode) (p : ptr) : outcome GenericNode :=
  match p with
  | Some a => match h !! a with
              | Some n => Done n
              | None => Crash NilDereference
              end
  | None => Crash NilDereference
  end.

(** The closure [trav] of [SendChildElements]. *)
Fixpoint trav (fuel : nat) (h : list GenericNode) (g : ptr)
  : outcome (list ptr) :=
  match fuel with
  | O => Timeout
  | S f =>
      obind (load h g) (fun gn =>
      obind (if isNil (firstChild gn) then Done []
             else trav f h (firstChild gn)) (fun below =>
      obind (if isNil (next gn) then Done []
             else trav f h (next gn)) (fun after =>
      Done (g :: below ++ after))))
  end.

Definition SendChildElements (fuel : nat) (h : list GenericNode) (g : ptr)
  : outcome (list ptr) :=
  if isNil g then Crash (PanicMsg "node is nil") else trav fuel h g.

Definition CountChildren (fuel : nat) (h : list GenericNode) (g : ptr)
  : outcome Z :=
  obind (SendChildElements fuel h g) (fun l => Done (Z.of_nat (length l))).

(** The sibling loop of [SendCloseChildren]. *)
Fixpoint closeLoop (fuel : nat) (h : list GenericNode) (g n : ptr)
  : outcome (list ptr) :=
  obind (load h g) (fun gn =>
  if ptrEq n (lastChild gn) then Done [n]
  else match fuel with
       | O => Timeout
       | S f =>
           obind (load h n) (fun nn =>
           obind (closeLoop f h g (next nn)) (fun rest =>
           Done (n :: rest)))
       end).

Definition SendCloseChildren (fuel : nat) (h : list GenericNode) (g : ptr)
  : outcome (list ptr) :=
  obind (load h g) (fun gn =>
  if isNil (firstChild gn) then Done []
  else closeLoop fuel h g (firstChild gn)).

(** [GetAttributes] on the node [g]. *)
Definition GetAttributes (fuel : nat) (s : State) (g : ptr) : outcome (list addr) :=
  obind (load (nodes s) g) (fun gn => attrChain fuel (attrs s) (firstAttribute gn)).

(** ** The parsing engine (runxml.go) *)

Definition contextSize : Z := 40.

Definition contextError (v : error) : M error :=
  p <- getPos ;; n <- getLen ;;
  lsp <- sliceData (Z.max (p - contextSize) 0) (Z.min p n) ;;
  leftcontext <- readSpan lsp ;;
  rsp <- sliceData (Z.min (p + 1) n) (Z.min (p + contextSize) n) ;;
  rightcontext <- readSpan rsp ;;
  if p >? n - 1 then ret (WithContext v leftcontext None [])
  else
    c <- getCurrentByte ;;
    ret (WithContext v leftcontext (Some c) rightcontext).

(** [parseAndAppendData] *)
Definition parseAndAppendData (parent : ptr) : M (option error) :=
  value <- skipAndExpandCharacterRefs lookupText lookupTextPureNoWS ;;
  if isNil value then ret (Some CannotAppendData)
  else
    node <- newNode Data ;;
    updNode node (onBase (setValue value)) ;;;
    updNode parent (onBase (setValue value)) ;;;
    AppendNode parent node ;;;
    ret None.

(** The [for] loop of [parseAttributes]; a turn that does not return
    consumes at least the [=] and the two quotes. *)
Fixpoint parseAttributesLoop (fuel : nat) (element : ptr) : M (option error) :=
  c <- getCurrentByte ;;
  if isSet lookupAttributeName c then
    match fuel with
    | O => timeout
    | S f =>
        start <- getPos ;;
        addPos 1 ;;;
        skip lookupAttributeName ;;;
        attrNode <- attributeArena_get ;;
        name <- sliceFrom start ;;
        updAttr attrNode (onAttrBase (setName (Some name))) ;;;
        AppendAttribute element attrNode ;;;
        skip lookupWhitespace ;;;
        c <- getCurrentByte ;;
        if negb (Byte.eqb c "=") then
          p <- getPos ;; found <- byteAt p ;;
          ret (Some (ExpectedEquals found p))
        else
          addPos 1 ;;;
          skip lookupWhitespace ;;;
          q <- getCurrentByte ;;
          if negb (Byte.eqb q "'") && negb (Byte.eqb q x22) then
            p <- getPos ;; ret (Some (ExpectedQuote q p))
          else
            addPos 1 ;;;
            value <- (if Byte.eqb q "'" then
                        skipAndExpandCharacterRefs
                          lookupAttributeDataSQ lookupAttributeDataSQPure
                      else if Byte.eqb q x22 then
                        skipAndExpandCharacterRefs
                          lookupAttributeDataDQ lookupAttributeDataDQPure
                      else crash (PanicMsg "should never happen")) ;;
            if isNil value then ret (Some AttributeValueError)
            else
              updAttr attrNode (onAttrBase (setValue value)) ;;;
              c <- getCurrentByte ;;
              if negb (Byte.eqb c q) then ret (Some (ExpectedEndQuote q))
              else
                addPos 1 ;;;
                skip lookupWhitespace ;;;
                parseAttributesLoop f element
    end
  else ret None.

Definition parseAttributes (element : ptr) : M (option error) :=
  fun s => parseAttributesLoop (length (buf s)) element s.

(** [parseXMLDeclaration]; the error of [parseAttributes] is dropped. *)
Definition parseXMLDeclaration : M (ptr * option error) :=
  nd <- newNode Declaration ;;
  skip lookupWhitespace ;;;
  parseAttributes nd ;;;
  close <- hasPrefixToEnd "?>" ;;
  if negb close then addPos 2 ;;; ret (None, Some BadDeclarationEnd)
  else addPos 2 ;;; ret (nd, None).

Definition parsePI : M (ptr * option error) :=
  start <- getPos ;;
  skip lookupNodeName ;;;
  p <- getPos ;;
  if start =? p then ret (None, Some ExpectedPITarget)
  else
    pin <- newNode Pi ;;
    name <- sliceFrom start ;;
    updNode pin (onBase (setName (Some name))) ;;;
    skip lookupWhitespace ;;;
    start <- getPos ;;
    err <- skipToChars (bytes "?>") ;;
    match err with
    | Some e => ret (None, Some e)
    | None =>
        value <- sliceFrom start ;;
        updNode pin (onBase (setValue (Some value))) ;;;
        addPos 2 ;;;
        ret (pin, None)
    end.

Definition parseCDATA : M (ptr * option error) :=
  start <- getPos ;;
  err <- skipToChars (bytes "]]") ;;
  match err with
  | Some e => ret (None, Some e)
  | None =>
      cd <- newNode Cdata ;;
      value <- sliceFrom start ;;
      updNode cd (onBase (setValue (Some value))) ;;;
      ret (cd, None)
  end.

(** The search for [--] in [parseComment]; [true] when the end of the
    buffer stops it. *)
Fixpoint commentLoop (fuel : nat) : M bool :=
  dashes <- hasPrefixToEnd "--" ;;
  if negb dashes then
    err <- skipBytes 1 ;;
    if negb (isNil err) then ret true
    else match fuel with
         | O => timeout
         | S f => commentLoop f
         end
  else ret false.

Definition parseComment : M (ptr * option error) :=
  start <- getPos ;;
  n <- gets (fun s => length (buf s)) ;;
  eof <- commentLoop n ;;
  if eof then ret (None, Some UnexpectedEndOfFile)
  else
    err <- skipBytes 2 ;;
    if negb (isNil err) then ret (None, Some UnexpectedEndOfFile)
    else
      c <- getCurrentByte ;;
      if negb (Byte.eqb c ">") then ret (None, Some DashDashInComment)
      else
        comment <- newNode Comment ;;
        p <- getPos ;;
        value <- sliceData start (p - 2) ;;
        updNode comment (onBase (setValue (Some value))) ;;;
        skipBytes 1 ;;;
        ret (comment, None).

(** The bracket-counting loop of [parseDocType]. *)
Fixpoint docTypeBrackets (fuel : nat) (depth : Z) (insideElement : bool)
  : M unit :=
  if depth >? 0 then
    match fuel with
    | O => timeout
    | S f =>
        c <- getCurrentByte ;;
        let depth' :=
          if Byte.eqb c "[" then (if insideElement then depth else depth + 1)
          else if Byte.eqb c "]" then (if insideElement then depth else depth - 1)
          else depth in
        let inside' :=
          if Byte.eqb c "[" then insideElement
          else if Byte.eqb c "]" then insideElement
          else if Byte.eqb c ">" then false
          else insideElement in
        markup <- hasPrefixToEnd "<!" ;;
        getNextByte ;;;
        docTypeBrackets f depth' (if markup then true else inside')
    end
  else ret tt.

(** The outer loop of [parseDocType]. *)
Fixpoint docTypeLoop (fuel : nat) : M (option error) :=
  c <- getCurrentByte ;;
  if negb (Byte.eqb c ">") then
    match fuel with
    | O => timeout
    | S f =>
        c <- getCurrentByte ;;
        if Byte.eqb c "[" then
          skipBytes 1 ;;;
          n <- gets (fun s => length (buf s)) ;;
          docTypeBrackets n 1 false ;;;
          docTypeLoop f
        else
          err <- skipBytes 1 ;;
          match err with
          | Some e => ret (Some e)
          | None => docTypeLoop f
          end
    end
  else ret None.

Definition parseDocType : M (ptr * option error) :=
  start <- getPos ;;
  n <- gets (fun s => length (buf s)) ;;
  err <- docTypeLoop n ;;
  match err with
  | Some e => ret (None, Some e)
  | None =>
      dt <- newNode Doctype ;;
      value <- sliceFrom start ;;
      updNode dt (onBase (setValue (Some value))) ;;;
      skipBytes 1 ;;;
      ret (dt, None)
  end.

(** [parseElement], over the parser of its contents. *)
Definition parseElement (parseNodeContents : ptr -> M (option error))
  : M (ptr * option error) :=
  currentElement <- newNode Element ;;
  start <- getPos ;;
  skip lookupNodeName ;;;
  p <- getPos ;;
  if start =? p then ret (None, Some NodeNameError)
  else
    name <- sliceData start p ;;
    updNode currentElement (onBase (setName (Some name))) ;;;
    skip lookupWhitespace ;;;
    err <- parseAttributes currentElement ;;
    match err with
    | Some e => ret (None, Some e)
    | None =>
        c <- getCurrentByte ;;
        if Byte.eqb c ">" then
          addPos 1 ;;;
          err <- parseNodeContents currentElement ;;
          match err with
          | Some e => ret (None, Some e)
          | None => ret (currentElement, None)
          end
        else if Byte.eqb c "/" then
          c2 <- getNextByte ;;
          if negb (Byte.eqb c2 ">") then
            p <- getPos ;; ret (None, Some (ExpectedGtAfterSlash p))
          else addPos 1 ;;; ret (currentElement, None)
        else ret (None, Some UnknownEndType)
    end.

(** [parseNode], over the parser of elements.  The statements after the
    outer [switch] are reached from the [case '-'] whose second byte is
    not a dash. *)
Definition parseNodeWith (parseElement : M (ptr * option error))
  : M (ptr * option error) :=
  p <- getPos ;;
  c <- byteAt p ;;
  if Byte.eqb c "?" then
    err <- skipBytes 4 ;;
    if negb (isNil err) then ret (None, Some UnexpectedEndOfFile)
    else
      p <- getPos ;;
      x <- sliceFrom (p - 3) ;;
      xb <- readSpan x ;;
      decl <- andThen (bytesEq (bytes "xml") (toLower xb))
                      (c <- getCurrentByte ;; ret (isSet lookupWhitespace c)) ;;
      if decl then getNextByte ;;; parseXMLDeclaration
      else addPos (-3) ;;; parsePI
  else if Byte.eqb c "!" then
    c2 <- getNextByte ;;
    if Byte.eqb c2 "-" then
      c2 <- getNextByte ;;
      if Byte.eqb c2 "-" then getNextByte ;;; parseComment
      else
        err <- skipToChar ">" ;;
        ret (None, err)
    else if Byte.eqb c2 "[" then
      err <- skipBytes 1 ;;
      match err with
      | Some e => ret (None, Some e)
      | None =>
          cdata <- hasPrefixToEnd "CDATA[" ;;
          if negb cdata then ret (None, Some UnexpectedDataAfterBracket)
          else skipBytes 6 ;;; parseCDATA
      end
    else if Byte.eqb c2 "D" then
      err <- skipBytes 1 ;;
      match err with
      | Some e => ret (None, Some e)
      | None =>
          octype <- hasPrefixToEnd "OCTYPE" ;;
          doctype <- andThen octype
                       (p <- getPos ;; c <- byteAt (p + 6) ;;
                        ret (isSet lookupWhitespace c)) ;;
          if doctype then skipBytes 6 ;;; parseDocType
          else p <- getPos ;; ret (None, Some (UnexpectedEndOfFileAt p))
      end
    else if Byte.eqb c2 x00 then
      p <- getPos ;; ret (None, Some (UnexpectedEndOfFileAt p))
    else
      err <- skipPastChar ">" ;;
      match err with
      | Some e => ret (None, Some e)
      | None => p <- getPos ;; ret (None, Some (UnrecognizedNode p))
      end
  else parseElement.

(** [parseNodeContents].  [afterData] tells that the turn is entered at the
    label [AfterDataNode], past the whitespace skip.  [fuel] bounds the
    number of turns and the nesting of elements. *)
Fixpoint parseNodeContents (fuel : nat) (afterData : bool) (cn : ptr)
  : M (option error) :=
  match fuel with
  | O => timeout
  | S f =>
      (if afterData then ret tt else skip lookupWhitespace) ;;;
      c <- getCurrentByte ;;
      if Byte.eqb c "<" then
        c2 <- getNextByte ;;
        if Byte.eqb c2 "/" then
          addPos 1 ;;;
          validate <- gets (fun s => ValidateClosingTag (r s)) ;;
          mismatch <-
            (if validate then
               start <- getPos ;;
               skip lookupNodeName ;;;
               closeTag <- sliceFrom start ;;
               tag <- readSpan closeTag ;;
               cnn <- loadNode cn ;;
               name <- readSlice (Name (gbase cnn)) ;;
               if negb (bytesEq tag name)
               then ret (Some (UnexpectedClosingTag tag))
               else ret None
             else skip lookupNodeName ;;; ret None) ;;
          match mismatch with
          | Some e => ret (Some e)
          | None =>
              skip lookupWhitespace ;;;
              c <- getCurrentByte ;;
              if negb (Byte.eqb c ">") then ret (Some ExpectedGt)
              else addPos 1 ;;; ret None
          end
        else
          res <- parseNodeWith (parseElement (parseNodeContents f false)) ;;
          match snd res with
          | Some e => ret (Some e)
          | None =>
              (if isNil (fst res) then ret tt else AppendNode cn (fst res)) ;;;
              parseNodeContents f false cn
          end
      else
        err <- parseAndAppendData cn ;;
        match err with
        | Some e => ret (Some e)
        | None => parseNodeContents f true cn
        end
  end.

Definition parseNode (fuel : nat) : M (ptr * option error) :=
  parseNodeWith (parseElement (parseNodeContents fuel false)).

Section Parse.

(** [decodeUTF16] is called by [skipBOM] and is not part of the sources at
    hand; it is a parameter of the development.  [None] stands for its
    non-nil error. *)
Variable decodeUTF16 : list byte -> option (list byte).

Definition skipBOM : M unit :=
  d <- gets buf ;;
  if hasPrefix d [xef; xbb; xbf] then addPos 3
  else if hasPrefix d [xff; xfe] then
    match decodeUTF16 d with
    | None => crash (PanicMsg "decodeUTF16")
    | Some d' => modify (onR (setData d')) ;;; addPos 3
    end
  else if hasPrefix d [xfe; xff] then
    match decodeUTF16 d with
    | None => crash (PanicMsg "decodeUTF16")
    | Some d' => modify (onR (setData d')) ;;; addPos 3
    end
  else ret tt.

(** The [for] loop of [Parse]. *)
Fixpoint parseLoop (fuel : nat) (doc : ptr) : M (ptr * option error) :=
  p <- getPos ;; n <- getLen ;;
  if p <? n then
    match fuel with
    | O => timeout
    | S f =>
        skip lookupWhitespace ;;;
        p <- getPos ;; n <- getLen ;;
        if p =? n - 1 then ret (doc, None)
        else
          c <- getCurrentByte ;;
          if Byte.eqb c "<" then
            addPos 1 ;;;
            res <- parseNode f ;;
            match snd res with
            | Some e => ce <- contextError e ;; ret (fst res, Some ce)
            | None => AppendNode doc (fst res) ;;; parseLoop f doc
            end
          else
            p <- getPos ;; found <- byteAt p ;;
            ce <- contextError (ExpectedLt found) ;;
            ret (doc, Some ce)
    end
  else ret (doc, None).

(** The statements of [Parse] before its loop. *)
Definition parseStart (b : list byte) : M ptr :=
  setPos 0 ;;;
  modify (onR (setData b)) ;;;
  doc <- newNode Document ;;
  skipBOM ;;;
  ret doc.

(** [Parse]: the node handed back and the error.  [fuel] bounds the number
    of top-level constructs and, through [parseNode], the turns and the
    nesting inside them. *)
Definition Parse (fuel : nat) (b : list byte) : M (ptr * option error) :=
  doc <- parseStart b ;;
  parseLoop fuel doc.

End Parse.

(** * Notions used to state the properties *)

(** ** Observations *)

(** A parser instance at position 0 of the buffer [d], in a program that
    has allocated nothing yet. *)
Definition bufferState (d : string) : State :=
  initState (setData (bytes d) NewDefaultRunXML).

(** The parser with closing-tag validation switched off. *)
Definition lenientRunXML : RunXML :=
  {| ValidateClosingTag := false; nodeArena := []; attributeArena := [];
     data := []; position := 0 |}.

(** An instance of the transcoder, for buffers that carry no UTF-16 mark. *)
Definition rejectUTF16 (_ : list byte) : option (list byte) := None.

(** The node behind a pointer, and the bytes seen through its fields. *)
Definition nodeAt (s : State) (p : ptr) : option GenericNode :=
  match p with Some a => nodes s !! a | None => None end.
Definition nameOf (s : State) (n : GenericNode) : list byte :=
  sliceBytes (buf s) (Name (gbase n)).
Definition valueOf (s : State) (n : GenericNode) : list byte :=
  sliceBytes (buf s) (Value (gbase n)).

(** The text the decoder leaves when run at the start of the buffer [d]. *)
Definition decoded (stopPred stopPredPure : list nat) (d : string)
  : option (list byte) :=
  match skipAndExpandCharacterRefs stopPred stopPredPure (bufferState d) with
  | Done (sl, s) => Some (sliceBytes (buf s) sl)
  | _ => None
  end.

(** The store left by parsing [d] with the default parser in a program
    that has allocated nothing yet. *)
Definition parsedStore (d : string) : list GenericNode :=
  match Parse rejectUTF16 64 (bytes d) (initState NewDefaultRunXML) with
  | Done (_, s) => nodes s
  | _ => []
  end.

(** A store with one element node and one attribute, both fresh. *)
Definition freshPair : State :=
  match (newNode Element ;;; attributeArena_get) (initState NewDefaultRunXML) with
  | Done (_, s) => s
  | _ => initState NewDefaultRunXML
  end.

(** ** The decoder's loop *)

(** [expandReach stopPred x y]: from the locals [c], [trail] and the state
    gathered in [x], the loop of [skipAndExpandCharacterRefs] gets to [y]
    after some number of turns. *)
Inductive expandReach (stopPred : list nat)
  : byte * Z * State -> byte * Z * State -> Prop :=
| reach_here x : expandReach stopPred x x
| reach_turn c trail s c' trail' s' y :
    isSet stopPred c = true ->
    expandTurn c trail s = Done (Next c' trail', s') ->
    expandReach stopPred (c', trail', s') y ->
    expandReach stopPred (c, trail, s) y.

(** A scanner step that moves the read position by [k] and leaves the
    buffer alone. *)
Record moved (k : Z) (s s' : State) : Prop := {
  moved_pos : pos s' = pos s + k;
  moved_buf : buf s' = buf s }.

(** What the statement of one turn does to [trail], to the read position
    and to the buffer. *)
Record refStep (trail : Z) (s : State) (trail' : Z) (s' : State) : Prop := {
  ref_len : len s' = len s;
  ref_pos : pos s <= pos s';
  ref_gap : trail' - trail <= pos s' - pos s;
  ref_trail : trail <= trail';
  ref_write : forall i : nat, i <> Z.to_nat trail -> buf s' !! i = buf s !! i }.

(** ** The tree a store holds *)

(** A node with the subtrees of its children, first to last. *)
#[warnings="-register-all"]
Inductive tree := T (root : addr) (kids : list tree).

Definition root (t : tree) : addr := match t with T a _ => a end.

(** Textbook pre-order: the node, then the subtrees of its children in
    order. *)
Fixpoint preorder (t : tree) : list addr :=
  match t with
  | T a ks => a :: flat_map preorder ks
  end.

Definition preorders (ts : list tree) : list addr := flat_map preorder ts.

(** [forest h p ts]: the sibling chain that starts at [p] and follows
    [next] up to [nil] carries the trees [ts]; the children of a node are
    the chain that starts at its [firstChild]. *)
Inductive forest (h : list GenericNode) : ptr -> list tree -> Prop :=
| forest_nil : forest h None []
| forest_cons a n ks sibs :
    h !! a = Some n ->
    forest h (firstChild n) ks ->
    forest h (next n) sibs ->
    forest h (Some a) (T a ks :: sibs).

(** What a guarded call [if p != nil { trav(p) }] sends. *)
Definition travFrom (fuel : nat) (h : list GenericNode) (p : ptr)
  : outcome (list ptr) :=
  if isNil p then Done [] else trav fuel h p.

(** ** Attributes *)

(** The [Parent] of the attribute at [a] is [q]. *)
Definition attrParentIs (a : addr) (q : ptr) (s : State) : Prop :=
  exists an, attrs s !! a = Some an /\ Parent (abase an) = q.

(** ** The context window

    The two byte runs [contextError] cites around a position inside the
    buffer. *)
Definition leftContext (s : State) : list byte :=
  spanBytes (buf s)
    (Span (Z.max (pos s - contextSize) 0) (Z.min (pos s) (len s))).
Definition rightContext (s : State) : list byte :=
  spanBytes (buf s)
    (Span (Z.min (pos s + 1) (len s)) (Z.min (pos s + contextSize) (len s))).

(** ** The arena invariant

    The cells of [na] not handed out yet are zero, and the size of the
    next slab is positive. *)
Definition arenaOk (s : State) : Prop :=
  Forall (fun c => c = zeroNode) (na s) /\ (0 < currentSize s)%nat.

(** ** The older copy of [SendCloseChildren]

    The copy of node.go that follows the parser in runxml.go (lines
    912-926, with [nextSibling] for [next]) enters the sibling loop without
    looking at [firstChild]. *)
Definition SendCloseChildrenOld (fuel : nat) (h : list GenericNode) (g : ptr)
  : outcome (list ptr) :=
  obind (load h g) (fun gn => closeLoop fuel h g (firstChild gn)).

(** ** Byte classes and prefixes *)

(** [c] is one of the bytes of [l]. *)
Definition oneOf (l : list byte) (c : byte) : bool := existsb (Byte.eqb c) l.

(** The byte at index [i] of the buffer is in the class of [table]. *)
Definition classAt (table : list nat) (s : State) (i : Z) : Prop :=
  exists c, index (buf s) i = Some c /\ isSet table c = true.

(** The byte at index [i] of the buffer is outside the class of [table]. *)
Definition stopAt (table : list nat) (s : State) (i : Z) : Prop :=
  exists c, index (buf s) i = Some c /\ isSet table c = false.

(** The view [r.data[i:]] has the prefix [b]. *)
Definition prefixAt (b : list byte) (s : State) (i : Z) : bool :=
  hasPrefix (drop (Z.to_nat i) (buf s)) b.

(** A parser that hands back no node when it hands back an error. *)
Definition errNil (m : M (option nat * option error)) : Prop :=
  forall s p e s', m s = Done ((p, Some e), s') -> p = None.

(** ** States used as instances *)

(** The state the default parser leaves after parsing [d]. *)
Definition parsedState (d : string) : State :=
  match Parse rejectUTF16 64 (bytes d) (initState NewDefaultRunXML) with
  | Done (_, s) => s
  | _ => initState NewDefaultRunXML
  end.

(** The same after one more [newNode]: the new node is the last of the store. *)
Definition withFresh (d : string) : State :=
  match newNode Element (parsedState d) with
  | Done (_, s) => s
  | _ => parsedState d
  end.

(** ** Well-formed child chains *)

(** The nodes of [l] are linked in this order through [prev] and [next],
    with [nil] at both ends. *)
Definition linked (h : list GenericNode) (l : list nat) : Prop :=
  forall i a, l !! i = Some a ->
    exists n, h !! a = Some n /\
      prev n = match i with O => None | S j => l !! j end /\
      next n = l !! S i.

(** [childrenOf h g l]: in the store [h] the children of [g] are the nodes
    of [l], first to last. *)
Record childrenOf (h : list GenericNode) (g : nat) (l : list nat) : Prop := {
  co_first : firstChild <$> h !! g = Some (head l);
  co_last : lastChild <$> h !! g = Some (last l);
  co_linked : linked h l;
  co_parent : forall a, a ∈ l ->
                (fun n => Parent (gbase n)) <$> h !! a = Some (Some g);
  co_nodup : NoDup l;
  co_self : g ∉ l }.

(** A node that is nobody's sibling yet. *)
Definition detached (h : list GenericNode) (c : nat) : Prop :=
  exists n, h !! c = Some n /\ prev n = None /\ next n = None.

(** The state after parsing [d] and taking one more attribute from the arena. *)
Definition withFreshAttr (d : string) : State :=
  match attributeArena_get (parsedState d) with
  | Done (_, s) => s
  | _ => parsedState d
  end.

(** ** Well-formed attribute chains *)

Definition attrLinked (h : list AttributeNode) (l : list nat) : Prop :=
  forall i a, l !! i = Some a ->
    exists n, h !! a = Some n /\
      attrPrev n = match i with O => None | S j => l !! j end /\
      attrNext n = l !! S i.

(** [attributesOf s g l]: in the state [s] the attributes of the node [g]
    are those of [l], first to last. *)
Record attributesOf (s : State) (g : nat) (l : list nat) : Prop := {
  ao_first : firstAttribute <$> nodes s !! g = Some (head l);
  ao_last : lastAttribute <$> nodes s !! g = Some (last l);
  ao_linked : attrLinked (attrs s) l;
  ao_nodup : NoDup l }.

(** An attribute that is in no chain yet. *)
Definition detachedAttr (s : State) (a : nat) : Prop :=
  exists n, attrs s !! a = Some n /\ attrPrev n = None /\ attrNext n = None.

(** ** Rewritten links *)

(** [relinked s s']: [s'] is [s] with link fields of some nodes rewritten. *)
Definition relinked (s s' : State) : Prop :=
  exists h', s' = setNodes h' s /\ length h' = length (nodes s) /\
    forall a, nodeType <$> h' !! a = nodeType <$> nodes s !! a.

(** ** Allocation *)

(** [freshNode s s' c t]: [s'] is [s] with one more node, [c], of type [t]
    and otherwise zero; the buffer and the read position are those of [s]. *)
Definition freshNode (s s' : State) (c : nat) (t : NodeType) : Prop :=
  c = length (nodes s) /\
  nodes s' = nodes s ++ [setNodeType t zeroNode] /\
  r s' = r s /\ attrs s' = attrs s /\ arenaOk s'.

(** * Properties *)

(** ** Reasoning about the monad *)

Lemma bind_Done {A B} (m : M A) (k : A -> M B) s x :
  bind m k s = Done x <-> exists a s1, m s = Done (a, s1) /\ k a s1 = Done x.
Proof.
  unfold bind. split.
  - destruct (m s) as [[a s1]| |]; try discriminate. eauto.
  - intros (a & s1 & -> & H). exact H.
Qed.

Lemma bind_Timeout {A B} (m : M A) (k : A -> M B) s :
  bind m k s = Timeout <->
  m s = Timeout \/ exists a s1, m s = Done (a, s1) /\ k a s1 = Timeout.
Proof.
  unfold bind. split.
  - destruct (m s) as [[a s1]| |]; try discriminate; eauto.
  - intros [-> | (a & s1 & -> & H)]; auto.
Qed.

Lemma pos_setPosition p s : pos (onR (setPosition p) s) = p.
Proof. reflexivity. Qed.
Lemma buf_setPosition p s : buf (onR (setPosition p) s) = buf s.
Proof. reflexivity. Qed.
Lemma len_setPosition p s : len (onR (setPosition p) s) = len s.
Proof. reflexivity. Qed.
Lemma pos_setData d s : pos (onR (setData d) s) = pos s.
Proof. reflexivity. Qed.
Lemma buf_setData d s : buf (onR (setData d) s) = d.
Proof. reflexivity. Qed.

Lemma getNextByte_moved s c s' :
  getNextByte s = Done (c, s') ->
  moved 1 s s' /\ (c <> x00 -> pos s' <= len s - 1).
Proof.
  unfold getNextByte, addPos, modify, getPos, getLen, gets, byteAt, ret, bind.
  simpl. rewrite !pos_setPosition, len_setPosition.
  destruct (pos s + 1 >? len s - 1) eqn:E.
  - intros [= <- <-]. split; [split; reflexivity|]. congruence.
  - destruct (index _ _); intros [= <- <-].
    split; [split; reflexivity|]. rewrite pos_setPosition. lia.
Qed.

Lemma skipBytes_moved k s e s' :
  skipBytes k s = Done (e, s') ->
  (e <> None /\ s' = s) \/ (e = None /\ moved k s s').
Proof.
  unfold skipBytes, addPos, modify, getPos, getLen, gets, ret, bind. simpl.
  destruct (len s <=? pos s + k); intros [= <- <-].
  - left. split; [discriminate | reflexivity].
  - right. split; [reflexivity | split; reflexivity].
Qed.

Lemma hasPrefixToEnd_same p s b s' :
  hasPrefixToEnd p s = Done (b, s') -> s' = s.
Proof.
  unfold hasPrefixToEnd, sliceToEnd, sliceData, readSpan, getPos, getLen, gets, ret, bind.
  simpl. destruct (_ && _); [|discriminate]. intros [= <- <-]. reflexivity.
Qed.

Lemma andThen_same a p s b s' :
  andThen a (hasPrefixToEnd p) s = Done (b, s') -> s' = s.
Proof.
  destruct a; simpl.
  - apply hasPrefixToEnd_same.
  - intros [= <- <-]. reflexivity.
Qed.

Lemma addPos_moved k s x s' : addPos k s = Done (x, s') -> moved k s s'.
Proof. intros [= <- <-]. split; reflexivity. Qed.

Lemma setByte_wrote i v s x s' :
  setByte i v s = Done (x, s') ->
  pos s' = pos s /\ buf s' = <[Z.to_nat i := v]> (buf s).
Proof.
  unfold setByte. destruct (_ && _); [|discriminate].
  intros [= <- <-]. split; reflexivity.
Qed.

Lemma len_buf s s' : buf s' = buf s -> len s' = len s.
Proof. unfold len. intros ->. reflexivity. Qed.

Lemma len_insert_buf s s' i v :
  buf s' = <[i := v]> (buf s) -> len s' = len s.
Proof. unfold len. intros ->. rewrite length_insert. reflexivity. Qed.

Ltac bind_inv H :=
  lazymatch type of H with
  | bind _ _ _ = Done _ =>
      let a := fresh "a" in let s1 := fresh "s" in let H1 := fresh "H" in
      apply bind_Done in H; destruct H as (a & s1 & H1 & H)
  end.

Tactic Notation "step_inv" hyp(H) "as" ident(a) ident(s1) ident(H1) :=
  apply bind_Done in H; destruct H as (a & s1 & H1 & H).

Ltac prim_inv :=
  repeat match goal with
  | H : getNextByte _ = Done _ |- _ => apply getNextByte_moved in H; destruct H as [[? ?] ?]
  | H : skipBytes _ _ = Done _ |- _ => apply skipBytes_moved in H; destruct H as [[? ->] | [? [? ?]]]
  | H : andThen _ (hasPrefixToEnd _) _ = Done _ |- _ => apply andThen_same in H; subst
  | H : hasPrefixToEnd _ _ = Done _ |- _ => apply hasPrefixToEnd_same in H; subst
  | H : addPos _ _ = Done _ |- _ => apply addPos_moved in H; destruct H as [? ?]
  | H : setByte _ _ _ = Done _ |- _ => apply setByte_wrote in H; destruct H as [? ?]
  | H : ret _ _ = Done _ |- _ => unfold ret in H; injection H as ? ?; subst
  | H : getPos _ = Done _ |- _ => unfold getPos, gets in H; injection H as ? ?; subst
  | H : byteAt _ _ = Done _ |- _ => unfold byteAt in H; destruct (index _ _) in H; [injection H as ? ?; subst | discriminate H]
  | H : crash _ _ = Done _ |- _ => discriminate H
  end.

Ltac ref_done :=
  split;
  [ unfold len; repeat match goal with H : buf _ = _ |- _ => rewrite H end;
    rewrite ?length_insert; reflexivity
  | lia | lia | lia
  | intros i Hi; repeat match goal with H : buf _ = _ |- _ => rewrite H end;
    rewrite ?list_lookup_insert_ne by (intro; apply Hi; congruence); reflexivity ].

Lemma expandRef_step c trail s c' trail' s' :
  expandRef c trail s = Done ((c', trail'), s') ->
  trail <= pos s ->
  refStep trail s trail' s' /\ trail' <= pos s'.
Proof.
  unfold expandRef. intros H Ht.
  destruct (Byte.eqb c "&").
  - bind_inv H.
    repeat match type of H with
    | (if ?b then _ else _) _ = _ => destruct b
    | _ => bind_inv H
    end; prim_inv; (split; [ref_done | lia]).
  - repeat match type of H with
    | (if ?b then _ else _) _ = _ => destruct b eqn:?
    | _ => bind_inv H
    end; prim_inv; (split; [ref_done | lia]).
Qed.

Lemma expandTurn_step c trail s tn s' :
  expandTurn c trail s = Done (tn, s') ->
  trail <= pos s ->
  len s' = len s /\ pos s < pos s' /\
  (forall i : nat, i <> Z.to_nat trail -> buf s' !! i = buf s !! i) /\
  match tn with
  | Next _ trail' => trail < trail' /\ trail' <= pos s' /\ pos s' <= len s - 1
  | ReturnNil => True
  end.
Proof.
  unfold expandTurn. intros H Ht.
  step_inv H as ct s0 Href. destruct ct as [c1 t1].
  apply expandRef_step in Href as [[Hl Hp Hg Htr Hw] Ht1]; [|exact Ht].
  step_inv H as a s2 Hnext. apply getNextByte_moved in Hnext as [[Hp1 Hb1] Hc].
  assert (len s' = len s).
  { destruct (Byte.eqb a x00); prim_inv; rewrite <- Hl; apply len_buf; assumption. }
  assert (buf s' = buf s0).
  { destruct (Byte.eqb a x00); prim_inv; assumption. }
  assert (pos s' = pos s0 + 1).
  { destruct (Byte.eqb a x00); prim_inv; assumption. }
  repeat split; try lia.
  - intros i Hi. rewrite H1. apply Hw, Hi.
  - destruct (Byte.eqb a x00) eqn:E; prim_inv; [exact I|].
    simpl. assert (a <> x00).
    { intros ->. discriminate E. }
    specialize (Hc H). rewrite Hl in Hc. lia.
Qed.

Lemma expandReach_behind stopPred x y :
  expandReach stopPred x y ->
  snd (fst x) <= pos (snd x) -> snd (fst y) <= pos (snd y).
Proof.
  induction 1 as [|c t s c' t' s' y Hc Hturn _ IH]; [auto|].
  simpl. intros Ht. apply IH. simpl.
  apply expandTurn_step in Hturn; [|exact Ht]. simpl in Hturn. lia.
Qed.

Ltac crunch_no_timeout :=
  simpl;
  repeat match goal with
  | |- context [match ?x with _ => _ end] =>
      lazymatch x with
      | context [match _ with _ => _ end] => fail
      | _ => destruct x; simpl
      end
  end; discriminate.

Lemma getNextByte_no_timeout s : getNextByte s <> Timeout.
Proof.
  unfold getNextByte, addPos, modify, getPos, getLen, gets, byteAt, ret, bind.
  crunch_no_timeout. 
Qed.

Lemma skipBytes_no_timeout k s : skipBytes k s <> Timeout.
Proof.
  unfold skipBytes, addPos, modify, getPos, getLen, gets, ret, bind.
  crunch_no_timeout.
Qed.

Lemma hasPrefixToEnd_no_timeout p s : hasPrefixToEnd p s <> Timeout.
Proof.
  unfold hasPrefixToEnd, sliceToEnd, sliceData, readSpan, getPos, getLen,
    gets, ret, bind.
  crunch_no_timeout.
Qed.

Lemma setByte_no_timeout i v s : setByte i v s <> Timeout.
Proof. unfold setByte. crunch_no_timeout. Qed.

Lemma byteAt_no_timeout i s : byteAt i s <> Timeout.
Proof. unfold byteAt. crunch_no_timeout. Qed.

Lemma bind_no_timeout {A B} (m : M A) (k : A -> M B) s :
  m s <> Timeout -> (forall a s1, k a s1 <> Timeout) -> bind m k s <> Timeout.
Proof.
  intros Hm Hk H. apply bind_Timeout in H as [H | (a & s1 & _ & H)].
  - exact (Hm H).
  - exact (Hk _ _ H).
Qed.

Ltac no_timeout :=
  repeat match goal with
  | |- bind _ _ _ <> Timeout => apply bind_no_timeout; [|intros ? ?]
  | |- getNextByte _ <> Timeout => apply getNextByte_no_timeout
  | |- skipBytes _ _ <> Timeout => apply skipBytes_no_timeout
  | |- hasPrefixToEnd _ _ <> Timeout => apply hasPrefixToEnd_no_timeout
  | |- setByte _ _ _ <> Timeout => apply setByte_no_timeout
  | |- byteAt _ _ <> Timeout => apply byteAt_no_timeout
  | |- andThen ?a _ _ <> Timeout => destruct a; simpl
  | |- (if ?b then _ else _) _ <> Timeout => destruct b
  | |- ret _ _ <> Timeout => discriminate
  | |- crash _ _ <> Timeout => discriminate
  | |- addPos _ _ <> Timeout => discriminate
  | |- getPos _ <> Timeout => discriminate
  | |- _ <> Timeout => discriminate
  end.

Lemma expandTurn_no_timeout c trail s : expandTurn c trail s <> Timeout.
Proof. unfold expandTurn, expandRef. no_timeout. Qed.

Lemma expandLoop_eq fuel stopPred c trail :
  expandLoop fuel stopPred c trail =
  if isSet stopPred c then
    match fuel with
    | O => timeout
    | S f =>
        t <- expandTurn c trail ;;
        match t with
        | ReturnNil => ret None
        | Next c' trail' => expandLoop f stopPred c' trail'
        end
    end
  else ret (Some trail).
Proof. destruct fuel; reflexivity. Qed.

Lemma expandLoop_no_timeout stopPred fuel : forall c trail s,
  trail <= pos s -> pos s <= len s - 1 ->
  len s - pos s <= Z.of_nat fuel ->
  expandLoop fuel stopPred c trail s <> Timeout.
Proof.
  induction fuel as [|f IH]; intros c t s Ht Hp Hf; [lia|].
  rewrite expandLoop_eq. destruct (isSet stopPred c); [|discriminate].
  intros H. apply bind_Timeout in H as [H | (tn & s1 & Hturn & H)].
  - exact (expandTurn_no_timeout _ _ _ H).
  - apply expandTurn_step in Hturn; [|exact Ht].
    destruct tn as [c' t'|]; [|discriminate].
    revert H. apply IH; lia.
Qed.

Lemma expandLoop_behind stopPred fuel : forall c trail s t' s',
  expandLoop fuel stopPred c trail s = Done (Some t', s') ->
  trail <= pos s ->
  t' <= pos s' /\ pos s <= pos s'.
Proof.
  induction fuel as [|f IH]; intros c t s t' s' H Ht;
    rewrite expandLoop_eq in H; destruct (isSet stopPred c).
  - discriminate.
  - injection H as <- <-. lia.
  - step_inv H as tn s1 Hturn. apply expandTurn_step in Hturn; [|exact Ht].
    destruct tn as [c1 t1|]; [|discriminate].
    apply IH in H; lia.
  - injection H as <- <-. lia.
Qed.

Lemma skipLoop_eq fuel table :
  skipLoop fuel table =
  (p <- getPos ;; n <- getLen ;;
   if p <? n then
     c <- byteAt p ;;
     if negb (isSet table c) then ret tt
     else match fuel with
          | O => timeout
          | S f => addPos 1 ;;; skipLoop f table
          end
   else addPos (-1)).
Proof. destruct fuel; reflexivity. Qed.

Lemma skipLoop_no_timeout table fuel : forall s,
  len s - pos s <= Z.of_nat fuel -> skipLoop fuel table s <> Timeout.
Proof.
  induction fuel as [|f IH]; intros s Hf; rewrite skipLoop_eq;
    unfold getPos, getLen, gets, bind at 1 2;
    destruct (pos s <? len s) eqn:E; try discriminate; try lia.
  unfold byteAt, bind at 1. destruct (index _ _); [|discriminate].
  destruct (negb _); [discriminate|].
  unfold addPos, modify, bind. apply IH.
  rewrite pos_setPosition, len_setPosition. lia.
Qed.

Lemma skip_no_timeout table s : 0 <= pos s -> skip table s <> Timeout.
Proof.
  intros H. unfold skip. apply skipLoop_no_timeout. unfold len. lia.
Qed.

Lemma getCurrentByte_in_range s c s' :
  getCurrentByte s = Done (c, s') -> 0 <= pos s <= len s - 1.
Proof.
  unfold getCurrentByte, getPos, gets, byteAt, bind, index.
  destruct (pos s <? 0) eqn:E; [discriminate|].
  destruct (buf s !! Z.to_nat (pos s)) eqn:L; [|discriminate].
  intros _. apply lookup_lt_Some in L. unfold len. lia.
Qed.

(** C1: in a call of [skipAndExpandCharacterRefs] that gets to its loop, at
    every turn the write cursor [trail] is at most the read position, also
    between the two statements of the turn; the buffer changes during a
    turn at index [trail] only; the call does not run out of its step
    budget; and the slice it returns starts where the scan started, ends
    at or before the final read position, and so is no longer than the raw
    region scanned. *)
Theorem C1_trail_never_passes_read
    (stopPred stopPredPure : list nat) (s s1 : State) (c0 : byte) :
  skip stopPredPure s = Done (tt, s1) ->
  getCurrentByte s1 = Done (c0, s1) ->
  (forall c trail s2,
     expandReach stopPred (c0, pos s1, s1) (c, trail, s2) ->
     trail <= pos s2 /\
     (forall ct s3, expandRef c trail s2 = Done (ct, s3) ->
        snd ct <= pos s3 /\
        forall i : nat, i <> Z.to_nat trail -> buf s3 !! i = buf s2 !! i) /\
     (forall tn s3, expandTurn c trail s2 = Done (tn, s3) ->
        forall i : nat, i <> Z.to_nat trail -> buf s3 !! i = buf s2 !! i)) /\
  skipAndExpandCharacterRefs stopPred stopPredPure s <> Timeout /\
  (forall sp s',
     skipAndExpandCharacterRefs stopPred stopPredPure s = Done (Some sp, s') ->
     lo sp = pos s /\ hi sp <= pos s' /\
     sliceLen (Some sp) <= pos s' - pos s).
Proof.
  intros Hskip Hcur.
  pose proof (getCurrentByte_in_range _ _ _ Hcur) as Hrange.
  assert (Hcall : skipAndExpandCharacterRefs stopPred stopPredPure s =
                  (res <- expandLoop (length (buf s1)) stopPred c0 (pos s1) ;;
                   match res with
                   | None => ret None
                   | Some trail' =>
                       sp <- sliceData (pos s) trail' ;; ret (Some sp)
                   end) s1).
  { unfold skipAndExpandCharacterRefs.
    unfold bind at 1, getPos at 1, gets at 1.
    unfold bind at 1. rewrite Hskip.
    unfold bind at 1, getPos at 1, gets at 1.
    unfold bind at 1. rewrite Hcur.
    unfold bind at 1, gets at 1. reflexivity. }
  split; [|split].
  - intros c trail s2 Hreach.
    assert (Hinv : trail <= pos s2).
    { apply (expandReach_behind _ _ _ Hreach). simpl. lia. }
    split; [exact Hinv|]. split.
    + intros [c' t'] s3 Href.
      apply expandRef_step in Href as [[_ _ _ _ Hw] Ht]; [|exact Hinv].
      split; [exact Ht | exact Hw].
    + intros tn s3 Hturn.
      apply expandTurn_step in Hturn as (_ & _ & Hw & _); [exact Hw | exact Hinv].
  - rewrite Hcall. apply bind_no_timeout.
    + apply expandLoop_no_timeout; unfold len in *; lia.
    + intros [t|] s2; [|discriminate].
      apply bind_no_timeout; [|discriminate].
      unfold sliceData. destruct (_ && _); discriminate.
  - intros sp s' H. rewrite Hcall in H.
    step_inv H as res s2 Hloop. destruct res as [t|]; [|discriminate].
    apply expandLoop_behind in Hloop as [Ht Hp]; [|lia].
    step_inv H as sp' s3 H1. injection H as <- <-.
    unfold sliceData in H1. destruct (_ && _) eqn:E; [|discriminate].
    injection H1 as <- <-. simpl. lia.
Qed.

Lemma C1_witness :
  let s := bufferState "a&lt;b&amp;c<" in
  let s1 := onR (setPosition 1) s in
  (skip lookupTextPureNoWS s = Done (tt, s1) /\
   getCurrentByte s1 = Done ("&"%byte, s1)) /\
  skipAndExpandCharacterRefs lookupText lookupTextPureNoWS s <> Timeout /\
  (forall sp s',
     skipAndExpandCharacterRefs lookupText lookupTextPureNoWS s
       = Done (Some sp, s') ->
     lo sp = pos s /\ hi sp <= pos s' /\
     sliceLen (Some sp) <= pos s' - pos s).
Proof.
  intros s s1.
  assert (H1 : skip lookupTextPureNoWS s = Done (tt, s1))
    by (vm_compute; reflexivity).
  assert (H2 : getCurrentByte s1 = Done ("&"%byte, s1))
    by (vm_compute; reflexivity).
  split; [auto|].
  exact (proj2 (C1_trail_never_passes_read lookupText lookupTextPureNoWS
                  s s1 "&"%byte H1 H2)).
Defined.

(** ** Traversals *)

Lemma preorders_cons t ts : preorders (t :: ts) = preorder t ++ preorders ts.
Proof. reflexivity. Qed.

Lemma trav_S fuel h g :
  trav (S fuel) h g =
  obind (load h g) (fun gn =>
  obind (travFrom fuel h (firstChild gn)) (fun below =>
  obind (travFrom fuel h (next gn)) (fun after =>
  Done (g :: below ++ after)))).
Proof. reflexivity. Qed.

Lemma forest_travFrom h p ts :
  forest h p ts ->
  forall fuel, (length (preorders ts) <= fuel)%nat ->
  travFrom fuel h p = Done (Some <$> preorders ts).
Proof.
  induction 1 as [|a n ks sibs Ha _ IHk _ IHs]; intros fuel Hf.
  - reflexivity.
  - rewrite preorders_cons in *. simpl in Hf. rewrite length_app in Hf.
    destruct fuel as [|f]; [lia|].
    unfold travFrom. simpl isNil. cbv iota. rewrite trav_S.
    simpl load. rewrite Ha. simpl obind.
    rewrite IHk by (fold (preorders ks) in Hf; lia).
    simpl obind. rewrite IHs by lia. simpl.
    unfold preorders. rewrite fmap_app. reflexivity.
Qed.

Lemma forest_inj h p ts : forest h p ts -> forall ts', forest h p ts' -> ts = ts'.
Proof.
  induction 1 as [|a n ks sibs Ha _ IHk _ IHs]; intros ts' H'; inversion H'; subst.
  - reflexivity.
  - assert (n0 = n) by congruence. subst n0.
    f_equal; [f_equal|]; auto.
Qed.

Lemma forest_drop h p ts :
  forest h p ts ->
  forall i t, ts !! i = Some t -> forest h (Some (root t)) (drop i ts).
Proof.
  induction 1 as [|a n ks sibs Ha Hk _ Hs IHs]; intros i t Hi.
  - destruct i; discriminate.
  - destruct i as [|i]; simpl in Hi.
    + injection Hi as <-. simpl. econstructor; eauto.
    + simpl. eauto.
Qed.

(** In a chain that ends at [nil], the last node occurs once. *)
Lemma forest_last_once h a ks sibs :
  forest h (Some a) (T a ks :: sibs) ->
  last (root <$> T a ks :: sibs) = Some a ->
  sibs = [].
Proof.
  intros Hf Hl. destruct sibs as [|t sibs]; [reflexivity|exfalso].
  set (ts := T a ks :: t :: sibs) in *.
  destruct (last ts) as [tl|] eqn:El.
  2:{ apply last_None in El. discriminate. }
  rewrite fmap_last, El in Hl. simpl in Hl. injection Hl as Hroot.
  rewrite last_lookup in El.
  pose proof (forest_drop _ _ _ Hf _ _ El) as Hd.
  rewrite Hroot in Hd.
  pose proof (forest_inj _ _ _ Hf _ Hd) as E.
  apply (f_equal length) in E. rewrite length_drop in E.
  subst ts. simpl in E. lia.
Qed.

Lemma closeLoop_eq fuel h g n :
  closeLoop fuel h g n =
  obind (load h g) (fun gn =>
  if ptrEq n (lastChild gn) then Done [n]
  else match fuel with
       | O => Timeout
       | S f =>
           obind (load h n) (fun nn =>
           obind (closeLoop f h g (next nn)) (fun rest =>
           Done (n :: rest)))
       end).
Proof. destruct fuel; reflexivity. Qed.

Lemma closeLoop_forest h g gn :
  h !! g = Some gn ->
  forall ts p, forest h p ts -> ts <> [] ->
  lastChild gn = last (root <$> ts) ->
  forall fuel, (length ts <= fuel)%nat ->
  closeLoop fuel h (Some g) p = Done (Some <$> (root <$> ts)).
Proof.
  intros Hg ts p Hf. induction Hf as [|a n ks sibs Ha Hk _ Hs IHs];
    intros Hne Hl fuel Hfuel; [congruence|].
  rewrite closeLoop_eq. simpl load. rewrite Hg. simpl obind.
  unfold ptrEq. case_bool_decide as E.
  - rewrite <- E in Hl. symmetry in Hl.
    apply (forest_last_once h) in Hl; [|econstructor; eauto].
    subst sibs. reflexivity.
  - destruct sibs as [|t sibs].
    { exfalso. apply E. rewrite Hl. reflexivity. }
    simpl in Hfuel. destruct fuel as [|f]; [lia|].
    rewrite Ha. simpl obind.
    rewrite IHs; [reflexivity | discriminate | | simpl; lia].
    rewrite Hl. reflexivity.
Qed.

Lemma forest_None_inv h ts : forest h None ts -> ts = [].
Proof. inversion 1; reflexivity. Qed.

(** C3: when the sibling chain from [g] is a finite forest [ts] in the
    store, [SendChildElements] on [g] sends [g], then what it sends on
    [g]'s first child when there is one, then what it sends on [g]'s next
    sibling when there is one; and for a node without next sibling, such as
    the Document root, the n-th pointer sent is the n-th node of the
    textbook pre-order of the tree. *)
Theorem C3_SendChildElements_is_preorder
    (h : list GenericNode) (g : addr) (gn : GenericNode) (ts : list tree) :
  h !! g = Some gn ->
  forest h (Some g) ts ->
  forall fuel, (length (preorders ts) <= fuel)%nat ->
  exists below after,
    SendChildElements fuel h (Some g) = Done (Some g :: below ++ after) /\
    (if isNil (firstChild gn) then below = []
     else SendChildElements fuel h (firstChild gn) = Done below) /\
    (if isNil (next gn) then after = []
     else SendChildElements fuel h (next gn) = Done after) /\
    (next gn = None ->
     exists t, ts = [t] /\
       forall n, (Some g :: below ++ after) !! n = (Some <$> preorder t) !! n).
Proof.
  intros Hg Hf fuel Hfuel.
  pose proof (forest_travFrom _ _ _ Hf _ Hfuel) as Hall.
  inversion Hf as [|a n ks sibs Ha Hk Hs]; subst.
  assert (n = gn) by congruence. subst n. clear Ha.
  rewrite preorders_cons in Hfuel. simpl in Hfuel.
  rewrite length_app in Hfuel. fold (preorders ks) in Hfuel.
  exists (Some <$> preorders ks), (Some <$> preorders sibs).
  split; [|split; [|split]].
  - unfold SendChildElements. simpl isNil. cbv iota.
    unfold travFrom in Hall. simpl isNil in Hall. rewrite Hall.
    rewrite preorders_cons. simpl. rewrite fmap_app. reflexivity.
  - pose proof (forest_travFrom _ _ _ Hk fuel ltac:(lia)) as Hbelow.
    unfold travFrom in Hbelow. unfold SendChildElements.
    destruct (isNil (firstChild gn)) eqn:E; [|exact Hbelow].
    destruct (firstChild gn); [discriminate|].
    apply forest_None_inv in Hk. subst ks. reflexivity.
  - pose proof (forest_travFrom _ _ _ Hs fuel ltac:(lia)) as Hafter.
    unfold travFrom in Hafter. unfold SendChildElements.
    destruct (isNil (next gn)) eqn:E; [|exact Hafter].
    destruct (next gn); [discriminate|].
    apply forest_None_inv in Hs. subst sibs. reflexivity.
  - intros Hroot. rewrite Hroot in Hs. apply forest_None_inv in Hs. subst sibs.
    exists (T g ks). split; [reflexivity|]. intros i.
    simpl. rewrite app_nil_r. reflexivity.
Qed.

Lemma C3_witness :
  let h := parsedStore "<r><a>1</a><b/></r>" in
  forest h (Some 0%nat)
    [T 0%nat [T 1%nat [T 2%nat [T 3%nat []]; T 4%nat []]]] /\
  exists below after,
    SendChildElements 5 h (Some 0%nat) = Done (Some 0%nat :: below ++ after) /\
    Some 0%nat :: below ++ after = [Some 0; Some 1; Some 2; Some 3; Some 4]%nat.
Proof.
  intros h.
  assert (Hf : forest h (Some 0%nat)
                 [T 0%nat [T 1%nat [T 2%nat [T 3%nat []]; T 4%nat []]]]).
  { repeat (eapply forest_cons; [vm_compute; reflexivity| |]);
      vm_compute; apply forest_nil. }
  split; [exact Hf|].
  destruct (h !! 0%nat) as [gn|] eqn:Hg; [|vm_compute in Hg; discriminate].
  destruct (C3_SendChildElements_is_preorder h 0%nat gn _ Hg Hf 5%nat
              ltac:(vm_compute; lia))
    as (below & after & Hsend & _).
  exists below, after. split; [exact Hsend|].
  assert (E : SendChildElements 5 h (Some 0%nat) =
              Done [Some 0; Some 1; Some 2; Some 3; Some 4]%nat)
    by (vm_compute; reflexivity).
  pose proof (eq_trans (eq_sym Hsend) E) as Heq.
  injection Heq as Heq. f_equal. exact Heq.
Defined.

(** C5: [CountChildren] ranges over [SendChildElements], not over the
    children: it returns the number of pointers that [SendChildElements]
    sends, that is the number of nodes of the subtree pre-order sequence
    from the node, which holds the node itself, its descendants and, when
    it has following siblings, those and their descendants; for a node
    without next sibling that is one more than the number of its
    descendants.  The comment of the function says that it returns the
    number of child nodes of the current node. *)
Theorem C5_CountChildren_counts_the_subtree_sequence
    (h : list GenericNode) (g : addr) (gn : GenericNode) (ts : list tree) :
  h !! g = Some gn ->
  forest h (Some g) ts ->
  forall fuel, (length (preorders ts) <= fuel)%nat ->
  (exists l, SendChildElements fuel h (Some g) = Done l /\
             CountChildren fuel h (Some g) = Done (Z.of_nat (length l))) /\
  CountChildren fuel h (Some g) = Done (Z.of_nat (length (preorders ts))) /\
  (next gn = None ->
   forall ks, forest h (firstChild gn) ks ->
     CountChildren fuel h (Some g) =
     Done (1 + Z.of_nat (length (preorders ks)))).
Proof.
  intros Hg Hf fuel Hfuel.
  pose proof (forest_travFrom _ _ _ Hf _ Hfuel) as Hall.
  unfold travFrom in Hall. simpl isNil in Hall. cbv iota in Hall.
  assert (Hc : CountChildren fuel h (Some g) =
               Done (Z.of_nat (length (preorders ts)))).
  { unfold CountChildren, SendChildElements. simpl isNil. cbv iota.
    rewrite Hall. simpl. rewrite length_fmap. reflexivity. }
  split; [|split].
  - exists (Some <$> preorders ts). split.
    + unfold SendChildElements. exact Hall.
    + rewrite Hc, length_fmap. reflexivity.
  - exact Hc.
  - intros Hroot ks Hk. rewrite Hc.
    inversion Hf as [|a n ks' sibs Ha Hk' Hs]; subst.
    assert (n = gn) by congruence. subst n.
    rewrite Hroot in Hs. apply forest_None_inv in Hs. subst sibs.
    rewrite (forest_inj _ _ _ Hk _ Hk').
    rewrite preorders_cons. simpl. rewrite app_nil_r.
    fold (preorders ks'). f_equal. lia.
Qed.

Lemma C5_witness :
  let h := parsedStore "<a><b/></a>" in
  forest h (Some 0%nat) [T 0%nat [T 1%nat [T 2%nat []]]] /\
  CountChildren 3 h (Some 0%nat) = Done 3.
Proof.
  intros h.
  assert (Hf : forest h (Some 0%nat) [T 0%nat [T 1%nat [T 2%nat []]]]).
  { repeat (eapply forest_cons; [vm_compute; reflexivity| |]);
      vm_compute; apply forest_nil. }
  split; [exact Hf|].
  destruct (h !! 0%nat) as [gn|] eqn:Hg; [|vm_compute in Hg; discriminate].
  exact (proj1 (proj2 (C5_CountChildren_counts_the_subtree_sequence
                         h 0%nat gn _ Hg Hf 3%nat ltac:(vm_compute; lia)))).
Defined.

(** The number of children is not what [CountChildren] returns: the
    Document of [<a><b/></a>] has one child and the count is 3; and in
    [<r><a/><b/><c/></r>] the element [a] has no child, two following
    siblings, and the count is 3. *)
Lemma C5_counterexample :
  ~ (forall (h : list GenericNode) (g : addr) (gn : GenericNode)
            (ks : list tree) (fuel : nat) (n : Z),
       h !! g = Some gn ->
       forest h (firstChild gn) ks ->
       CountChildren fuel h (Some g) = Done n ->
       n = Z.of_nat (length ks)) /\
  (let h := parsedStore "<r><a/><b/><c/></r>" in
   firstChild <$> h !! 2%nat = Some None /\
   next <$> h !! 2%nat = Some (Some 3%nat) /\
   next <$> h !! 3%nat = Some (Some 4%nat) /\
   next <$> h !! 4%nat = Some None /\
   CountChildren 3 h (Some 2%nat) = Done 3).
Proof.
  split; [|vm_compute; repeat split].
  intros H.
  set (h := parsedStore "<a><b/></a>").
  destruct (h !! 0%nat) as [gn|] eqn:Hg; [|vm_compute in Hg; discriminate].
  specialize (H h 0%nat gn [T 1%nat [T 2%nat []]] 3%nat 3 Hg).
  assert (Hfc : firstChild gn = Some 1%nat).
  { vm_compute in Hg. injection Hg as <-. reflexivity. }
  rewrite Hfc in H.
  assert (3 = Z.of_nat (length [T 1%nat [T 2%nat []]])) as E.
  { apply H.
    - repeat (eapply forest_cons; [vm_compute; reflexivity| |]);
        vm_compute; apply forest_nil.
    - vm_compute. reflexivity. }
  simpl in E. lia.
Qed.

(** C6: for a node whose child chain from [firstChild] ends at [nil] and
    whose [lastChild] is the last node of that chain, [SendCloseChildren]
    sends exactly the children, first to last, and nothing below them; it
    sends nothing for a node without children. *)
Theorem C6_SendCloseChildren_yields_the_children
    (h : list GenericNode) (g : addr) (gn : GenericNode) (ts : list tree) :
  h !! g = Some gn ->
  forest h (firstChild gn) ts ->
  lastChild gn = last (root <$> ts) ->
  forall fuel, (length ts <= fuel)%nat ->
  SendCloseChildren fuel h (Some g) = Done (Some <$> (root <$> ts)) /\
  (firstChild gn = None -> SendCloseChildren fuel h (Some g) = Done []).
Proof.
  intros Hg Hf Hl fuel Hfuel.
  assert (Hmain : SendCloseChildren fuel h (Some g) =
                  Done (Some <$> (root <$> ts))).
  { unfold SendCloseChildren. simpl load. rewrite Hg. simpl obind.
    destruct (firstChild gn) as [c|] eqn:Hc; simpl isNil; cbv iota.
    - apply (closeLoop_forest h g gn Hg ts (Some c) Hf); auto.
      inversion Hf. discriminate.
    - apply forest_None_inv in Hf. subst ts. reflexivity. }
  split; [exact Hmain|].
  intros Hnone. rewrite Hnone in Hf. apply forest_None_inv in Hf.
  subst ts. exact Hmain.
Qed.

Lemma C6_witness :
  let h := parsedStore "<r><a>1</a><b/></r>" in
  forest h (Some 2%nat) [T 2%nat [T 3%nat []]; T 4%nat []] /\
  SendCloseChildren 2 h (Some 1%nat) = Done [Some 2%nat; Some 4%nat].
Proof.
  intros h.
  assert (Hf : forest h (Some 2%nat) [T 2%nat [T 3%nat []]; T 4%nat []]).
  { repeat (eapply forest_cons; [vm_compute; reflexivity| |]);
      vm_compute; apply forest_nil. }
  split; [exact Hf|].
  destruct (h !! 1%nat) as [gn|] eqn:Hg; [|vm_compute in Hg; discriminate].
  assert (Hfc : firstChild gn = Some 2%nat /\ lastChild gn = Some 4%nat).
  { vm_compute in Hg. injection Hg as <-. split; reflexivity. }
  destruct Hfc as [Hfc Hlc]. rewrite <- Hfc in Hf.
  exact (proj1 (C6_SendCloseChildren_yields_the_children
                  h 1%nat gn _ Hg Hf Hlc 2%nat ltac:(vm_compute; lia))).
Defined.

(** The older copy sends one [nil] pointer for a node without children. *)
Lemma SendCloseChildrenOld_childless
    (h : list GenericNode) (g : nat) (gn : GenericNode) (fuel : nat) :
  h !! g = Some gn -> firstChild gn = None -> lastChild gn = None ->
  SendCloseChildrenOld fuel h (Some g) = Done [None].
Proof.
  intros Hg Hf Hl. unfold SendCloseChildrenOld, load. rewrite Hg. simpl.
  rewrite closeLoop_eq. unfold load. rewrite Hg. simpl.
  rewrite Hf, Hl. reflexivity.
Qed.

(** ** The engine on concrete inputs *)

(** C2 (code defect): on the text of the specification the decoder leaves
    [a&b<c>d&e\f]: the stale byte is kept where [&quot;] stood, no
    double quote is written.  [&quot;] first in a run leaves [&], and an
    [&amp;] that follows an earlier reference leaves the stale byte too.
    The same holds end to end through [Parse]. *)
Theorem C2_quot_and_lagging_amp_are_not_rewritten :
  decoded lookupText lookupTextPureNoWS "a&amp;b&lt;c&gt;d&quot;e&apos;f<"
    = Some (bytes "a&b<c>d&e\f") /\
  decoded lookupText lookupTextPureNoWS "&quot;<" = Some (bytes "&") /\
  decoded lookupText lookupTextPureNoWS "a&lt;b&amp;c<" = Some (bytes "a<btc") /\
  decoded lookupAttributeDataSQ lookupAttributeDataSQPure "x&quot;y'"
    = Some (bytes "x&y") /\
  (forall (decodeUTF16 : list byte -> option (list byte)) (fuel : nat),
   exists s r n,
     Parse decodeUTF16 (8 + fuel)
       (bytes "<r>a&amp;b&lt;c&gt;d&quot;e&apos;f</r>")
       (initState NewDefaultRunXML) = Done ((Some 0%nat, None), s) /\
     nodeAt s (Some 1%nat) = Some r /\
     nodeAt s (firstChild r) = Some n /\ nodeType n = Data /\
     valueOf s n = bytes "a&b<c>d&e\f").
Proof.
  do 4 (split; [vm_compute; reflexivity|]).
  intros d fuel.
  set (o := Parse d (8 + fuel) _ _). vm_compute in o. subst o.
  eexists _, _, _. split; [reflexivity|].
  do 3 (split; [vm_compute; reflexivity|]). vm_compute; reflexivity.
Qed.

(** C4 (code defect): parsing [<a>x<b/>y</a>] succeeds; the children of
    [a] are Data [x], Element [b], Data [y], and the [Value] of [a] is [y],
    the text of its last data run, not of its first. *)
Theorem C4_Value_holds_the_last_data_run
    (decodeUTF16 : list byte -> option (list byte)) (fuel : nat) :
  exists s a x b y,
    Parse decodeUTF16 (8 + fuel) (bytes "<a>x<b/>y</a>")
      (initState NewDefaultRunXML) = Done ((Some 0%nat, None), s) /\
    nodeAt s (Some 1%nat) = Some a /\ nodeType a = Element /\
    nameOf s a = bytes "a" /\
    nodeAt s (firstChild a) = Some x /\ nodeType x = Data /\
    valueOf s x = bytes "x" /\
    nodeAt s (next x) = Some b /\ nodeType b = Element /\
    nodeAt s (next b) = Some y /\ nodeType y = Data /\
    valueOf s y = bytes "y" /\ next y = None /\
    valueOf s a = bytes "y".
Proof.
  set (o := Parse _ _ _ _). vm_compute in o. subst o.
  eexists _, _, _, _, _. split; [reflexivity|].
  do 12 (split; [vm_compute; reflexivity|]). vm_compute; reflexivity.
Qed.

(** ** Attribute chain operations *)

Lemma updAttr_Done p f s x s' :
  updAttr p f s = Done (x, s') ->
  exists b n, p = Some b /\ attrs s !! b = Some n /\
              s' = setAttrs (<[b := f n]> (attrs s)) s.
Proof.
  unfold updAttr. destruct p as [b|]; [|discriminate].
  destruct (attrs s !! b) as [n|] eqn:E; [|discriminate].
  intros [= <- <-]. eauto.
Qed.

Lemma updNode_Done p f s x s' :
  updNode p f s = Done (x, s') ->
  exists b n, p = Some b /\ nodes s !! b = Some n /\
              s' = setNodes (<[b := f n]> (nodes s)) s.
Proof.
  unfold updNode. destruct p as [b|]; [|discriminate].
  destruct (nodes s !! b) as [n|] eqn:E; [|discriminate].
  intros [= <- <-]. eauto.
Qed.

Lemma loadNode_Done p s n s' :
  loadNode p s = Done (n, s') -> s' = s /\ nodeAt s p = Some n.
Proof.
  unfold loadNode, nodeAt. destruct p as [b|]; [|discriminate].
  destruct (nodes s !! b); [|discriminate]. intros [= <- <-]. auto.
Qed.

Lemma updNode_attrParentIs a q p f s x s' :
  updNode p f s = Done (x, s') -> attrParentIs a q s -> attrParentIs a q s'.
Proof.
  intros H. apply updNode_Done in H as (b & n & _ & _ & ->). exact id.
Qed.

Lemma updAttr_link_attrParentIs a q p f s x s' :
  (forall n, abase (f n) = abase n) ->
  updAttr p f s = Done (x, s') -> attrParentIs a q s -> attrParentIs a q s'.
Proof.
  intros Hf H (an & Ha & Hq).
  apply updAttr_Done in H as (b & n & _ & Hb & ->).
  unfold attrParentIs. simpl.
  destruct (decide (b = a)) as [->|Hne].
  - exists (f n). rewrite list_lookup_insert_eq by (eapply lookup_lt_Some; eauto).
    split; [reflexivity|]. rewrite Hf. congruence.
  - exists an. rewrite list_lookup_insert_ne by exact Hne. auto.
Qed.

(** C7 (code defect): [PrependAttribute] leaves [a.Parent] as it was and
    sets [g.Parent] to [g] itself. *)
Theorem C7_PrependAttribute_does_not_set_Parent
    (s s' : State) (g a : addr) (an : AttributeNode) :
  attrs s !! a = Some an ->
  PrependAttribute (Some g) (Some a) s = Done (tt, s') ->
  (exists an', attrs s' !! a = Some an' /\
               Parent (abase an') = Parent (abase an)) /\
  (exists gn', nodes s' !! g = Some gn' /\ Parent (gbase gn') = Some g).
Proof.
  intros Ha H. unfold PrependAttribute in H.
  assert (P0 : attrParentIs a (Parent (abase an)) s) by (exists an; auto).
  step_inv H as gn s1 H1. apply loadNode_Done in H1 as [-> _].
  step_inv H as u1 s2 H2.
  assert (P2 : attrParentIs a (Parent (abase an)) s2).
  { destruct (isNil (firstAttribute gn)).
    - eapply updNode_attrParentIs; eauto.
    - step_inv H2 as u s3 H3. step_inv H2 as gn2 s4 H4.
      apply loadNode_Done in H4 as [-> _].
      eapply (updAttr_link_attrParentIs a _ _ (setAttrNext _) _ _ _
                (fun _ => eq_refl) H2).
      eapply (updAttr_link_attrParentIs a _ _ (setAttrPrev _) _ _ _
                (fun _ => eq_refl) H3).
      exact P0. }
  step_inv H as u2 s3 H3.
  pose proof (updNode_attrParentIs _ _ _ _ _ _ _ H3 P2) as P3.
  pose proof (updNode_attrParentIs _ _ _ _ _ _ _ H P3) as P4.
  split; [exact P4|].
  apply updNode_Done in H as (b & n & [= <-] & Hn & ->). simpl.
  exists (onBase (setParent (Some g)) n).
  rewrite list_lookup_insert_eq by (eapply lookup_lt_Some; eauto).
  split; reflexivity.
Qed.

Lemma C7_witness :
  attrs freshPair !! 0%nat = Some zeroAttr /\
  exists s',
    PrependAttribute (Some 0%nat) (Some 0%nat) freshPair = Done (tt, s') /\
    (exists an', attrs s' !! 0%nat = Some an' /\ Parent (abase an') = None) /\
    (exists gn', nodes s' !! 0%nat = Some gn' /\
                 Parent (gbase gn') = Some 0%nat).
Proof.
  split; [vm_compute; reflexivity|].
  destruct (PrependAttribute (Some 0%nat) (Some 0%nat) freshPair)
    as [[[] s']| |] eqn:E; [|vm_compute in E; discriminate ..].
  exists s'. split; [reflexivity|].
  exact (C7_PrependAttribute_does_not_set_Parent freshPair s' 0%nat 0%nat
           zeroAttr ltac:(vm_compute; reflexivity) E).
Defined.

(** The sibling operation does set the back-reference. *)
Lemma AppendAttribute_sets_Parent (s s' : State) (g a : addr) :
  AppendAttribute (Some g) (Some a) s = Done (tt, s') ->
  exists an', attrs s' !! a = Some an' /\ Parent (abase an') = Some g.
Proof.
  intros H. unfold AppendAttribute in H.
  step_inv H as gn s1 H1. step_inv H as u1 s2 H2. step_inv H as u2 s3 H3.
  apply updAttr_Done in H as (b & n & [= <-] & Hn & ->). simpl.
  exists (onAttrBase (setParent (Some g)) n).
  rewrite list_lookup_insert_eq by (eapply lookup_lt_Some; eauto).
  split; reflexivity.
Qed.

(** ** The top-level loop *)

Lemma parseLoop_S fuel doc :
  parseLoop (S fuel) doc =
  (p <- getPos ;; n <- getLen ;;
   if p <? n then
     skip lookupWhitespace ;;;
     p <- getPos ;; n <- getLen ;;
     if p =? n - 1 then ret (doc, None)
     else
       c <- getCurrentByte ;;
       if Byte.eqb c "<" then
         addPos 1 ;;;
         res <- parseNode fuel ;;
         match snd res with
         | Some e => ce <- contextError e ;; ret (fst res, Some ce)
         | None => AppendNode doc (fst res) ;;; parseLoop fuel doc
         end
       else
         p <- getPos ;; found <- byteAt p ;;
         ce <- contextError (ExpectedLt found) ;;
         ret (doc, Some ce)
   else ret (doc, None)).
Proof. reflexivity. Qed.

Lemma parseLoop_at_end fuel doc s :
  len s <= pos s -> parseLoop fuel doc s = Done ((doc, None), s).
Proof.
  intros H. destruct fuel; simpl; unfold bind, getPos, getLen, gets;
    destruct (pos s <? len s) eqn:E; try lia; reflexivity.
Qed.

Lemma contextError_inside v s c :
  getCurrentByte s = Done (c, s) ->
  contextError v s =
  Done (WithContext v (leftContext s) (Some c) (rightContext s), s).
Proof.
  intros Hc. pose proof (getCurrentByte_in_range _ _ _ Hc) as Hr.
  assert (Hb : byteAt (pos s) s = Done (c, s)) by exact Hc.
  assert (E1 : (0 <=? Z.max (pos s - 40) 0)
               && (Z.max (pos s - 40) 0 <=? Z.min (pos s) (len s))
               && (Z.min (pos s) (len s) <=? len s) = true) by lia.
  assert (E2 : (0 <=? Z.min (pos s + 1) (len s))
               && (Z.min (pos s + 1) (len s) <=? Z.min (pos s + 40) (len s))
               && (Z.min (pos s + 40) (len s) <=? len s) = true) by lia.
  assert (E3 : (pos s >? len s - 1) = false) by lia.
  unfold contextError, getCurrentByte, bind, getPos, getLen, sliceData,
    readSpan, ret, gets, contextSize.
  rewrite E1, E2, E3, Hb. reflexivity.
Qed.

(** C8: whenever a turn of the top-level loop of [Parse], after skipping
    whitespace, stands at a position that is not the last index of the
    buffer and the byte there is not [<], the loop returns the error
    [expected '<'] citing that byte, with its context; and [Parse] of
    [x<root></root>] returns that error citing [x].  On the last index the
    byte is not looked at: the guard [if r.position == len(r.data)-1], which
    is there because [skip] steps back to the last byte at the end of the
    input, ends the loop with a nil error whatever that byte is. *)
Theorem C8_top_level_byte_must_open_a_tag
    (decodeUTF16 : list byte -> option (list byte))
    (fuel : nat) (doc : ptr) (s s1 : State) (c : byte) :
  pos s < len s ->
  skip lookupWhitespace s = Done (tt, s1) ->
  pos s1 <> len s1 - 1 ->
  getCurrentByte s1 = Done (c, s1) ->
  c <> "<"%byte ->
  parseLoop (S fuel) doc s =
    Done ((doc, Some (WithContext (ExpectedLt c) (leftContext s1) (Some c)
                        (rightContext s1))), s1) /\
  (exists s0 root,
     parseStart decodeUTF16 (bytes "x<root></root>")
       (initState NewDefaultRunXML) = Done (root, s0) /\
     Parse decodeUTF16 (S fuel) (bytes "x<root></root>")
       (initState NewDefaultRunXML) =
     Done ((root, Some (WithContext (ExpectedLt "x") [] (Some "x"%byte)
                          (bytes "<root></root>"))), s0)) /\
  (forall t t1 : State,
     pos t < len t ->
     skip lookupWhitespace t = Done (tt, t1) ->
     pos t1 = len t1 - 1 ->
     parseLoop (S fuel) doc t = Done ((doc, None), t1)).
Proof.
  intros Hp Hskip Hlast Hcur Hc.
  assert (Hturn : forall doc s s1 c,
    pos s < len s ->
    skip lookupWhitespace s = Done (tt, s1) ->
    pos s1 <> len s1 - 1 ->
    getCurrentByte s1 = Done (c, s1) ->
    c <> "<"%byte ->
    parseLoop (S fuel) doc s =
    Done ((doc, Some (WithContext (ExpectedLt c) (leftContext s1) (Some c)
                        (rightContext s1))), s1)).
  { clear. intros doc s s1 c Hp Hskip Hlast Hcur Hc.
    rewrite parseLoop_S.
    unfold bind at 1, getPos at 1, gets at 1.
    unfold bind at 1, getLen at 1, gets at 1.
    destruct (pos s <? len s) eqn:E; [|lia].
    unfold bind at 1. rewrite Hskip.
    unfold bind at 1, getPos at 1, gets at 1.
    unfold bind at 1, getLen at 1, gets at 1.
    destruct (pos s1 =? len s1 - 1) eqn:E1; [lia|].
    unfold bind at 1. rewrite Hcur.
    destruct (Byte.eqb c "<") eqn:E2.
    { exfalso. apply Hc. apply Byte.byte_dec_bl. exact E2. }
    unfold bind at 1, getPos at 1, gets at 1.
    assert (Hb : byteAt (pos s1) s1 = Done (c, s1)).
    { unfold getCurrentByte, bind, getPos, gets in Hcur. exact Hcur. }
    unfold bind at 1. rewrite Hb.
    unfold bind at 1. rewrite (contextError_inside _ _ _ Hcur).
    reflexivity. }
  split; [apply Hturn; assumption|]. split.
  2:{ intros t t1 Ht Hsk Hl. rewrite parseLoop_S.
      unfold bind at 1, getPos at 1, gets at 1.
      unfold bind at 1, getLen at 1, gets at 1.
      destruct (pos t <? len t) eqn:E; [|lia].
      unfold bind at 1. rewrite Hsk.
      unfold bind at 1, getPos at 1, gets at 1.
      unfold bind at 1, getLen at 1, gets at 1.
      destruct (pos t1 =? len t1 - 1) eqn:E1; [reflexivity|lia]. }
  destruct (parseStart decodeUTF16 (bytes "x<root></root>")
              (initState NewDefaultRunXML)) as [[root s0]| |] eqn:E;
    [|vm_compute in E; discriminate ..].
  exists s0, root. split; [reflexivity|].
  unfold Parse, bind at 1. rewrite E.
  assert (F : root = Some 0%nat /\ pos s0 = 0 /\
              buf s0 = bytes "x<root></root>").
  { vm_compute in E. injection E as <- <-. repeat split. }
  destruct F as (-> & Hp0 & Hb0).
  assert (Hcur0 : getCurrentByte s0 = Done ("x"%byte, s0)).
  { unfold getCurrentByte, bind, getPos, gets, byteAt. rewrite Hp0, Hb0.
    reflexivity. }
  assert (Hlen0 : len s0 = 14) by (unfold len; rewrite Hb0; reflexivity).
  assert (Hskip0 : skip lookupWhitespace s0 = Done (tt, s0)).
  { unfold skip. rewrite skipLoop_eq.
    unfold bind at 1, getPos at 1, gets at 1.
    unfold bind at 1, getLen at 1, gets at 1.
    rewrite Hp0, Hlen0. change (0 <? 14) with true. cbv iota.
    assert (Hb : byteAt 0 s0 = Done ("x"%byte, s0)).
    { unfold byteAt. rewrite Hb0. reflexivity. }
    unfold bind at 1. rewrite Hb. reflexivity. }
  rewrite (Hturn (Some 0%nat) s0 s0 "x"%byte); try assumption; try lia;
    [|discriminate].
  unfold leftContext, rightContext. rewrite Hp0, Hlen0, Hb0. reflexivity.
Qed.


Lemma C8_witness :
  let s := bufferState " x<a/>" in
  let s1 := onR (setPosition 1) s in
  let t := bufferState " x" in
  let t1 := onR (setPosition 1) t in
  (pos s < len s /\
   skip lookupWhitespace s = Done (tt, s1) /\
   pos s1 <> len s1 - 1 /\
   getCurrentByte s1 = Done ("x"%byte, s1)) /\
  parseLoop 1 (Some 0%nat) s =
    Done ((Some 0%nat,
           Some (WithContext (ExpectedLt "x") (leftContext s1) (Some "x"%byte)
                   (rightContext s1))), s1) /\
  (pos t < len t /\
   skip lookupWhitespace t = Done (tt, t1) /\
   pos t1 = len t1 - 1 /\
   getCurrentByte t1 = Done ("x"%byte, t1)) /\
  parseLoop 1 (Some 0%nat) t = Done ((Some 0%nat, None), t1).
Proof.
  intros s s1 t t1.
  assert (H1 : pos s < len s) by (vm_compute; reflexivity).
  assert (H2 : skip lookupWhitespace s = Done (tt, s1))
    by (vm_compute; reflexivity).
  assert (H3 : pos s1 <> len s1 - 1) by (vm_compute; discriminate).
  assert (H4 : getCurrentByte s1 = Done ("x"%byte, s1))
    by (vm_compute; reflexivity).
  assert (T1 : pos t < len t) by (vm_compute; reflexivity).
  assert (T2 : skip lookupWhitespace t = Done (tt, t1))
    by (vm_compute; reflexivity).
  assert (T3 : pos t1 = len t1 - 1) by (vm_compute; reflexivity).
  assert (T4 : getCurrentByte t1 = Done ("x"%byte, t1))
    by (vm_compute; reflexivity).
  pose proof (C8_top_level_byte_must_open_a_tag rejectUTF16 0 (Some 0%nat)
                s s1 "x"%byte H1 H2 H3 H4 ltac:(discriminate)) as H.
  split; [auto|]. split; [exact (proj1 H)|]. split; [auto|].
  exact (proj2 (proj2 H) t t1 T1 T2 T3).
Defined.

(** A last byte that is not [<], or a [<] that opens nothing, is taken for
    the end of the input: [Parse] of [x], of [<a/>x] and of [<a/><] returns
    a nil error. *)
Lemma C8_counterexample :
  (exists s,
     Parse rejectUTF16 8 (bytes "x") (initState NewDefaultRunXML)
       = Done ((Some 0%nat, None), s) /\
     pos s = 0 /\ index (buf s) (pos s) = Some "x"%byte) /\
  (exists s,
     Parse rejectUTF16 8 (bytes "<a/>x") (initState NewDefaultRunXML)
       = Done ((Some 0%nat, None), s) /\
     pos s = 4 /\ index (buf s) (pos s) = Some "x"%byte) /\
  (exists s,
     Parse rejectUTF16 8 (bytes "<a/><") (initState NewDefaultRunXML)
       = Done ((Some 0%nat, None), s) /\
     pos s = 4 /\ index (buf s) (pos s) = Some "<"%byte).
Proof.
  split; [|split].
  - set (o := Parse _ _ _ _). vm_compute in o. subst o.
    eexists. split; [reflexivity|]. split; vm_compute; reflexivity.
  - set (o := Parse _ _ _ _). vm_compute in o. subst o.
    eexists. split; [reflexivity|]. split; vm_compute; reflexivity.
  - set (o := Parse _ _ _ _). vm_compute in o. subst o.
    eexists. split; [reflexivity|]. split; vm_compute; reflexivity.
Qed.

(** C9: [NewDefaultRunXML] switches validation on; with it [Parse] of
    [<a></b>] returns the error [unexpected closing tag] citing [b];
    without it the same input parses, the whole buffer is consumed and the
    Document has the single child [a]. *)
Theorem C9_closing_tag_validation
    (decodeUTF16 : list byte -> option (list byte)) (fuel : nat) :
  ValidateClosingTag NewDefaultRunXML = true /\
  (exists s,
     Parse decodeUTF16 (8 + fuel) (bytes "<a></b>")
       (initState NewDefaultRunXML)
     = Done ((None,
              Some (WithContext (UnexpectedClosingTag (bytes "b"))
                      (bytes "<a></b") (Some ">"%byte) [])), s)) /\
  (exists s a,
     Parse decodeUTF16 (8 + fuel) (bytes "<a></b>") (initState lenientRunXML)
     = Done ((Some 0%nat, None), s) /\
     pos s = len s /\
     nodeAt s (Some 1%nat) = Some a /\ nodeType a = Element /\
     nameOf s a = bytes "a" /\ firstChild a = None /\
     SendCloseChildren 1 (nodes s) (Some 0%nat) = Done [Some 1%nat]).
Proof.
  split; [reflexivity|]. split.
  - set (o := Parse _ _ _ _). vm_compute in o. subst o.
    eexists. reflexivity.
  - set (o := Parse _ _ _ _). vm_compute in o. subst o.
    eexists _, _. split; [reflexivity|].
    do 5 (split; [vm_compute; reflexivity|]). vm_compute; reflexivity.
Qed.

Lemma last_repeat {A} (x : A) n : (0 < n)%nat -> last (repeat x n) = Some x.
Proof.
  induction n as [|[|n] IH]; intros H; [lia|reflexivity|].
  change (repeat x (S (S n))) with (x :: repeat x (S n)).
  rewrite last_cons, IH by lia. reflexivity.
Qed.

Lemma Forall_removelast {A} (P : A -> Prop) l :
  Forall P l -> Forall P (removelast l).
Proof.
  induction 1 as [|x l Hx Hl IH]; [constructor|].
  simpl. destruct l; [constructor|]. constructor; assumption.
Qed.

Lemma Forall_last {A} (P : A -> Prop) l x :
  Forall P l -> last l = Some x -> P x.
Proof.
  intros H Hl. apply last_Some_elem_of in Hl.
  rewrite Forall_forall in H. apply H, Hl.
Qed.

Lemma nodeArena_get_fresh s :
  arenaOk s ->
  exists s',
    nodeArena_get s = Done (Some (length (nodes s)), s') /\
    nodes s' = nodes s ++ [zeroNode] /\
    r s' = r s /\ attrs s' = attrs s /\
    arenaOk s'.
Proof.
  intros [Hz Hc]. unfold nodeArena_get.
  unfold bind at 1, gets at 1.
  destruct (na s) as [|c0 free] eqn:Ena.
  - simpl Nat.eqb. cbv iota.
    unfold bind, gets, modify, ret.
    cbn -[Nat.min maxsize Nat.mul repeat last removelast].
    rewrite last_repeat by exact Hc.
    eexists. split; [reflexivity|].
    cbn -[Nat.min maxsize Nat.mul repeat last removelast].
    repeat split; auto.
    + apply Forall_removelast. apply Forall_forall. intros x Hx.
      apply list_elem_of_In, repeat_spec in Hx. exact Hx.
    + change (0 < Nat.min maxsize (currentSize s * 2))%nat.
      unfold maxsize. lia.
  - change (Nat.eqb (length (c0 :: free)) 0) with false. cbv iota.
    unfold bind at 1, ret at 1. unfold bind at 1, gets at 1. rewrite Ena.
    destruct (last (c0 :: free)) as [cell|] eqn:El.
    2:{ apply last_None in El. discriminate. }
    assert (cell = zeroNode) by (eapply (Forall_last _ _ _ Hz El)). subst cell.
    unfold bind, gets, modify, ret.
    cbn -[Nat.min maxsize Nat.mul repeat last removelast].
    eexists. split; [reflexivity|].
    cbn -[Nat.min maxsize Nat.mul repeat last removelast].
    repeat split; auto.
    apply Forall_removelast in Hz. exact Hz.
Qed.

Lemma initState_arenaOk x : arenaOk (initState x).
Proof. split; [constructor | unfold initState, startsize; simpl; lia]. Qed.

(** C10: on the empty buffer, in any state that satisfies the arena
    invariant, [Parse] returns a nil error and a Document node without
    children, attributes or parent, whose [Name] and [Value] are empty. *)
Theorem C10_empty_input
    (decodeUTF16 : list byte -> option (list byte)) (fuel : nat) (s : State) :
  arenaOk s ->
  exists doc s' n,
    Parse decodeUTF16 fuel [] s = Done ((Some doc, None), s') /\
    nodeAt s' (Some doc) = Some n /\
    nodeType n = Document /\
    firstChild n = None /\ lastChild n = None /\
    firstAttribute n = None /\ lastAttribute n = None /\
    Parent (gbase n) = None /\
    nameOf s' n = [] /\ valueOf s' n = [] /\
    SendCloseChildren fuel (nodes s') (Some doc) = Done [].
Proof.
  intros Hok.
  set (s1 := onR (setData []) (onR (setPosition 0) s)).
  assert (Hok1 : arenaOk s1) by exact Hok.
  destruct (nodeArena_get_fresh s1 Hok1) as (s2 & Hget & Hnodes & Hr & Hattrs & Hok2).
  set (doc := length (nodes s1)) in *.
  assert (Hlk : nodes s2 !! doc = Some zeroNode).
  { rewrite Hnodes. unfold doc. rewrite lookup_app_r by lia.
    rewrite Nat.sub_diag. reflexivity. }
  set (s3 := setNodes (<[doc := zeroNode]> (nodes s2)) s2).
  assert (Hstart : parseStart decodeUTF16 [] s = Done (Some doc, s3)).
  { unfold parseStart. unfold bind at 1, setPos, modify.
    unfold bind at 1. fold s1.
    unfold bind at 1, newNode. unfold bind at 1. rewrite Hget.
    unfold bind at 1, updNode. rewrite Hlk.
    change (setNodeType Document zeroNode) with zeroNode. fold s3.
    unfold ret at 1.
    unfold bind at 1, skipBOM. unfold bind at 1, gets at 1.
    assert (Hbuf : buf s3 = []).
    { unfold s3, buf. simpl. rewrite Hr. reflexivity. }
    rewrite Hbuf. reflexivity. }
  assert (Hn3 : nodes s3 !! doc = Some zeroNode).
  { unfold s3. simpl. apply list_lookup_insert_eq.
    eapply lookup_lt_Some; eauto. }
  exists doc, s3, zeroNode. split.
  - unfold Parse, bind. rewrite Hstart. apply parseLoop_at_end.
    unfold len, pos, s3, buf. simpl. rewrite Hr. simpl. lia.
  - split; [exact Hn3|]. do 8 (split; [reflexivity|]).
    unfold SendCloseChildren, load. rewrite Hn3. reflexivity.
Qed.

Lemma C10_witness :
  arenaOk (initState NewDefaultRunXML) /\
  exists doc s' n,
    Parse rejectUTF16 0 [] (initState NewDefaultRunXML)
      = Done ((Some doc, None), s') /\
    nodeAt s' (Some doc) = Some n /\ nodeType n = Document /\
    firstChild n = None /\ firstAttribute n = None.
Proof.
  split; [apply initState_arenaOk|].
  destruct (C10_empty_input rejectUTF16 0 (initState NewDefaultRunXML)
              (initState_arenaOk _))
    as (doc & s' & n & H1 & H2 & H3 & H4 & _ & H5 & _).
  exists doc, s', n. auto.
Defined.

(** * Further properties of the code *)

(** ** The scanner and the decoder *)

(** X1: each of the nine lookup tables holds 1 at exactly the bytes its
    comment in runxml.go names: [lookupWhitespace] at tab, line feed,
    carriage return and space; [lookupNodeName] at every byte but NUL, the
    four whitespace bytes, [/], [>] and [?]; [lookupAttributeName] at every
    byte but those and [!], [<] and [=]; the two attribute-data tables at
    every byte but NUL and their quote; [lookupText] at every byte but NUL
    and [<]; and each of the three Pure tables is its base table without
    [&]. *)
Theorem tables_agree_with_their_comments (c : byte) :
  isSet lookupWhitespace c = oneOf [x09; x0a; x0d; x20] c /\
  isSet lookupNodeName c
    = negb (oneOf [x00; x09; x0a; x0d; x20; "/"; ">"; "?"]%byte c) /\
  isSet lookupAttributeName c
    = negb (oneOf [x00; x09; x0a; x0d; x20; "!"; "/"; "<"; "="; ">"; "?"]%byte c) /\
  isSet lookupAttributeDataSQ c = negb (oneOf [x00; "'"]%byte c) /\
  isSet lookupAttributeDataDQ c = negb (oneOf [x00; x22] c) /\
  isSet lookupText c = negb (oneOf [x00; "<"]%byte c) /\
  isSet lookupAttributeDataSQPure c
    = isSet lookupAttributeDataSQ c && negb (Byte.eqb c "&") /\
  isSet lookupAttributeDataDQPure c
    = isSet lookupAttributeDataDQ c && negb (Byte.eqb c "&") /\
  isSet lookupTextPureNoWS c = isSet lookupText c && negb (Byte.eqb c "&").
Proof. destruct c; vm_compute; repeat split. Qed.

Lemma index_in_range d i : 0 <= i < Z.of_nat (length d) -> exists c, index d i = Some c.
Proof.
  intros H. unfold index. destruct (i <? 0) eqn:E; [lia|].
  destruct (lookup_lt_is_Some_2 d (Z.to_nat i) ltac:(lia)) as [c Hc]. eauto.
Qed.

Lemma index_Some_range d i c : index d i = Some c -> 0 <= i < Z.of_nat (length d).
Proof.
  unfold index. destruct (i <? 0) eqn:E; [discriminate|].
  intros H. apply lookup_lt_Some in H. lia.
Qed.

Lemma onR_setPosition_twice a b s :
  onR (setPosition a) (onR (setPosition b) s) = onR (setPosition a) s.
Proof. reflexivity. Qed.

Lemma skipLoop_unfold table fuel s :
  skipLoop fuel table s =
  if pos s <? len s then
    match index (buf s) (pos s) with
    | None => Crash IndexOutOfRange
    | Some c =>
        if isSet table c then
          match fuel with
          | O => Timeout
          | S f => skipLoop f table (onR (setPosition (pos s + 1)) s)
          end
        else Done (tt, s)
    end
  else Done (tt, onR (setPosition (pos s + -1)) s).
Proof.
  rewrite skipLoop_eq.
  unfold bind, getPos, getLen, gets, byteAt, addPos, modify, ret.
  destruct (pos s <? len s); [|reflexivity].
  destruct (index (buf s) (pos s)) as [c|]; [|reflexivity].
  destruct (isSet table c); simpl; [|reflexivity].
  destruct fuel; reflexivity.
Qed.

Lemma onR_setPosition_id s : onR (setPosition (pos s)) s = s.
Proof. destruct s as [[]]. reflexivity. Qed.

Lemma skipLoop_in_range table fuel : forall s,
  0 <= pos s < len s -> len s - pos s <= Z.of_nat fuel ->
  exists p',
    skipLoop fuel table s = Done (tt, onR (setPosition p') s) /\
    pos s <= p' <= len s - 1 /\
    (forall i, pos s <= i < p' -> classAt table s i) /\
    (stopAt table s p' \/
     (p' = len s - 1 /\ forall i, pos s <= i < len s -> classAt table s i)).
Proof.
  induction fuel as [|f IH]; intros s Hr Hf; [lia|].
  rewrite skipLoop_unfold.
  destruct (pos s <? len s) eqn:E; [|lia].
  destruct (index_in_range (buf s) (pos s) ltac:(unfold len in Hr; lia)) as [c Hc].
  rewrite Hc.
  destruct (isSet table c) eqn:Hset.
  2:{ exists (pos s). split; [rewrite onR_setPosition_id; reflexivity|].
      split; [lia|]. split; [intros; lia|]. left. exists c. auto. }
  set (s1 := onR (setPosition (pos s + 1)) s).
  assert (Hhere : classAt table s (pos s)) by (exists c; auto).
  destruct (Z.eq_dec (pos s + 1) (len s)) as [Hend|Hmore].
  - exists (pos s). split.
    + rewrite skipLoop_unfold.
      change (pos s1) with (pos s + 1). change (len s1) with (len s).
      destruct (pos s + 1 <? len s) eqn:E1; [lia|].
      replace (pos s + 1 + -1) with (pos s) by lia. reflexivity.
    + split; [lia|]. split; [intros; lia|]. right. split; [lia|].
      intros i Hi. assert (i = pos s) by lia. subst i. exact Hhere.
  - destruct (IH s1) as (p' & Hrun & Hp & Hall & Hstop).
    { change (pos s1) with (pos s + 1). change (len s1) with (len s). lia. }
    { change (pos s1) with (pos s + 1). change (len s1) with (len s). lia. }
    change (pos s1) with (pos s + 1) in *. change (len s1) with (len s) in *.
    exists p'. split; [rewrite Hrun; reflexivity|].
    split; [lia|].
    split.
    + intros i Hi. destruct (Z.eq_dec i (pos s)) as [->|]; [exact Hhere|].
      apply Hall. lia.
    + destruct Hstop as [Hstop | [Hlast Hrest]]; [left; exact Hstop|].
      right. split; [exact Hlast|].
      intros i Hi. destruct (Z.eq_dec i (pos s)) as [->|]; [exact Hhere|].
      apply Hrest. lia.
Qed.

Lemma skip_in_range (table : list nat) (s : State) :
  0 <= pos s < len s ->
  exists p',
    skip table s = Done (tt, onR (setPosition p') s) /\
    pos s <= p' <= len s - 1 /\
    (forall i, pos s <= i < p' -> classAt table s i) /\
    (stopAt table s p' \/
     (p' = len s - 1 /\ forall i, pos s <= i < len s -> classAt table s i)).
Proof.
  intros H. unfold skip. apply skipLoop_in_range; [exact H|].
  unfold len in *. lia.
Qed.

(** X2: [skip table], started at a position inside the buffer, returns with
    the position on the first byte from there that is outside the class of
    [table]; when every byte up to the end of the buffer is in the class it
    returns with the position on the last byte, [len - 1], not past the end.
    Nothing but the position changes. *)
Theorem skip_stops_at_first_byte_outside_class (table : list nat) (s : State) :
  0 <= pos s < len s ->
  exists p',
    skip table s = Done (tt, onR (setPosition p') s) /\
    pos s <= p' <= len s - 1 /\
    (forall i, pos s <= i < p' -> classAt table s i) /\
    (stopAt table s p' \/
     (p' = len s - 1 /\ forall i, pos s <= i < len s -> classAt table s i)).
Proof. apply skip_in_range. Qed.

Lemma skip_witness :
  let s := bufferState "  ab" in
  0 <= pos s < len s /\
  exists p', skip lookupWhitespace s = Done (tt, onR (setPosition p') s) /\
             pos s <= p' <= len s - 1.
Proof.
  intros s. assert (H : 0 <= pos s < len s) by (vm_compute; split; [discriminate | reflexivity]).
  split; [exact H|].
  destruct (skip_stops_at_first_byte_outside_class lookupWhitespace s H)
    as (p' & H1 & H2 & _).
  exists p'. auto.
Defined.

(** X3: [skip] started at or past the end of the buffer only steps the
    position back by one (so from an empty buffer at position 0 it leaves
    position -1), and started at a negative position it panics with an index
    out of range. *)
Theorem skip_outside_the_buffer (table : list nat) (s : State) :
  (len s <= pos s -> skip table s = Done (tt, onR (setPosition (pos s - 1)) s)) /\
  (pos s < 0 -> skip table s = Crash IndexOutOfRange).
Proof.
  split; intros H; unfold skip; rewrite skipLoop_unfold.
  - destruct (pos s <? len s) eqn:E; [lia|].
    replace (pos s + -1) with (pos s - 1) by lia. reflexivity.
  - assert (0 <= len s) by (unfold len; lia).
    destruct (pos s <? len s) eqn:E; [|lia].
    unfold index. destruct (pos s <? 0) eqn:E1; [reflexivity|lia].
Qed.

Lemma skip_outside_witness :
  let s := onR (setPosition 4) (bufferState "<a/>") in
  len s <= pos s /\
  skip lookupWhitespace s = Done (tt, onR (setPosition 3) s).
Proof.
  intros s.
  assert (H : len s <= pos s) by (vm_compute; discriminate).
  split; [exact H|].
  exact (proj1 (skip_outside_the_buffer lookupWhitespace s) H).
Defined.

(** ** The decoder on runs without references *)

Lemma getNextByte_unfold s :
  getNextByte s =
  let s1 := onR (setPosition (pos s + 1)) s in
  if pos s + 1 >? len s - 1 then Done (x00, s1)
  else match index (buf s) (pos s + 1) with
       | Some c => Done (c, s1)
       | None => Crash IndexOutOfRange
       end.
Proof.
  unfold getNextByte, bind, addPos, modify, getPos, getLen, gets, byteAt, ret.
  change (pos (onR (setPosition (pos s + 1)) s)) with (pos s + 1).
  change (len (onR (setPosition (pos s + 1)) s)) with (len s).
  change (buf (onR (setPosition (pos s + 1)) s)) with (buf s).
  cbv zeta. destruct (pos s + 1 >? len s - 1); reflexivity.
Qed.

Lemma expand_after_skip stopPred stopPredPure s s1 :
  skip stopPredPure s = Done (tt, s1) ->
  skipAndExpandCharacterRefs stopPred stopPredPure s =
  match index (buf s1) (pos s1) with
  | None => Crash IndexOutOfRange
  | Some c =>
      (res <- expandLoop (length (buf s1)) stopPred c (pos s1) ;;
       match res with
       | None => ret None
       | Some trail' => sp <- sliceData (pos s) trail' ;; ret (Some sp)
       end) s1
  end.
Proof.
  intros Hskip. unfold skipAndExpandCharacterRefs.
  unfold bind at 1, getPos at 1, gets at 1.
  unfold bind at 1. rewrite Hskip.
  unfold bind at 1, getPos at 1, gets at 1.
  unfold bind at 1, getCurrentByte, bind at 1, getPos at 1, gets at 1, byteAt.
  destruct (index (buf s1) (pos s1)); reflexivity.
Qed.

(** Where [skip] stops when the first byte outside the class is known. *)
Lemma skip_to_stop table s k :
  0 <= pos s -> 0 <= k -> pos s + k < len s ->
  (forall i, pos s <= i < pos s + k -> classAt table s i) ->
  stopAt table s (pos s + k) ->
  skip table s = Done (tt, onR (setPosition (pos s + k)) s).
Proof.
  intros Hp Hk Hlen Hrun (c & Hc & Hstop).
  destruct (skip_in_range table s ltac:(lia))
    as (p' & Hskip & Hr & Hall & Hend).
  assert (p' = pos s + k); [|subst p'; exact Hskip].
  destruct (Z.lt_trichotomy p' (pos s + k)) as [Hlt | [Heq | Hgt]];
    [exfalso | exact Heq | exfalso].
  - destruct (Hrun p' ltac:(lia)) as (c1 & Hc1 & Hin).
    destruct Hend as [(c2 & Hc2 & Hout) | [Hlast _]]; [|lia].
    congruence.
  - destruct (Hall (pos s + k) ltac:(lia)) as (c1 & Hc1 & Hin). congruence.
Qed.

(** Where [skip] stops when every byte up to the end is in the class. *)
Lemma skip_to_end table s :
  0 <= pos s < len s ->
  (forall i, pos s <= i < len s -> classAt table s i) ->
  skip table s = Done (tt, onR (setPosition (len s - 1)) s).
Proof.
  intros Hp Hrun.
  destruct (skip_in_range table s Hp)
    as (p' & Hskip & Hr & Hall & Hend).
  destruct Hend as [(c2 & Hc2 & Hout) | [Hlast _]].
  - destruct (Hrun p' ltac:(lia)) as (c1 & Hc1 & Hin). congruence.
  - subst p'. exact Hskip.
Qed.

(** X4: when the [k] bytes from the position on are in the class of
    [stopPredPure] and the byte after them is outside the classes of both
    tables, [skipAndExpandCharacterRefs] returns the slice of exactly those
    [k] bytes, leaves the position on the byte after them and writes nothing
    to the buffer. *)
Theorem decoding_a_run_without_references_is_a_no_op
    (stopPred stopPredPure : list nat) (s : State) (k : Z) :
  0 <= pos s -> 0 <= k -> pos s + k < len s ->
  (forall i, pos s <= i < pos s + k -> classAt stopPredPure s i) ->
  stopAt stopPredPure s (pos s + k) ->
  stopAt stopPred s (pos s + k) ->
  skipAndExpandCharacterRefs stopPred stopPredPure s
    = Done (Some (Span (pos s) (pos s + k)), onR (setPosition (pos s + k)) s).
Proof.
  intros Hp Hk Hlen Hrun Hpure (c & Hc & Hstop).
  rewrite (expand_after_skip _ _ _ _ (skip_to_stop _ _ _ Hp Hk Hlen Hrun Hpure)).
  change (buf (onR (setPosition (pos s + k)) s)) with (buf s).
  change (pos (onR (setPosition (pos s + k)) s)) with (pos s + k).
  rewrite Hc. unfold bind at 1. rewrite expandLoop_eq, Hstop.
  unfold ret at 1. unfold bind, sliceData.
  change (len (onR (setPosition (pos s + k)) s)) with (len s).
  destruct ((0 <=? pos s) && (pos s <=? pos s + k) && (pos s + k <=? len s)) eqn:E;
    [reflexivity|lia].
Qed.

Lemma clean_run_witness :
  let s := onR (setPosition 3) (bufferState "<r>Fido</r>") in
  (0 <= pos s /\ 0 <= 4 /\ pos s + 4 < len s /\
   stopAt lookupTextPureNoWS s (pos s + 4) /\ stopAt lookupText s (pos s + 4)) /\
  skipAndExpandCharacterRefs lookupText lookupTextPureNoWS s
    = Done (Some (Span 3 7), onR (setPosition 7) s).
Proof.
  intros s.
  assert (H1 : 0 <= pos s) by (vm_compute; discriminate).
  assert (H2 : 0 <= 4) by lia.
  assert (H3 : pos s + 4 < len s) by (vm_compute; reflexivity).
  assert (H4 : stopAt lookupTextPureNoWS s (pos s + 4))
    by (exists "<"%byte; split; vm_compute; reflexivity).
  assert (H5 : stopAt lookupText s (pos s + 4))
    by (exists "<"%byte; split; vm_compute; reflexivity).
  split; [auto|].
  apply (decoding_a_run_without_references_is_a_no_op
           lookupText lookupTextPureNoWS s 4 H1 H2 H3); [|exact H4|exact H5].
  intros i Hi. change (pos s) with 3 in Hi.
  assert (i = 3 \/ i = 4 \/ i = 5 \/ i = 6) as [-> | [-> | [-> | ->]]] by lia;
    eexists; split; vm_compute; reflexivity.
Defined.

Lemma expandTurn_plain c trail s :
  Byte.eqb c "&" = false -> trail = pos s -> len s <= pos s + 1 ->
  expandTurn c trail s = Done (ReturnNil, onR (setPosition (pos s + 1)) s).
Proof.
  intros Hc -> Hend. unfold expandTurn, expandRef. rewrite Hc.
  unfold bind at 1. unfold bind at 1, getPos at 1, gets at 1.
  destruct (pos s <? pos s) eqn:E; [lia|].
  unfold ret at 1. unfold bind at 1. rewrite getNextByte_unfold. cbv zeta.
  destruct (pos s + 1 >? len s - 1) eqn:E1; [|lia].
  reflexivity.
Qed.

Lemma text_pure_in_text c :
  isSet lookupTextPureNoWS c = true -> isSet lookupText c = true.
Proof. destruct c; vm_compute; congruence. Qed.

(** X5: when every byte from the position to the end of the buffer is in the
    class of [stopPredPure] (a table without [&] whose class lies in that of
    [stopPred]), so that no stop byte follows the run,
    [skipAndExpandCharacterRefs] returns nil and leaves the position at
    [len], one past the last byte. *)
Theorem a_run_that_reaches_the_end_of_the_buffer_yields_nil
    (stopPred stopPredPure : list nat) (s : State) :
  (forall c, isSet stopPredPure c = true -> isSet stopPred c = true) ->
  isSet stopPredPure "&" = false ->
  0 <= pos s < len s ->
  (forall i, pos s <= i < len s -> classAt stopPredPure s i) ->
  skipAndExpandCharacterRefs stopPred stopPredPure s
    = Done (None, onR (setPosition (len s)) s).
Proof.
  intros Hsub Hamp Hp Hrun.
  rewrite (expand_after_skip _ _ _ _ (skip_to_end _ _ Hp Hrun)).
  set (s1 := onR (setPosition (len s - 1)) s).
  change (buf s1) with (buf s). change (pos s1) with (len s - 1).
  destruct (Hrun (len s - 1) ltac:(lia)) as (c & Hc & Hin).
  rewrite Hc. unfold bind at 1.
  assert (Hfuel : exists f, length (buf s) = S f).
  { destruct (length (buf s)) eqn:E; [unfold len in Hp; lia | eauto]. }
  destruct Hfuel as [f ->].
  rewrite expandLoop_eq, (Hsub _ Hin).
  assert (Hne : Byte.eqb c "&" = false).
  { destruct (Byte.eqb c "&") eqn:E; [|reflexivity].
    apply Byte.byte_dec_bl in E. subst c. congruence. }
  unfold bind at 1.
  rewrite (expandTurn_plain c (len s - 1) s1 Hne eq_refl)
    by (change (len s1) with (len s); change (pos s1) with (len s - 1); lia).
  change (pos s1) with (len s - 1).
  replace (len s - 1 + 1) with (len s) by lia. reflexivity.
Qed.

Lemma unterminated_run_witness :
  let s := onR (setPosition 3) (bufferState "<r>Fido") in
  (0 <= pos s < len s) /\
  skipAndExpandCharacterRefs lookupText lookupTextPureNoWS s
    = Done (None, onR (setPosition (len s)) s).
Proof.
  intros s.
  assert (H1 : 0 <= pos s < len s)
    by (vm_compute; split; [discriminate | reflexivity]).
  split; [exact H1|].
  apply (a_run_that_reaches_the_end_of_the_buffer_yields_nil
           lookupText lookupTextPureNoWS s text_pure_in_text eq_refl H1).
  intros i Hi. change (pos s) with 3 in Hi. change (len s) with 7 in Hi.
  assert (i = 3 \/ i = 4 \/ i = 5 \/ i = 6) as [-> | [-> | [-> | ->]]] by lia;
    eexists; split; vm_compute; reflexivity.
Defined.

(** X6: when the run from the position on is plain up to an [&] that is the
    last byte of the buffer, [skipAndExpandCharacterRefs] panics with [end
    of file]: [getNextByte] returns 0 past the end and the switch has a
    [case 0] that panics. *)
Theorem an_ampersand_at_the_last_byte_panics
    (stopPred stopPredPure : list nat) (s : State) :
  isSet stopPredPure "&" = false ->
  isSet stopPred "&" = true ->
  0 <= pos s < len s ->
  (forall i, pos s <= i < len s - 1 -> classAt stopPredPure s i) ->
  index (buf s) (len s - 1) = Some "&"%byte ->
  skipAndExpandCharacterRefs stopPred stopPredPure s
    = Crash (PanicMsg "end of file").
Proof.
  intros Hpure Hstop Hp Hrun Hamp.
  assert (Hskip : skip stopPredPure s
                  = Done (tt, onR (setPosition (pos s + (len s - 1 - pos s))) s)).
  { apply skip_to_stop; try lia.
    - intros i Hi. apply Hrun. lia.
    - exists "&"%byte. replace (pos s + (len s - 1 - pos s)) with (len s - 1) by lia.
      auto. }
  replace (pos s + (len s - 1 - pos s)) with (len s - 1) in Hskip by lia.
  rewrite (expand_after_skip _ _ _ _ Hskip).
  set (s1 := onR (setPosition (len s - 1)) s).
  change (buf s1) with (buf s). change (pos s1) with (len s - 1).
  rewrite Hamp. unfold bind at 1.
  assert (Hfuel : exists f, length (buf s) = S f).
  { destruct (length (buf s)) eqn:E; [unfold len in Hp; lia | eauto]. }
  destruct Hfuel as [f ->].
  rewrite expandLoop_eq, Hstop.
  unfold bind at 1, expandTurn. unfold bind at 1, expandRef.
  change (Byte.eqb "&" "&") with true. cbv iota.
  unfold bind at 1. rewrite getNextByte_unfold. cbv zeta.
  change (pos s1) with (len s - 1). change (len s1) with (len s).
  destruct (len s - 1 + 1 >? len s - 1) eqn:E; [|lia].
  reflexivity.
Qed.

Lemma ampersand_witness :
  let s := onR (setPosition 3) (bufferState "<r>a&") in
  (0 <= pos s < len s /\ index (buf s) (len s - 1) = Some "&"%byte) /\
  skipAndExpandCharacterRefs lookupText lookupTextPureNoWS s
    = Crash (PanicMsg "end of file").
Proof.
  intros s.
  assert (H1 : 0 <= pos s < len s)
    by (vm_compute; split; [discriminate | reflexivity]).
  assert (H2 : index (buf s) (len s - 1) = Some "&"%byte)
    by (vm_compute; reflexivity).
  split; [auto|].
  apply (an_ampersand_at_the_last_byte_panics
           lookupText lookupTextPureNoWS s eq_refl eq_refl H1); [|exact H2].
  intros i Hi. change (pos s) with 3 in Hi. change (len s) with 5 in Hi.
  assert (i = 3) as -> by lia.
  eexists; split; vm_compute; reflexivity.
Defined.

(** ** Where a successful scan stops *)

Lemma expandTurn_next_byte c trail s c' trail' s' :
  expandTurn c trail s = Done (Next c' trail', s') ->
  index (buf s') (pos s') = Some c'.
Proof.
  unfold expandTurn. intros H.
  step_inv H as ct s0 Href. step_inv H as a s1 Hnext.
  rewrite getNextByte_unfold in Hnext. cbv zeta in Hnext.
  destruct (pos s0 + 1 >? len s0 - 1).
  - injection Hnext as <- <-. discriminate H.
  - destruct (index (buf s0) (pos s0 + 1)) as [b|] eqn:E; [|discriminate].
    injection Hnext as <- <-.
    destruct (Byte.eqb b x00); [discriminate|].
    injection H as <- _ <-. exact E.
Qed.

Lemma expandLoop_stops_at_stop_byte stopPred fuel : forall c trail s t' s',
  index (buf s) (pos s) = Some c ->
  expandLoop fuel stopPred c trail s = Done (Some t', s') ->
  stopAt stopPred s' (pos s').
Proof.
  induction fuel as [|f IH]; intros c t s t' s' Hc H;
    rewrite expandLoop_eq in H; destruct (isSet stopPred c) eqn:Hset.
  - discriminate.
  - injection H as <- <-. exists c. auto.
  - step_inv H as tn s1 Hturn. destruct tn as [c1 t1|]; [|discriminate].
    eapply IH; [|exact H]. eapply expandTurn_next_byte; eauto.
  - injection H as <- <-. exists c. auto.
Qed.

(** X7: whenever [skipAndExpandCharacterRefs] returns a slice, the position
    is inside the buffer on a byte outside the class of [stopPred], and the
    slice [lo, hi) lies in the buffer before that position: [0 <= lo <= hi
    <= position < len]. *)
Theorem a_returned_slice_ends_before_a_stop_byte
    (stopPred stopPredPure : list nat) (s s' : State) (sp : span) :
  skipAndExpandCharacterRefs stopPred stopPredPure s = Done (Some sp, s') ->
  stopAt stopPred s' (pos s') /\ 0 <= lo sp <= hi sp /\ hi sp <= pos s' < len s'.
Proof.
  intros H.
  destruct (skip stopPredPure s) as [[[] s1]| |] eqn:Hskip;
    [|unfold skipAndExpandCharacterRefs, bind, getPos, gets in H;
      rewrite Hskip in H; discriminate ..].
  rewrite (expand_after_skip _ _ _ _ Hskip) in H.
  destruct (index (buf s1) (pos s1)) as [c|] eqn:Hc; [|discriminate].
  step_inv H as res s2 Hloop. destruct res as [t|]; [|discriminate].
  step_inv H as sp' s3 Hsl. injection H as <- <-.
  pose proof (expandLoop_stops_at_stop_byte _ _ _ _ _ _ _ Hc Hloop) as Hstop.
  apply expandLoop_behind in Hloop as [Hhi _]; [|lia].
  unfold sliceData in Hsl. destruct (_ && _) eqn:E in Hsl; [|discriminate].
  injection Hsl as <- <-.
  split; [exact Hstop|]. simpl in *.
  destruct Hstop as (c' & Hc' & _). apply index_Some_range in Hc'.
  unfold len. lia.
Qed.

Lemma stop_byte_witness :
  let s := onR (setPosition 3) (bufferState "<r>a&lt;b</r>") in
  exists sp s',
    skipAndExpandCharacterRefs lookupText lookupTextPureNoWS s
      = Done (Some sp, s') /\
    stopAt lookupText s' (pos s').
Proof.
  intros s.
  destruct (skipAndExpandCharacterRefs lookupText lookupTextPureNoWS s)
    as [[[sp|] s']| |] eqn:E; [|vm_compute in E; discriminate ..].
  exists sp, s'. split; [reflexivity|].
  exact (proj1 (a_returned_slice_ends_before_a_stop_byte _ _ _ _ _ E)).
Defined.

(** ** [skipToChars] *)

Lemma sliceToEnd_in_range s :
  0 <= pos s <= len s ->
  sliceToEnd s = Done (drop (Z.to_nat (pos s)) (buf s), s).
Proof.
  intros H. unfold sliceToEnd, bind, getPos, getLen, gets, sliceData, readSpan.
  destruct ((0 <=? pos s) && (pos s <=? len s) && (len s <=? len s)) eqn:E; [|lia].
  unfold spanBytes, gets. cbn [lo hi].
  rewrite take_ge; [reflexivity|].
  rewrite length_drop. unfold len. lia.
Qed.

Lemma skipToCharsLoop_unfold b fuel s :
  0 <= pos s ->
  skipToCharsLoop fuel b s =
  if pos s <? len s then
    if prefixAt b s (pos s) then Done (None, s)
    else match fuel with
         | O => Timeout
         | S f => skipToCharsLoop f b (onR (setPosition (pos s + 1)) s)
         end
  else Done (Some UnexpectedEndOfFile, onR (setPosition (pos s + -1)) s).
Proof.
  intros Hp.
  destruct fuel; simpl; unfold bind at 1, getPos at 1, gets at 1;
    unfold bind at 1, getLen at 1, gets at 1;
    (destruct (pos s <? len s) eqn:E; [|reflexivity]);
    unfold bind at 1; rewrite sliceToEnd_in_range by lia;
    unfold prefixAt; destruct (hasPrefix _ b); reflexivity.
Qed.

Lemma skipToCharsLoop_spec b fuel : forall s,
  0 <= pos s < len s -> len s - pos s <= Z.of_nat fuel ->
  exists e p',
    skipToCharsLoop fuel b s = Done (e, onR (setPosition p') s) /\
    match e with
    | None =>
        pos s <= p' < len s /\ prefixAt b s p' = true /\
        forall i, pos s <= i < p' -> prefixAt b s i = false
    | Some err =>
        err = UnexpectedEndOfFile /\ p' = len s - 1 /\
        forall i, pos s <= i < len s -> prefixAt b s i = false
    end.
Proof.
  induction fuel as [|f IH]; intros s Hr Hf; [lia|].
  rewrite skipToCharsLoop_unfold by lia.
  destruct (pos s <? len s) eqn:E; [|lia].
  destruct (prefixAt b s (pos s)) eqn:Hpre.
  { exists None, (pos s). rewrite onR_setPosition_id.
    split; [reflexivity|]. split; [lia|]. split; [exact Hpre|]. intros; lia. }
  set (s1 := onR (setPosition (pos s + 1)) s).
  destruct (Z.eq_dec (pos s + 1) (len s)) as [Hend|Hmore].
  - exists (Some UnexpectedEndOfFile), (len s - 1). split.
    + rewrite skipToCharsLoop_unfold by (change (pos s1) with (pos s + 1); lia).
      change (pos s1) with (pos s + 1). change (len s1) with (len s).
      destruct (pos s + 1 <? len s) eqn:E1; [lia|].
      replace (pos s + 1 + -1) with (len s - 1) by lia. reflexivity.
    + split; [reflexivity|]. split; [reflexivity|].
      intros i Hi. assert (i = pos s) by lia. subst i. exact Hpre.
  - destruct (IH s1) as (e & p' & Hrun & Hres).
    { change (pos s1) with (pos s + 1). change (len s1) with (len s). lia. }
    { change (pos s1) with (pos s + 1). change (len s1) with (len s). lia. }
    change (pos s1) with (pos s + 1) in *. change (len s1) with (len s) in *.
    exists e, p'. split; [rewrite Hrun; reflexivity|].
    destruct e as [err|].
    + destruct Hres as (-> & -> & Hall). split; [reflexivity|].
      split; [reflexivity|]. intros i Hi.
      destruct (Z.eq_dec i (pos s)) as [->|]; [exact Hpre|].
      apply (Hall i). lia.
    + destruct Hres as (Hp' & Hfound & Hall). split; [lia|].
      split; [exact Hfound|]. intros i Hi.
      destruct (Z.eq_dec i (pos s)) as [->|]; [exact Hpre|].
      apply (Hall i). lia.
Qed.

(** X8: [skipToChars b], started at a position inside the buffer, either
    returns nil with the position on the first index from there at which
    [r.data[i:]] has the prefix [b], or, when there is no such index,
    returns [unexpected end of file] with the position on the last byte.
    Nothing but the position changes. *)
Theorem skipToChars_finds_the_first_occurrence (b : list byte) (s : State) :
  0 <= pos s < len s ->
  exists e p',
    skipToChars b s = Done (e, onR (setPosition p') s) /\
    match e with
    | None =>
        pos s <= p' < len s /\ prefixAt b s p' = true /\
        forall i, pos s <= i < p' -> prefixAt b s i = false
    | Some err =>
        err = UnexpectedEndOfFile /\ p' = len s - 1 /\
        forall i, pos s <= i < len s -> prefixAt b s i = false
    end.
Proof.
  intros H. unfold skipToChars. apply skipToCharsLoop_spec; [exact H|].
  unfold len in *. lia.
Qed.

Lemma skipToChars_witness :
  let s := onR (setPosition 2) (bufferState "<?pi data?>") in
  0 <= pos s < len s /\
  exists e p', skipToChars (bytes "?>") s = Done (e, onR (setPosition p') s).
Proof.
  intros s.
  assert (H : 0 <= pos s < len s)
    by (vm_compute; split; [discriminate | reflexivity]).
  split; [exact H|].
  destruct (skipToChars_finds_the_first_occurrence (bytes "?>") s H)
    as (e & p' & Hrun & _).
  exists e, p'. exact Hrun.
Defined.

(** ** Errors and nil nodes *)

Lemma spanBytes_length d a b :
  0 <= a <= b -> b <= Z.of_nat (length d) ->
  Z.of_nat (length (spanBytes d (Span a b))) = b - a.
Proof.
  intros H1 H2. unfold spanBytes. cbn [lo hi].
  rewrite length_take, length_drop. lia.
Qed.

(** X9: [contextError] leaves the state alone and wraps the error with at
    most 40 bytes of left context and at most 39 bytes of right context; the
    byte shown between them is [r.data[position]] when the position is
    inside the buffer, and at or past the end there is no such byte and no
    right context. *)
Theorem contextError_window (v : error) (s : State) :
  0 <= pos s <= len s + contextSize ->
  exists l c rt,
    contextError v s = Done (WithContext v l c rt, s) /\
    Z.of_nat (length l) <= contextSize /\
    Z.of_nat (length rt) <= contextSize - 1 /\
    (pos s < len s -> c = index (buf s) (pos s) /\ c <> None) /\
    (len s <= pos s -> c = None /\ rt = []).
Proof.
  unfold contextSize. intros H.
  assert (Hn : 0 <= len s) by (unfold len; lia).
  assert (E1 : (0 <=? Z.max (pos s - 40) 0)
               && (Z.max (pos s - 40) 0 <=? Z.min (pos s) (len s))
               && (Z.min (pos s) (len s) <=? len s) = true) by lia.
  assert (E2 : (0 <=? Z.min (pos s + 1) (len s))
               && (Z.min (pos s + 1) (len s) <=? Z.min (pos s + 40) (len s))
               && (Z.min (pos s + 40) (len s) <=? len s) = true) by lia.
  pose proof (spanBytes_length (buf s) (Z.max (pos s - 40) 0) (Z.min (pos s) (len s))
                ltac:(lia) ltac:(unfold len; lia)) as L1.
  pose proof (spanBytes_length (buf s) (Z.min (pos s + 1) (len s))
                (Z.min (pos s + 40) (len s)) ltac:(lia) ltac:(unfold len; lia)) as L2.
  unfold contextError, getCurrentByte, bind, getPos, getLen, sliceData,
    readSpan, ret, gets, contextSize.
  rewrite E1, E2.
  destruct (pos s >? len s - 1) eqn:E3.
  - eexists _, _, _. split; [reflexivity|].
    split; [lia|]. split; [simpl; lia|]. split; [lia|]. auto.
  - destruct (index_in_range (buf s) (pos s) ltac:(unfold len in *; lia)) as [c Hc].
    unfold byteAt. rewrite Hc.
    eexists _, _, _. split; [reflexivity|].
    split; [lia|]. split; [lia|]. split; [|lia].
    intros _. split; [reflexivity | discriminate].
Qed.

Lemma contextError_witness :
  let s := onR (setPosition 3) (bufferState "<a b></a>") in
  0 <= pos s <= len s + contextSize /\
  exists l c rt, contextError ExpectedGt s = Done (WithContext ExpectedGt l c rt, s).
Proof.
  intros s.
  assert (H : 0 <= pos s <= len s + contextSize)
    by (vm_compute; split; discriminate).
  split; [exact H|].
  destruct (contextError_window ExpectedGt s H) as (l & c & rt & Hrun & _).
  exists l, c, rt. exact Hrun.
Defined.

(** ** Nil nodes *)

Lemma updNode_length p f s x s' :
  updNode p f s = Done (x, s') -> length (nodes s') = length (nodes s).
Proof.
  intros H. apply updNode_Done in H as (b & n & _ & _ & ->).
  simpl. apply length_insert.
Qed.

Lemma updNode_nil f s : updNode None f s = Crash NilDereference.
Proof. reflexivity. Qed.

Lemma updNode_outcome p f s :
  (exists s', updNode p f s = Done (tt, s')) \/ updNode p f s = Crash NilDereference.
Proof.
  unfold updNode. destruct p as [a|]; [|auto].
  destruct (nodes s !! a); eauto.
Qed.

Lemma loadNode_outcome p s :
  (exists n, loadNode p s = Done (n, s)) \/ loadNode p s = Crash NilDereference.
Proof.
  unfold loadNode. destruct p as [a|]; [|auto].
  destruct (nodes s !! a); eauto.
Qed.

(** [AppendNode] of a nil child panics, whatever the receiver. *)
Lemma AppendNode_of_nil_panics (g : ptr) (s : State) :
  AppendNode g None s = Crash NilDereference.
Proof.
  unfold AppendNode.
  destruct (loadNode_outcome g s) as [[gn Hg] | Hg]; unfold bind at 1; rewrite Hg;
    [|reflexivity].
  unfold bind at 1.
  destruct (isNil (firstChild gn)).
  - destruct (updNode_outcome g (setFirstChild None) s) as [[s1 H1] | H1];
      rewrite H1; [|reflexivity].
    unfold bind at 1.
    destruct (updNode_outcome g (setLastChild None) s1) as [[s2 H2] | H2];
      rewrite H2; reflexivity.
  - unfold bind at 1.
    destruct (updNode_outcome (lastChild gn) (setNext None) s) as [[s1 H1] | H1];
      rewrite H1; [|reflexivity].
    unfold bind at 1.
    destruct (loadNode_outcome g s1) as [[gn1 Hg1] | Hg1]; rewrite Hg1; reflexivity.
Qed.

(** ** Errors carry no node *)

Ltac err_nil H :=
  repeat (first
    [ progress (unfold ret in H)
    | match type of H with
      | Done (_, Some _, _) = Done (_, Some _, _) =>
          injection H; intros; subst; reflexivity
      | Done (_, None, _) = Done (_, Some _, _) => discriminate H
      | Done _ = Done _ => injection H; intros; subst; try reflexivity; try discriminate
      | Crash _ = Done _ => discriminate H
      | Timeout = Done _ => discriminate H
      | bind _ _ _ = Done _ => bind_inv H
      | (if ?b then _ else _) _ = Done _ => destruct b
      | (match ?x with _ => _ end) _ = Done _ => destruct x
      end ]).

Lemma parseXMLDeclaration_errNil : errNil parseXMLDeclaration.
Proof. intros s p e s' H. unfold parseXMLDeclaration in H. err_nil H. Qed.

Lemma parsePI_errNil : errNil parsePI.
Proof. intros s p e s' H. unfold parsePI in H. err_nil H. Qed.

Lemma parseCDATA_errNil : errNil parseCDATA.
Proof. intros s p e s' H. unfold parseCDATA in H. err_nil H. Qed.

Lemma parseComment_errNil : errNil parseComment.
Proof. intros s p e s' H. unfold parseComment in H. err_nil H. Qed.

Lemma parseDocType_errNil : errNil parseDocType.
Proof. intros s p e s' H. unfold parseDocType in H. err_nil H. Qed.

Lemma parseElement_errNil pnc : errNil (parseElement pnc).
Proof. intros s p e s' H. unfold parseElement in H. err_nil H. Qed.

Lemma parseNodeWith_errNil pe : errNil pe -> errNil (parseNodeWith pe).
Proof.
  intros Hpe s p e s' H. unfold parseNodeWith in H.
  err_nil H;
    first [ eapply parseXMLDeclaration_errNil; exact H
          | eapply parsePI_errNil; exact H
          | eapply parseComment_errNil; exact H
          | eapply parseCDATA_errNil; exact H
          | eapply parseDocType_errNil; exact H
          | eapply Hpe; exact H ].
Qed.

Lemma parseNode_errNil fuel : errNil (parseNode fuel).
Proof. apply parseNodeWith_errNil, parseElement_errNil. Qed.

Lemma contextError_shape v s ce s' :
  contextError v s = Done (ce, s') ->
  exists l c rt, ce = WithContext v l c rt.
Proof.
  unfold contextError. intros H.
  repeat (first
    [ progress (unfold ret in H)
    | match type of H with
      | Done _ = Done _ => injection H; intros; subst; eauto
      | bind _ _ _ = Done _ => bind_inv H
      | (if ?b then _ else _) _ = Done _ => destruct b
      end ]).
Qed.

Lemma parseLoop_error_node fuel : forall doc s p e s',
  parseLoop fuel doc s = Done ((p, Some e), s') ->
  (p = None /\ exists v l c rt, e = WithContext v l c rt) \/
  (p = doc /\ exists found l c rt, e = WithContext (ExpectedLt found) l c rt).
Proof.
  induction fuel as [|f IH]; intros doc s p e s' H.
  - simpl in H. unfold bind, getPos, getLen, gets in H.
    destruct (pos s <? len s); discriminate.
  - rewrite parseLoop_S in H.
    step_inv H as p0 s0 H0. step_inv H as n0 s1 H1.
    destruct (p0 <? n0); [|discriminate].
    step_inv H as u s2 H2. step_inv H as p1 s3 H3. step_inv H as n1 s4 H4.
    destruct (p1 =? n1 - 1); [discriminate|].
    step_inv H as c s5 H5.
    destruct (Byte.eqb c "<").
    + step_inv H as u1 s6 H6. step_inv H as res s7 H7.
      destruct res as [node [err|]]; simpl in H.
      * step_inv H as ce s8 H8. injection H as <- <- <-.
        left. split; [eapply parseNode_errNil; exact H7|].
        apply contextError_shape in H8 as (l & c0 & rt & ->). eauto.
      * step_inv H as u2 s8 H8. eapply IH; exact H.
    + step_inv H as p2 s6 H6. step_inv H as found s7 H7.
      step_inv H as ce s8 H8. injection H as <- <- <-.
      right. split; [reflexivity|].
      apply contextError_shape in H8 as (l & c0 & rt & ->). eauto.
Qed.

(** X10: when [Parse] returns an error, the error is one built by
    [contextError], and the node returned with it is nil unless the error is
    [expected '<'], in which case it is the Document node created at the
    start of [Parse]. *)
Theorem a_failed_Parse_returns_nil_or_the_Document
    (decodeUTF16 : list byte -> option (list byte))
    (fuel : nat) (b : list byte) (s s' : State) (p : option nat) (e : error) :
  Parse decodeUTF16 fuel b s = Done ((p, Some e), s') ->
  (exists v l c rt, e = WithContext v l c rt) /\
  (p = None \/
   (exists found l c rt, e = WithContext (ExpectedLt found) l c rt) /\
   exists s0, parseStart decodeUTF16 b s = Done (p, s0) /\ p <> None).
Proof.
  unfold Parse. intros H. step_inv H as doc s0 Hstart.
  assert (Hdoc : doc <> None).
  { unfold parseStart in Hstart.
    step_inv Hstart as u1 s1 H1. step_inv Hstart as u2 s2 H2.
    step_inv Hstart as d s3 H3. step_inv Hstart as u3 s4 H4.
    injection Hstart as <- <-.
    unfold newNode in H3. step_inv H3 as n s5 H5. step_inv H3 as u4 s6 H6.
    injection H3 as <- <-.
    apply updNode_Done in H6 as (a & _ & -> & _). discriminate. }
  apply parseLoop_error_node in H as [[-> (v & l & c & rt & ->)]
                                     | [-> (found & l & c & rt & ->)]].
  - split; eauto.
  - split; [eauto|]. right. split; eauto.
Qed.

Lemma failed_Parse_witness :
  exists p e s',
    Parse rejectUTF16 8 (bytes "<a></b>") (initState NewDefaultRunXML)
      = Done ((p, Some e), s') /\ p = None.
Proof.
  destruct (Parse rejectUTF16 8 (bytes "<a></b>") (initState NewDefaultRunXML))
    as [[[p [e|]] s']| |] eqn:E; [|vm_compute in E; discriminate ..].
  exists p, e, s'. split; [reflexivity|].
  destruct (a_failed_Parse_returns_nil_or_the_Document _ _ _ _ _ _ _ E)
    as [_ [Hnil | [(found & l & c & rt & He) _]]]; [exact Hnil|].
  vm_compute in E. injection E as <- <- <-. discriminate He.
Defined.

(** ** [skipToChar] *)

Lemma skipToCharLoop_unfold b fuel s :
  skipToCharLoop fuel b s =
  let s1 := onR (setPosition (pos s + 1)) s in
  if pos s + 1 >=? len s then Done (Some UnexpectedEndOfData, s1)
  else match index (buf s) (pos s + 1) with
       | None => Crash IndexOutOfRange
       | Some c =>
           if Byte.eqb c b then Done (None, s1)
           else match fuel with
                | O => Timeout
                | S f => skipToCharLoop f b s1
                end
       end.
Proof.
  cbv zeta.
  destruct fuel; cbn [skipToCharLoop];
    unfold bind, addPos, modify, getPos, getLen, gets, byteAt, ret;
    cbv beta iota;
    change (pos (onR (setPosition (pos s + 1)) s)) with (pos s + 1);
    change (len (onR (setPosition (pos s + 1)) s)) with (len s);
    (destruct (pos s + 1 >=? len s); [reflexivity|]);
    cbv beta;
    change (buf (onR (setPosition (pos s + 1)) s)) with (buf s);
    (destruct (index (buf s) (pos s + 1)) as [c|]; [|reflexivity]);
    destruct (Byte.eqb c b); reflexivity.
Qed.

Lemma skipToCharLoop_finds b fuel : forall s j,
  -1 <= pos s -> pos s < j < len s ->
  j - pos s <= Z.of_nat fuel + 1 ->
  index (buf s) j = Some b ->
  (forall i, pos s < i < j -> index (buf s) i <> Some b) ->
  skipToCharLoop fuel b s = Done (None, onR (setPosition j) s).
Proof.
  induction fuel as [|f IH]; intros s j Hp Hj Hf Hb Hno;
    rewrite skipToCharLoop_unfold; cbv zeta;
    (destruct (pos s + 1 >=? len s) eqn:E; [lia|]);
    destruct (index_in_range (buf s) (pos s + 1) ltac:(unfold len in *; lia))
      as [c Hc]; rewrite Hc.
  - assert (j = pos s + 1) by lia. subst j.
    assert (c = b) by congruence. subst c.
    rewrite (Byte.byte_dec_lb eq_refl). reflexivity.
  - destruct (Z.eq_dec j (pos s + 1)) as [->|Hne].
    + assert (c = b) by congruence. subst c.
      rewrite (Byte.byte_dec_lb eq_refl). reflexivity.
    + destruct (Byte.eqb c b) eqn:Ecb.
      { apply Byte.byte_dec_bl in Ecb. subst c.
        exfalso. apply (Hno (pos s + 1)); [lia | exact Hc]. }
      set (s1 := onR (setPosition (pos s + 1)) s).
      rewrite (IH s1 j).
      * reflexivity.
      * change (pos s1) with (pos s + 1). lia.
      * change (pos s1) with (pos s + 1). change (len s1) with (len s). lia.
      * change (pos s1) with (pos s + 1). lia.
      * exact Hb.
      * intros i Hi. change (pos s1) with (pos s + 1) in Hi. apply Hno. lia.
Qed.

Lemma skipToChar_finds b s j :
  -1 <= pos s -> pos s < j < len s ->
  index (buf s) j = Some b ->
  (forall i, pos s < i < j -> index (buf s) i <> Some b) ->
  skipToChar b s = Done (None, onR (setPosition j) s).
Proof.
  intros Hp Hj Hb Hno. unfold skipToChar.
  apply skipToCharLoop_finds; try assumption. unfold len in *. lia.
Qed.

Lemma getNextByte_at s c :
  index (buf s) (pos s + 1) = Some c ->
  getNextByte s = Done (c, onR (setPosition (pos s + 1)) s).
Proof.
  intros Hc. rewrite getNextByte_unfold. cbv zeta.
  pose proof (index_Some_range _ _ _ Hc) as Hr.
  destruct (pos s + 1 >? len s - 1) eqn:E; [unfold len in *; lia|].
  rewrite Hc. reflexivity.
Qed.

(** [parseNode] on [!-c ... >] with [c] not a dash: no node, no error. *)
Lemma parseNode_bang_dash fuel s c j :
  index (buf s) (pos s) = Some "!"%byte ->
  index (buf s) (pos s + 1) = Some "-"%byte ->
  index (buf s) (pos s + 2) = Some c -> c <> "-"%byte ->
  pos s + 2 < j -> index (buf s) j = Some ">"%byte ->
  (forall i, pos s + 2 < i < j -> index (buf s) i <> Some ">"%byte) ->
  parseNode fuel s = Done ((None, None), onR (setPosition j) s).
Proof.
  intros H0 H1 H2 Hc Hj Hgt Hno.
  pose proof (index_Some_range _ _ _ H0) as R0.
  pose proof (index_Some_range _ _ _ Hgt) as Rj.
  unfold parseNode, parseNodeWith.
  unfold bind at 1, getPos at 1, gets at 1.
  unfold bind at 1, byteAt at 1. rewrite H0.
  change (Byte.eqb "!" "?") with false. change (Byte.eqb "!" "!") with true.
  cbv iota.
  unfold bind at 1. rewrite (getNextByte_at s _ H1).
  change (Byte.eqb "-" "-") with true. cbv iota.
  set (s1 := onR (setPosition (pos s + 1)) s).
  assert (H2' : index (buf s1) (pos s1 + 1) = Some c).
  { change (buf s1) with (buf s). change (pos s1) with (pos s + 1).
    replace (pos s + 1 + 1) with (pos s + 2) by lia. exact H2. }
  unfold bind at 1. rewrite (getNextByte_at s1 _ H2').
  assert (Ec : Byte.eqb c "-" = false).
  { destruct (Byte.eqb c "-") eqn:E; [|reflexivity].
    apply Byte.byte_dec_bl in E. contradiction. }
  rewrite Ec.
  set (s2 := onR (setPosition (pos s1 + 1)) s1).
  unfold bind at 1.
  rewrite (skipToChar_finds ">" s2 j).
  - reflexivity.
  - change (pos s2) with (pos s + 1 + 1). lia.
  - change (pos s2) with (pos s + 1 + 1). change (len s2) with (len s).
    unfold len. lia.
  - exact Hgt.
  - intros i Hi. change (pos s2) with (pos s + 1 + 1) in Hi. apply Hno. lia.
Qed.

(** X11: in the top-level loop of [Parse], when the buffer reads [<!-]
    followed by a byte other than [-] and, later, a [>], [parseNode] returns
    a nil node with a nil error ([case '-'] falls out of the switch to
    [skipToChar]); the loop then calls [doc.AppendNode(nil)], which panics
    with a nil dereference. *)
Theorem a_top_level_bang_dash_makes_Parse_panic
    (fuel : nat) (doc : option nat) (s s1 : State) (c : byte) (j : Z) :
  pos s < len s ->
  skip lookupWhitespace s = Done (tt, s1) ->
  pos s1 <> len s1 - 1 ->
  index (buf s1) (pos s1) = Some "<"%byte ->
  index (buf s1) (pos s1 + 1) = Some "!"%byte ->
  index (buf s1) (pos s1 + 2) = Some "-"%byte ->
  index (buf s1) (pos s1 + 3) = Some c -> c <> "-"%byte ->
  pos s1 + 3 < j -> index (buf s1) j = Some ">"%byte ->
  (forall i, pos s1 + 3 < i < j -> index (buf s1) i <> Some ">"%byte) ->
  parseLoop (S fuel) doc s = Crash NilDereference.
Proof.
  intros Hp Hskip Hlast Hlt Hbang Hdash Hc Hne Hj Hgt Hno.
  rewrite parseLoop_S.
  unfold bind at 1, getPos at 1, gets at 1.
  unfold bind at 1, getLen at 1, gets at 1.
  destruct (pos s <? len s) eqn:E; [|lia].
  unfold bind at 1. rewrite Hskip.
  unfold bind at 1, getPos at 1, gets at 1.
  unfold bind at 1, getLen at 1, gets at 1.
  destruct (pos s1 =? len s1 - 1) eqn:E1; [lia|].
  unfold bind at 1, getCurrentByte, bind at 1, getPos at 1, gets at 1, byteAt at 1.
  rewrite Hlt. change (Byte.eqb "<" "<") with true. cbv iota.
  unfold bind at 1, addPos at 1, modify at 1.
  set (s2 := onR (setPosition (pos s1 + 1)) s1).
  unfold bind at 1.
  rewrite (parseNode_bang_dash fuel s2 c j).
  - cbn [snd fst]. unfold bind at 1. rewrite AppendNode_of_nil_panics.
    reflexivity.
  - exact Hbang.
  - change (pos s2) with (pos s1 + 1). replace (pos s1 + 1 + 1) with (pos s1 + 2) by lia.
    exact Hdash.
  - change (pos s2) with (pos s1 + 1). replace (pos s1 + 1 + 2) with (pos s1 + 3) by lia.
    exact Hc.
  - exact Hne.
  - change (pos s2) with (pos s1 + 1). lia.
  - exact Hgt.
  - intros i Hi. change (pos s2) with (pos s1 + 1) in Hi. apply Hno. lia.
Qed.

Lemma bang_dash_witness :
  let s := bufferState "<!-x>" in
  (pos s < len s /\ skip lookupWhitespace s = Done (tt, s) /\
   pos s <> len s - 1) /\
  parseLoop 1 (Some 0%nat) s = Crash NilDereference.
Proof.
  intros s.
  assert (H1 : pos s < len s) by (vm_compute; reflexivity).
  assert (H2 : skip lookupWhitespace s = Done (tt, s)) by (vm_compute; reflexivity).
  assert (H3 : pos s <> len s - 1) by (vm_compute; discriminate).
  split; [auto|].
  apply (a_top_level_bang_dash_makes_Parse_panic 0 (Some 0%nat) s s "x"%byte 4
           H1 H2 H3); try (vm_compute; reflexivity); try discriminate; try lia.
  intros i Hi. change (pos s) with 0 in Hi. lia.
Defined.

(** ** Child chains *)

(** ** Stepping through field assignments *)

Lemma loadNode_run a n s :
  nodes s !! a = Some n -> loadNode (Some a) s = Done (n, s).
Proof. intros H. unfold loadNode. rewrite H. reflexivity. Qed.

Lemma updNode_run a n f s :
  nodes s !! a = Some n ->
  updNode (Some a) f s = Done (tt, setNodes (<[a := f n]> (nodes s)) s).
Proof. intros H. unfold updNode. rewrite H. reflexivity. Qed.

Lemma nodes_setNodes h s : nodes (setNodes h s) = h.
Proof. reflexivity. Qed.

Lemma setNodes_twice h1 h2 s : setNodes h1 (setNodes h2 s) = setNodes h1 s.
Proof. reflexivity. Qed.

Lemma lookup_insert_here {A} (l : list A) i x y :
  l !! i = Some y -> <[i := x]> l !! i = Some x.
Proof. intros H. apply list_lookup_insert_eq. eapply lookup_lt_Some; eauto. Qed.

(** Looks a cell up in a store written as a stack of assignments. *)
Ltac lk :=
  repeat first
    [ rewrite nodes_setNodes
    | rewrite list_lookup_insert_ne by congruence
    | erewrite lookup_insert_here by (lk; first [eassumption | reflexivity]) ].

Lemma bind_run {A B} (m : M A) (k : A -> M B) s a s1 :
  m s = Done (a, s1) -> bind m k s = k a s1.
Proof. intros H. unfold bind. rewrite H. reflexivity. Qed.

Lemma bind_assoc {A B C} (m : M A) (k : A -> M B) (k' : B -> M C) s :
  bind (bind m k) k' s = bind m (fun a => bind (k a) k') s.
Proof. unfold bind. destruct (m s) as [[a s1]| |]; reflexivity. Qed.

(** Runs the next statement of an operation. *)
Ltac run_load :=
  rewrite ?bind_assoc;
  erewrite (bind_run (loadNode _)) by (apply loadNode_run; lk; first [eassumption | reflexivity]);
  cbv beta.
Ltac run_upd :=
  rewrite ?bind_assoc;
  erewrite (bind_run (updNode _ _)) by (apply updNode_run; lk; first [eassumption | reflexivity]);
  cbv beta; rewrite ?setNodes_twice.
Ltac run_last :=
  erewrite updNode_run by (lk; first [eassumption | reflexivity]);
  rewrite ?setNodes_twice.

Lemma linked_lookup h l i a :
  linked h l -> l !! i = Some a ->
  exists n, h !! a = Some n /\
    prev n = match i with O => None | S j => l !! j end /\ next n = l !! S i.
Proof. intros H. apply H. Qed.

Lemma last_index {A} (l : list A) z :
  last l = Some z -> l !! (length l - 1)%nat = Some z /\ (0 < length l)%nat.
Proof.
  intros H. rewrite last_lookup in H.
  destruct l; [discriminate|]. simpl in *. rewrite Nat.sub_0_r. split; [exact H|lia].
Qed.

Lemma NoDup_index {A} (l : list A) i j x :
  NoDup l -> l !! i = Some x -> l !! j = Some x -> i = j.
Proof. intros H. eapply NoDup_lookup; eauto. Qed.

Lemma AppendNode_chain (s : State) (g c : nat) (l : list nat) :
  childrenOf (nodes s) g l ->
  detached (nodes s) c -> c ∉ l -> c <> g ->
  exists s',
    AppendNode (Some g) (Some c) s = Done (tt, s') /\
    childrenOf (nodes s') g (l ++ [c]) /\
    (forall a, a <> g -> a <> c -> last l <> Some a ->
       nodes s' !! a = nodes s !! a).
Proof.
  intros [Hfirst Hlast Hlinked Hparent Hnodup Hself] (cn & Hc & Hcp & Hcn) Hcl Hcg.
  destruct (nodes s !! g) as [gn|] eqn:Hg; [|discriminate].
  injection Hfirst as Hfirst. injection Hlast as Hlast.
  unfold AppendNode. run_load.
  destruct (last l) as [z|] eqn:Hz.
  - (* a last child [z] exists *)
    destruct (last_index _ _ Hz) as [Hzi Hlen].
    destruct (Hlinked _ _ Hzi) as (zn & Hzn & Hzprev & Hznext).
    assert (Hzl : z ∈ l) by (eapply list_elem_of_lookup_2; eauto).
    assert (Hzg : z <> g) by (intros ->; contradiction).
    assert (Hzc : z <> c) by (intros ->; contradiction).
    assert (Hfc : isNil (firstChild gn) = false).
    { rewrite Hfirst. destruct l; [discriminate|reflexivity]. }
    rewrite Hfc, Hlast.
    run_upd. run_load. rewrite Hlast. run_upd. run_upd. run_last.
    eexists. split; [reflexivity|]. split; [split|].
    + lk. simpl. rewrite Hfirst. f_equal. destruct l; [discriminate|reflexivity].
    + lk. simpl. rewrite last_snoc. reflexivity.
    + intros i a Hi. rewrite nodes_setNodes.
      destruct (decide (i = length l)) as [->|Hne].
      * rewrite lookup_app_r in Hi by lia. rewrite Nat.sub_diag in Hi.
        injection Hi as <-. lk. eexists. split; [reflexivity|]. simpl.
        split.
        -- assert (Hk : exists k, length l = S k /\ l !! k = Some z).
           { exists (length l - 1)%nat. split; [lia | exact Hzi]. }
           destruct Hk as (k & -> & Hk).
           rewrite lookup_app_l by (apply lookup_lt_Some in Hk; lia).
           rewrite Hk. reflexivity.
        -- rewrite lookup_ge_None_2; [exact Hcn|]. rewrite length_app. simpl. lia.
      * assert (Hil : (i < length l)%nat).
        { apply lookup_lt_Some in Hi. rewrite length_app in Hi. simpl in Hi. lia. }
        rewrite lookup_app_l in Hi by lia.
        destruct (Hlinked _ _ Hi) as (n & Hn & Hnp & Hnn).
        assert (Hal : a ∈ l) by (eapply list_elem_of_lookup_2; eauto).
        assert (a <> c) by (intros ->; contradiction).
        assert (a <> g) by (intros ->; contradiction).
        assert (Hprev : match i with O => None | S j => (l ++ [c]) !! j end
                        = match i with O => None | S j => l !! j end).
        { destruct i; [reflexivity|]. apply lookup_app_l. lia. }
        rewrite Hprev.
        destruct (decide (a = z)) as [->|Haz].
        -- assert (i = (length l - 1)%nat) by (eapply NoDup_index; eauto). subst i.
           lk. eexists. split; [reflexivity|]. simpl.
           assert (n = zn) by congruence. subst n.
           split; [exact Hnp|].
           rewrite lookup_app_r by lia.
           replace (S (length l - 1) - length l)%nat with 0%nat by lia. reflexivity.
        -- lk. exists n. split; [exact Hn|]. split; [exact Hnp|].
           rewrite Hnn.
           destruct (decide (S i = length l)) as [E|E].
           ++ exfalso. apply Haz.
              assert (i = (length l - 1)%nat) by lia. subst i. congruence.
           ++ symmetry. apply lookup_app_l. lia.
    + intros a Ha. rewrite nodes_setNodes. apply elem_of_app in Ha as [Ha|Ha].
      * assert (a <> c) by (intros ->; contradiction).
        assert (a <> g) by (intros ->; contradiction).
        specialize (Hparent _ Ha).
        destruct (decide (a = z)) as [->|Haz].
        -- lk. rewrite Hzn in Hparent. simpl in *. exact Hparent.
        -- lk. exact Hparent.
      * apply list_elem_of_singleton in Ha. subst a. lk. reflexivity.
    + apply NoDup_app. split; [exact Hnodup|]. split; [|apply NoDup_singleton].
      intros x Hx Hxc. apply list_elem_of_singleton in Hxc. subst x. contradiction.
    + intros Hin. apply elem_of_app in Hin as [Hin|Hin]; [contradiction|].
      apply list_elem_of_singleton in Hin. congruence.
    + intros a Hag Hac Haz. rewrite nodes_setNodes.
      assert (a <> z) by congruence. lk. reflexivity.
  - (* no child yet *)
    apply last_None in Hz. subst l. simpl in Hfirst. rewrite Hfirst.
    simpl isNil. cbv iota.
    run_upd. run_upd. run_last.
    eexists. split; [reflexivity|]. split; [split|].
    + lk. reflexivity.
    + lk. reflexivity.
    + intros i a Hi. destruct i; [|discriminate]. injection Hi as <-.
      lk. eexists. split; [reflexivity|]. simpl. auto.
    + intros a Ha. apply list_elem_of_singleton in Ha. subst a. lk. reflexivity.
    + apply NoDup_singleton.
    + intros Hin. apply list_elem_of_singleton in Hin. congruence.
    + intros a Hag Hac _. lk. reflexivity.
Qed.

Lemma PrependNode_chain (s : State) (g c : nat) (l : list nat) :
  childrenOf (nodes s) g l ->
  detached (nodes s) c -> c ∉ l -> c <> g ->
  exists s',
    PrependNode (Some g) (Some c) s = Done (tt, s') /\
    childrenOf (nodes s') g (c :: l) /\
    (forall a, a <> g -> a <> c -> head l <> Some a ->
       nodes s' !! a = nodes s !! a).
Proof.
  intros [Hfirst Hlast Hlinked Hparent Hnodup Hself] (cn & Hc & Hcp & Hcn) Hcl Hcg.
  destruct (nodes s !! g) as [gn|] eqn:Hg; [|discriminate].
  injection Hfirst as Hfirst. injection Hlast as Hlast.
  unfold PrependNode. run_load.
  destruct l as [|b l'].
  - simpl in Hfirst. rewrite Hfirst. simpl isNil. cbv iota.
    run_upd. run_upd. run_last.
    eexists. split; [reflexivity|]. split; [split|].
    + lk. reflexivity.
    + lk. reflexivity.
    + intros i a Hi. destruct i; [|discriminate]. injection Hi as <-.
      lk. eexists. split; [reflexivity|]. simpl. auto.
    + intros a Ha. apply list_elem_of_singleton in Ha. subst a. lk. reflexivity.
    + apply NoDup_singleton.
    + intros Hin. apply list_elem_of_singleton in Hin. congruence.
    + intros a Hag Hac _. lk. reflexivity.
  - simpl in Hfirst. rewrite Hfirst. simpl isNil. cbv iota.
    destruct (Hlinked 0%nat b eq_refl) as (bn & Hbn & Hbprev & Hbnext).
    assert (Hbl : b ∈ b :: l') by (left).
    assert (Hbg : b <> g) by (intros ->; contradiction).
    assert (Hbc : b <> c) by (intros ->; contradiction).
    run_upd. run_load. rewrite Hfirst. run_upd. run_upd. run_last.
    eexists. split; [reflexivity|]. split; [split|].
    + lk. reflexivity.
    + lk. simpl. rewrite Hlast. reflexivity.
    + intros i a Hi. rewrite nodes_setNodes. destruct i as [|i].
      * injection Hi as <-. lk. eexists. split; [reflexivity|]. simpl. auto.
      * simpl in Hi. destruct (Hlinked _ _ Hi) as (n & Hn & Hnp & Hnn).
        assert (Hal : a ∈ b :: l') by (eapply list_elem_of_lookup_2; eauto).
        assert (a <> c) by (intros ->; contradiction).
        assert (a <> g) by (intros ->; contradiction).
        destruct (decide (a = b)) as [->|Hab].
        -- assert (i = 0%nat) by (eapply NoDup_index; eauto; reflexivity). subst i.
           lk. eexists. split; [reflexivity|]. simpl.
           assert (n = bn) by congruence. subst n. split; [reflexivity|exact Hnn].
        -- lk. exists n. split; [exact Hn|]. split; [|exact Hnn].
           destruct i as [|i]; [simpl in Hi; congruence|exact Hnp].
    + intros a Ha. rewrite nodes_setNodes. apply elem_of_cons in Ha as [->|Ha].
      * lk. reflexivity.
      * assert (a <> c) by (intros ->; contradiction).
        assert (a <> g) by (intros ->; contradiction).
        specialize (Hparent _ Ha).
        destruct (decide (a = b)) as [->|Hab].
        -- lk. rewrite Hbn in Hparent. simpl in *. exact Hparent.
        -- lk. exact Hparent.
    + apply NoDup_cons. split; assumption.
    + intros Hin. apply elem_of_cons in Hin as [Hin|Hin]; [congruence|contradiction].
    + intros a Hag Hac Hab. rewrite nodes_setNodes.
      assert (a <> b) by (simpl in Hab; congruence). lk. reflexivity.
Qed.

Lemma RemoveFirstNode_chain (s : State) (g : nat) (l : list nat) :
  childrenOf (nodes s) g l ->
  exists s',
    RemoveFirstNode (Some g) s = Done (tt, s') /\
    childrenOf (nodes s') g (tail l) /\
    (l = [] -> s' = s) /\
    (forall a, head l = Some a -> nodes s' !! a = nodes s !! a).
Proof.
  intros [Hfirst Hlast Hlinked Hparent Hnodup Hself].
  destruct (nodes s !! g) as [gn|] eqn:Hg; [|discriminate].
  injection Hfirst as Hfirst. injection Hlast as Hlast.
  unfold RemoveFirstNode. run_load.
  destruct l as [|a l'].
  - simpl in Hfirst. rewrite Hfirst. simpl isNil. cbv iota.
    exists s. split; [reflexivity|]. split; [|split; [reflexivity|discriminate]].
    split; simpl; try rewrite Hg; simpl; try congruence; auto; try (rewrite Hlast; reflexivity).
  - simpl in Hfirst. rewrite Hfirst. change (isNil (Some a)) with false. cbv iota.
    destruct (Hlinked 0%nat a eq_refl) as (an & Han & Haprev & Hanext).
    simpl in Hanext.
    assert (Hag : a <> g) by (intros ->; apply Hself; left).
    apply NoDup_cons in Hnodup as [Hal' Hnodup'].
    run_load. run_upd. run_load. simpl firstChild. rewrite Hanext.
    destruct l' as [|b l''].
    + change ([] !! 0%nat) with (@None nat). cbn [firstChild setFirstChild isNil].
      run_last.
      eexists. split; [reflexivity|]. split; [|split; [discriminate|]].
      * split; simpl; lk; simpl; auto.
        -- intros i x Hi. destruct i; discriminate.
        -- intros x Hx. apply elem_of_nil in Hx. contradiction.
        -- intros Hx. apply elem_of_nil in Hx. contradiction.
      * intros x [= <-]. lk. reflexivity.
    + change ((b :: l'') !! 0%nat) with (Some b). cbn [firstChild setFirstChild isNil].
      destruct (Hlinked 1%nat b eq_refl) as (bn & Hbn & Hbprev & Hbnext).
      assert (Hbg : b <> g) by (intros ->; apply Hself; right; left).
      assert (Hba : b <> a) by (intros ->; apply Hal'; left).
      run_last.
      eexists. split; [reflexivity|]. split; [|split; [discriminate|]].
      * split.
        -- lk. reflexivity.
        -- lk. simpl. rewrite Hlast. rewrite last_cons_cons. reflexivity.
        -- intros i x Hi. rewrite nodes_setNodes.
           destruct (Hlinked (S i) x Hi) as (n & Hn & Hnp & Hnn).
           assert (Hxl : x ∈ a :: b :: l'') by (apply (list_elem_of_lookup_2 _ (S i)); exact Hi).
           assert (x <> g) by (intros ->; contradiction).
           destruct (decide (x = b)) as [->|Hxb].
           ++ assert (i = 0%nat).
              { eapply (NoDup_index (b :: l'')); eauto. }
              subst i. lk. eexists. split; [reflexivity|]. simpl.
              assert (n = bn) by congruence. subst n. split; [reflexivity|exact Hnn].
           ++ lk. exists n. split; [exact Hn|]. split; [|exact Hnn].
              destruct i as [|i]; [simpl in Hi; congruence|exact Hnp].
        -- intros x Hx. rewrite nodes_setNodes.
           assert (Hxl : x ∈ a :: b :: l'') by (right; exact Hx).
           assert (x <> g) by (intros ->; contradiction).
           specialize (Hparent _ Hxl).
           destruct (decide (x = b)) as [->|Hxb].
           ++ lk. rewrite Hbn in Hparent. simpl in *. exact Hparent.
           ++ lk. exact Hparent.
        -- exact Hnodup'.
        -- intros Hin. apply Hself. right. exact Hin.
      * intros x [= <-]. rewrite nodes_setNodes. lk. reflexivity.
Qed.

Lemma RemoveLastNode_chain (s : State) (g : nat) (l : list nat) :
  childrenOf (nodes s) g l ->
  exists s',
    RemoveLastNode (Some g) s = Done (tt, s') /\
    childrenOf (nodes s') g (removelast l) /\
    (l = [] -> s' = s) /\
    (forall a, last l = Some a -> nodes s' !! a = nodes s !! a).
Proof.
  intros [Hfirst Hlast Hlinked Hparent Hnodup Hself].
  destruct (nodes s !! g) as [gn|] eqn:Hg; [|discriminate].
  injection Hfirst as Hfirst. injection Hlast as Hlast.
  unfold RemoveLastNode. run_load.
  destruct l as [|z l _] using rev_ind.
  - simpl in Hlast. rewrite Hlast. cbn [isNil].
    exists s. split; [reflexivity|]. split; [|split; [reflexivity|discriminate]].
    split; simpl; try rewrite Hg; simpl; try congruence; auto;
      try (rewrite Hfirst; reflexivity).
  - rewrite last_snoc in Hlast. rewrite Hlast. cbn [isNil].
    rewrite removelast_last.
    assert (Hzi : (l ++ [z]) !! length l = Some z).
    { rewrite lookup_app_r by lia. rewrite Nat.sub_diag. reflexivity. }
    destruct (Hlinked _ _ Hzi) as (zn & Hzn & Hzprev & Hznext).
    assert (Hzg : z <> g) by (intros ->; apply Hself; apply elem_of_app; right; left).
    apply NoDup_app in Hnodup as (Hnodup' & Hzl & _).
    assert (Hzl' : z ∉ l) by (intros Hin; apply (Hzl _ Hin); left).
    run_load. run_upd. run_load. cbn [lastChild setLastChild].
    destruct l as [|y l0 _] using rev_ind.
    + simpl in Hzprev. rewrite Hzprev. cbn [isNil].
      run_last.
      eexists. split; [reflexivity|]. split; [|split].
      * split; simpl; lk; simpl; auto.
        -- intros i x Hi. destruct i; discriminate.
        -- intros x Hx. apply elem_of_nil in Hx. contradiction.
        -- intros Hx. apply elem_of_nil in Hx. contradiction.
      * intros E. destruct (app_cons_not_nil _ _ _ (eq_sym E)).
      * rewrite last_snoc. intros x [= <-]. lk. reflexivity.
    + assert (Hyi : ((l0 ++ [y]) ++ [z]) !! length l0 = Some y).
      { rewrite lookup_app_l by (rewrite length_app; simpl; lia).
        rewrite lookup_app_r by lia. rewrite Nat.sub_diag. reflexivity. }
      assert (Hzp : prev zn = Some y).
      { rewrite Hzprev. rewrite length_app. simpl.
        replace (length l0 + 1)%nat with (S (length l0)) by lia. exact Hyi. }
      rewrite Hzp. cbn [isNil].
      destruct (Hlinked _ _ Hyi) as (yn & Hyn & Hyprev & Hynext).
      assert (Hyl : y ∈ l0 ++ [y]) by (apply elem_of_app; right; left).
      assert (Hyg : y <> g).
      { intros ->. apply Hself. apply elem_of_app. left. exact Hyl. }
      assert (Hyz : y <> z) by (intros ->; contradiction).
      run_last.
      eexists. split; [reflexivity|]. split; [|split].
      * split.
        -- lk. simpl. rewrite Hfirst. destruct l0; reflexivity.
        -- lk. simpl. rewrite last_snoc. reflexivity.
        -- intros i x Hi. rewrite nodes_setNodes.
           assert (Hlt : (i < length (l0 ++ [y]))%nat) by (eapply lookup_lt_Some; eauto).
           assert (Hi' : ((l0 ++ [y]) ++ [z]) !! i = Some x)
             by (rewrite lookup_app_l by exact Hlt; exact Hi).
           destruct (Hlinked _ _ Hi') as (n & Hn & Hnp & Hnn).
           assert (Hxl : x ∈ l0 ++ [y]) by (eapply list_elem_of_lookup_2; eauto).
           assert (x <> g).
           { intros ->. apply Hself. apply elem_of_app. left. exact Hxl. }
           assert (Hprev_eq : match i with O => None | S j => ((l0 ++ [y]) ++ [z]) !! j end
                              = match i with O => None | S j => (l0 ++ [y]) !! j end).
           { destruct i; [reflexivity|]. rewrite lookup_app_l by lia. reflexivity. }
           destruct (decide (x = y)) as [->|Hxy].
           ++ assert (i = length l0).
              { eapply (NoDup_index (l0 ++ [y])); eauto.
                rewrite lookup_app_r by lia. rewrite Nat.sub_diag. reflexivity. }
              subst i. lk. eexists. split; [reflexivity|]. simpl.
              assert (n = yn) by congruence. subst n. split.
              ** rewrite Hnp. exact Hprev_eq.
              ** symmetry. apply lookup_ge_None. rewrite length_app. simpl. lia.
           ++ lk. exists n. split; [exact Hn|]. split.
              ** rewrite Hnp. exact Hprev_eq.
              ** rewrite Hnn. rewrite length_app in Hlt. simpl in Hlt.
                 assert (i <> length l0).
                 { intros ->. apply Hxy.
                   rewrite lookup_app_r in Hi by lia. rewrite Nat.sub_diag in Hi.
                   simpl in Hi. congruence. }
                 rewrite lookup_app_l by (rewrite length_app; simpl; lia).
                 reflexivity.
        -- intros x Hx. rewrite nodes_setNodes.
           assert (Hxl : x ∈ (l0 ++ [y]) ++ [z]) by (apply elem_of_app; left; exact Hx).
           assert (x <> g) by (intros ->; contradiction).
           specialize (Hparent _ Hxl).
           destruct (decide (x = y)) as [->|Hxy].
           ++ lk. rewrite Hyn in Hparent. simpl in *. exact Hparent.
           ++ lk. exact Hparent.
        -- exact Hnodup'.
        -- intros Hin. apply Hself. apply elem_of_app. left. exact Hin.
      * intros E. destruct (app_cons_not_nil _ _ _ (eq_sym E)).
      * rewrite last_snoc. intros x [= <-]. rewrite nodes_setNodes. lk. reflexivity.
Qed.

Lemma lookup_mid {A} (l1 r : list A) j : (l1 ++ r) !! (length l1 + j)%nat = r !! j.
Proof.
  rewrite lookup_app_r by lia. f_equal. lia.
Qed.

Lemma lookup_common_prefix {A} (l1 : list A) p r r' j :
  (j <= length l1)%nat -> (l1 ++ p :: r) !! j = (l1 ++ p :: r') !! j.
Proof.
  intros Hj. destruct (decide (j < length l1)%nat) as [Hlt|Hge].
  - rewrite !lookup_app_l by exact Hlt. reflexivity.
  - assert (j = (length l1 + 0)%nat) as -> by lia. rewrite !lookup_mid. reflexivity.
Qed.

Lemma NoDup_lookup_ne {A} (l : list A) i j x y :
  NoDup l -> l !! i = Some x -> l !! j = Some y -> i <> j -> x <> y.
Proof.
  intros Hn Hi Hj Hij ->. apply Hij. eapply NoDup_lookup; eauto.
Qed.

Lemma ptrEq_refl p : ptrEq p p = true.
Proof. unfold ptrEq. apply bool_decide_eq_true. reflexivity. Qed.

Lemma ptrEq_ne p q : p <> q -> ptrEq p q = false.
Proof. unfold ptrEq. intros H. apply bool_decide_eq_false. exact H. Qed.

Lemma RemoveNode_chain (s : State) (g w : nat) (l1 l2 : list nat) :
  childrenOf (nodes s) g (l1 ++ w :: l2) ->
  exists s',
    RemoveNode (Some g) (Some w) s = Done (tt, s') /\
    childrenOf (nodes s') g (l1 ++ l2) /\
    nodes s' !! w = nodes s !! w.
Proof.
  intros Hco.
  destruct l1 as [|p l1 _] using rev_ind.
  { (* the first child *)
    destruct (RemoveFirstNode_chain s g _ Hco) as (s' & Hrun & Hco' & _ & Hw).
    destruct Hco as [Hfirst _ _ _ _ _].
    destruct (nodes s !! g) as [gn|] eqn:Hg; [|discriminate].
    injection Hfirst as Hfirst. simpl in Hfirst.
    exists s'. split; [|split; [exact Hco'|apply Hw; reflexivity]].
    unfold RemoveNode. run_load. rewrite Hfirst, ptrEq_refl. exact Hrun. }
  destruct l2 as [|nx l2].
  { (* the last child *)
    destruct (RemoveLastNode_chain s g _ Hco) as (s' & Hrun & Hco' & _ & Hw).
    rewrite removelast_last in Hco'. rewrite app_nil_r.
    destruct Hco as [Hfirst Hlast _ _ Hnodup _].
    destruct (nodes s !! g) as [gn|] eqn:Hg; [|discriminate].
    injection Hfirst as Hfirst. injection Hlast as Hlast.
    rewrite last_snoc in Hlast.
    exists s'. split; [|split; [exact Hco'|apply Hw; apply last_snoc]].
    unfold RemoveNode. run_load.
    rewrite ptrEq_ne.
    - rewrite Hlast, ptrEq_refl. exact Hrun.
    - rewrite Hfirst. intros E.
      assert (H0 : ((l1 ++ [p]) ++ [w]) !! 0%nat = Some w).
      { rewrite <- head_lookup. congruence. }
      assert (Hk : ((l1 ++ [p]) ++ [w]) !! (length (l1 ++ [p]) + 0)%nat = Some w)
        by (rewrite lookup_mid; reflexivity).
      pose proof (NoDup_index _ _ _ _ Hnodup H0 Hk) as Hidx.
      rewrite length_app in Hidx. simpl in Hidx. lia. }
  (* a child between two others *)
  rewrite <- !app_assoc in *. simpl in Hco. simpl.
  destruct Hco as [Hfirst Hlast Hlinked Hparent Hnodup Hself].
  destruct (nodes s !! g) as [gn|] eqn:Hg; [|discriminate].
  injection Hfirst as Hfirst. injection Hlast as Hlast.
  remember (length l1) as k eqn:Ek.
  set (old := l1 ++ p :: w :: nx :: l2) in *.
  assert (Hpi : old !! (k + 0)%nat = Some p) by (unfold old; rewrite Ek, lookup_mid; reflexivity).
  assert (Hwi : old !! (k + 1)%nat = Some w) by (unfold old; rewrite Ek, lookup_mid; reflexivity).
  assert (Hni : old !! (k + 2)%nat = Some nx) by (unfold old; rewrite Ek, lookup_mid; reflexivity).
  destruct (Hlinked _ _ Hpi) as (pn & Hpn & Hpprev & Hpnext).
  destruct (Hlinked _ _ Hwi) as (wn & Hwn & Hwprev & Hwnext).
  destruct (Hlinked _ _ Hni) as (nn & Hnn & Hnprev & Hnnext).
  assert (Hwp : prev wn = Some p).
  { rewrite Hwprev. replace (k + 1)%nat with (S (k + 0)) by lia. exact Hpi. }
  assert (Hwx : next wn = Some nx).
  { rewrite Hwnext. replace (S (k + 1))%nat with (k + 2)%nat by lia. exact Hni. }
  assert (Hin : forall i x, old !! i = Some x -> x <> g).
  { intros i x Hi ->. apply Hself. eapply list_elem_of_lookup_2; eauto. }
  assert (Hpg := Hin _ _ Hpi). assert (Hwg := Hin _ _ Hwi). assert (Hng := Hin _ _ Hni).
  assert (Hpw : p <> w) by (eapply NoDup_lookup_ne; eauto; lia).
  assert (Hpx : p <> nx) by (eapply NoDup_lookup_ne; eauto; lia).
  assert (Hxw : nx <> w) by (eapply NoDup_lookup_ne; eauto; lia).
  assert (Hhead : head old = head (l1 ++ p :: nx :: l2)).
  { rewrite !head_lookup. apply lookup_common_prefix. lia. }
  assert (Hlst : last old = last (l1 ++ p :: nx :: l2)).
  { unfold old. rewrite !last_app. reflexivity. }
  unfold RemoveNode. run_load.
  rewrite ptrEq_ne.
  2:{ rewrite Hfirst. rewrite head_lookup. intros E. symmetry in E.
      pose proof (NoDup_index _ _ _ _ Hnodup E Hwi). lia. }
  rewrite ptrEq_ne.
  2:{ rewrite Hlast. rewrite last_lookup. intros E. symmetry in E.
      pose proof (NoDup_index _ _ _ _ Hnodup E Hwi) as Hidx.
      unfold old in Hidx. rewrite length_app in Hidx. simpl in Hidx. lia. }
  run_load.
  assert (Hwpar : Parent (gbase wn) = Some g).
  { specialize (Hparent w). rewrite Hwn in Hparent. simpl in Hparent.
    assert (Hw_in : w ∈ old) by (eapply list_elem_of_lookup_2; eauto).
    specialize (Hparent Hw_in). congruence. }
  rewrite Hwpar, ptrEq_refl. cbn [negb].
  rewrite Hwp, Hwx. run_upd. run_load. rewrite Hwp, Hwx. run_last.
  eexists. split; [reflexivity|]. split; [split|].
  - lk. rewrite Hg. simpl. rewrite Hfirst, Hhead. reflexivity.
  - lk. rewrite Hg. simpl. rewrite Hlast, Hlst. reflexivity.
  - intros i x Hi. rewrite nodes_setNodes.
    destruct (decide (i < k)%nat) as [Hlt|Hge].
    + (* before [p] *)
      assert (Hi' : old !! i = Some x).
      { unfold old. rewrite (lookup_common_prefix _ _ _ (nx :: l2)) by lia. exact Hi. }
      destruct (Hlinked _ _ Hi') as (n & Hn & Hnp & Hnx).
      assert (x <> p) by (eapply NoDup_lookup_ne; eauto; lia).
      assert (x <> nx) by (eapply NoDup_lookup_ne; eauto; lia).
      lk. exists n. split; [exact Hn|]. split.
      * rewrite Hnp. destruct i as [|j]; [reflexivity|].
        unfold old. apply lookup_common_prefix. lia.
      * rewrite Hnx. unfold old. apply lookup_common_prefix. lia.
    + destruct (decide (i = k)) as [->|Hik].
      * (* [p] *)
        replace k with (k + 0)%nat in Hi by lia. rewrite Ek in Hi; rewrite lookup_mid in Hi.
        injection Hi as <-. lk. eexists. split; [reflexivity|]. simpl. split.
        -- rewrite Hpprev. replace (k + 0)%nat with k by lia.
           destruct k as [|j]; [reflexivity|].
           unfold old. apply lookup_common_prefix. lia.
        -- replace (S k) with (k + 1)%nat by lia. rewrite Ek, lookup_mid. reflexivity.
      * destruct (decide (i = S k)) as [->|Hik'].
        -- (* [nx] *)
           replace (S k) with (k + 1)%nat in Hi by lia. rewrite Ek in Hi; rewrite lookup_mid in Hi.
           injection Hi as <-. lk. eexists. split; [reflexivity|]. simpl. split.
           ++ replace k with (k + 0)%nat at 1 by lia. rewrite Ek, lookup_mid. reflexivity.
           ++ rewrite Hnnext. unfold old.
              replace (S (k + 2)) with (k + 3)%nat by lia.
              replace (S (S k)) with (k + 2)%nat by lia.
              rewrite Ek, !lookup_mid. reflexivity.
        -- (* after [nx] *)
           assert (Hd : exists d, i = (k + (2 + d))%nat) by (exists (i - k - 2)%nat; lia).
           destruct Hd as [d ->].
           assert (Hi' : old !! (k + (3 + d))%nat = Some x).
           { unfold old. rewrite Ek in Hi |- *. rewrite lookup_mid in Hi |- *. exact Hi. }
           destruct (Hlinked _ _ Hi') as (n & Hn & Hnp & Hnx).
           assert (x <> p) by (eapply NoDup_lookup_ne; eauto; lia).
           assert (x <> nx) by (eapply NoDup_lookup_ne; eauto; lia).
           lk. exists n. split; [exact Hn|]. split.
           ++ rewrite Hnp. unfold old.
              replace (k + (3 + d))%nat with (S (k + (2 + d))) by lia.
              replace (k + (2 + d))%nat with (S (k + (1 + d))) at 2 by lia.
              rewrite Ek, !lookup_mid. reflexivity.
           ++ rewrite Hnx. unfold old.
              replace (S (k + (3 + d))) with (k + (4 + d))%nat by lia.
              replace (S (k + (2 + d))) with (k + (3 + d))%nat by lia.
              rewrite Ek, !lookup_mid. reflexivity.
  - intros x Hx. rewrite nodes_setNodes.
    assert (Hxl : x ∈ old).
    { unfold old. apply elem_of_app in Hx as [Hx|Hx]; apply elem_of_app; [left; exact Hx|].
      right. apply elem_of_cons in Hx as [->|Hx]; [left|].
      apply elem_of_cons in Hx as [->|Hx]; right; right; [left|right; exact Hx]. }
    assert (x <> g) by (intros ->; contradiction).
    specialize (Hparent _ Hxl).
    destruct (decide (x = nx)) as [->|Hx1].
    + lk. rewrite Hnn in Hparent. simpl in *. exact Hparent.
    + destruct (decide (x = p)) as [->|Hx2].
      * lk. rewrite Hpn in Hparent. simpl in *. exact Hparent.
      * lk. exact Hparent.
  - unfold old in Hnodup. apply NoDup_app in Hnodup as (H1 & H2 & H3).
    apply NoDup_app. split; [exact H1|]. split.
    + intros x Hx Hx'. apply (H2 x Hx).
      apply elem_of_cons in Hx' as [->|Hx']; [left|right; right; exact Hx'].
    + apply NoDup_cons in H3 as [H3 H4]. apply NoDup_cons in H4 as [H4 H5].
      apply NoDup_cons. split; [|exact H5].
      intros Hx. apply H3. right. exact Hx.
  - intros Hx. apply Hself. unfold old.
    apply elem_of_app in Hx as [Hx|Hx]; apply elem_of_app; [left; exact Hx|].
    right. apply elem_of_cons in Hx as [->|Hx]; [left|right; right; exact Hx].
  - rewrite nodes_setNodes. lk. reflexivity.
Qed.

Lemma InsertNode_chain (s : State) (g w c : nat) (l1 l2 : list nat) :
  childrenOf (nodes s) g (l1 ++ w :: l2) ->
  detached (nodes s) c -> c ∉ l1 ++ w :: l2 -> c <> g ->
  exists s',
    InsertNode (Some g) (Some w) (Some c) s = Done (tt, s') /\
    childrenOf (nodes s') g (l1 ++ c :: w :: l2).
Proof.
  intros Hco Hdet Hcl Hcg.
  destruct l1 as [|p l1 _] using rev_ind.
  { (* before the first child *)
    destruct (PrependNode_chain s g c _ Hco Hdet Hcl Hcg) as (s' & Hrun & Hco' & _).
    destruct Hco as [Hfirst _ _ _ _ _].
    destruct (nodes s !! g) as [gn|] eqn:Hg; [|discriminate].
    injection Hfirst as Hfirst. simpl in Hfirst.
    exists s'. split; [|exact Hco'].
    unfold InsertNode. run_load. rewrite Hfirst, ptrEq_refl. exact Hrun. }
  rewrite <- !app_assoc in *. simpl in Hco, Hcl. simpl.
  destruct Hco as [Hfirst Hlast Hlinked Hparent Hnodup Hself].
  destruct Hdet as (cn & Hc & Hcp & Hcn).
  destruct (nodes s !! g) as [gn|] eqn:Hg; [|discriminate].
  injection Hfirst as Hfirst. injection Hlast as Hlast.
  remember (length l1) as k eqn:Ek.
  set (old := l1 ++ p :: w :: l2) in *.
  assert (Hpi : old !! (k + 0)%nat = Some p)
    by (unfold old; rewrite Ek, lookup_mid; reflexivity).
  assert (Hwi : old !! (k + 1)%nat = Some w)
    by (unfold old; rewrite Ek, lookup_mid; reflexivity).
  destruct (Hlinked _ _ Hpi) as (pn & Hpn & Hpprev & Hpnext).
  destruct (Hlinked _ _ Hwi) as (wn & Hwn & Hwprev & Hwnext).
  assert (Hwp : prev wn = Some p).
  { rewrite Hwprev. replace (k + 1)%nat with (S (k + 0)) by lia. exact Hpi. }
  assert (Hin : forall i x, old !! i = Some x -> x <> g /\ x <> c).
  { intros i x Hi.
    assert (x ∈ old) by (eapply list_elem_of_lookup_2; eauto).
    split; intros ->; contradiction. }
  destruct (Hin _ _ Hpi) as [Hpg Hpc]. destruct (Hin _ _ Hwi) as [Hwg Hwc].
  assert (Hpw : p <> w) by (eapply NoDup_lookup_ne; eauto; lia).
  assert (Hhead : head old = head (l1 ++ p :: c :: w :: l2)).
  { rewrite !head_lookup. apply lookup_common_prefix. lia. }
  assert (Hlst : last old = last (l1 ++ p :: c :: w :: l2)).
  { unfold old. rewrite !last_app. reflexivity. }
  unfold InsertNode. run_load.
  rewrite ptrEq_ne.
  2:{ rewrite Hfirst. rewrite head_lookup. intros E.
      pose proof (NoDup_index _ _ _ _ Hnodup E Hwi). lia. }
  run_load.
  assert (Hwpar : Parent (gbase wn) = Some g).
  { specialize (Hparent w). rewrite Hwn in Hparent. simpl in Hparent.
    assert (Hw_in : w ∈ old) by (eapply list_elem_of_lookup_2; eauto).
    specialize (Hparent Hw_in). congruence. }
  rewrite Hwpar, ptrEq_refl. cbn [negb].
  rewrite Hwp. run_upd. run_upd. run_load. rewrite Hwp. run_upd. run_upd. run_last.
  eexists. split; [reflexivity|]. split.
  - lk. rewrite Hg. simpl. rewrite Hfirst, Hhead. reflexivity.
  - lk. rewrite Hg. simpl. rewrite Hlast, Hlst. reflexivity.
  - intros i x Hi. rewrite nodes_setNodes.
    destruct (decide (i < k)%nat) as [Hlt|Hge].
    + (* before [p] *)
      assert (Hi' : old !! i = Some x).
      { unfold old. rewrite (lookup_common_prefix _ _ _ (c :: w :: l2)) by lia. exact Hi. }
      destruct (Hlinked _ _ Hi') as (n & Hn & Hnp & Hnx).
      destruct (Hin _ _ Hi') as [Hxg Hxc].
      assert (x <> p) by (eapply NoDup_lookup_ne; eauto; lia).
      assert (x <> w) by (eapply NoDup_lookup_ne; eauto; lia).
      lk. exists n. split; [exact Hn|]. split.
      * rewrite Hnp. destruct i as [|j]; [reflexivity|].
        unfold old. apply lookup_common_prefix. lia.
      * rewrite Hnx. unfold old. apply lookup_common_prefix. lia.
    + destruct (decide (i = k)) as [->|Hik].
      * (* [p] *)
        replace k with (k + 0)%nat in Hi by lia. rewrite Ek in Hi; rewrite lookup_mid in Hi.
        injection Hi as <-. lk. eexists. split; [reflexivity|]. simpl. split.
        -- rewrite Hpprev. replace (k + 0)%nat with k by lia.
           destruct k as [|j]; [reflexivity|].
           unfold old. apply lookup_common_prefix. lia.
        -- replace (S k) with (k + 1)%nat by lia. rewrite Ek, lookup_mid. reflexivity.
      * destruct (decide (i = S k)) as [->|Hik'].
        -- (* [c] *)
           replace (S k) with (k + 1)%nat in Hi by lia.
           rewrite Ek in Hi; rewrite lookup_mid in Hi.
           injection Hi as <-. lk. eexists. split; [reflexivity|]. simpl. split.
           ++ replace k with (k + 0)%nat at 1 by lia. rewrite Ek, lookup_mid. reflexivity.
           ++ replace (S (S k)) with (k + 2)%nat by lia. rewrite Ek, lookup_mid. reflexivity.
        -- destruct (decide (i = S (S k))) as [->|Hik''].
           ++ (* [w] *)
              replace (S (S k)) with (k + 2)%nat in Hi by lia.
              rewrite Ek in Hi; rewrite lookup_mid in Hi.
              injection Hi as <-. lk. eexists. split; [reflexivity|]. simpl. split.
              ** replace (S k) with (k + 1)%nat by lia. rewrite Ek, lookup_mid. reflexivity.
              ** rewrite Hwnext. unfold old.
                 replace (S (k + 1)) with (k + 2)%nat by lia.
                 replace (S (S (S k))) with (k + 3)%nat by lia.
                 rewrite Ek, !lookup_mid. reflexivity.
           ++ (* after [w] *)
              assert (Hd : exists d, i = (k + (3 + d))%nat) by (exists (i - k - 3)%nat; lia).
              destruct Hd as [d ->].
              assert (Hi' : old !! (k + (2 + d))%nat = Some x).
              { unfold old. rewrite Ek in Hi |- *. rewrite lookup_mid in Hi |- *. exact Hi. }
              destruct (Hlinked _ _ Hi') as (n & Hn & Hnp & Hnx).
              destruct (Hin _ _ Hi') as [Hxg Hxc].
              assert (x <> p) by (eapply NoDup_lookup_ne; eauto; lia).
              assert (x <> w) by (eapply NoDup_lookup_ne; eauto; lia).
              lk. exists n. split; [exact Hn|]. split.
              ** rewrite Hnp. unfold old.
                 replace (k + (2 + d))%nat with (S (k + (1 + d))) by lia.
                 replace (k + (3 + d))%nat with (S (k + (2 + d))) by lia.
                 rewrite Ek, !lookup_mid. reflexivity.
              ** rewrite Hnx. unfold old.
                 replace (S (k + (2 + d))) with (k + (3 + d))%nat by lia.
                 replace (S (k + (3 + d))) with (k + (4 + d))%nat by lia.
                 rewrite Ek, !lookup_mid. reflexivity.
  - intros x Hx. rewrite nodes_setNodes.
    destruct (decide (x = c)) as [->|Hxc]; [lk; reflexivity|].
    assert (Hxl : x ∈ old).
    { unfold old. apply elem_of_app in Hx as [Hx|Hx]; apply elem_of_app; [left; exact Hx|].
      right. apply elem_of_cons in Hx as [->|Hx]; [left|].
      apply elem_of_cons in Hx as [->|Hx]; [contradiction|right; exact Hx]. }
    assert (x <> g) by (intros ->; contradiction).
    specialize (Hparent _ Hxl).
    destruct (decide (x = w)) as [->|Hx1].
    + lk. rewrite Hwn in Hparent. simpl in *. exact Hparent.
    + destruct (decide (x = p)) as [->|Hx2].
      * lk. rewrite Hpn in Hparent. simpl in *. exact Hparent.
      * lk. exact Hparent.
  - unfold old in Hnodup, Hcl. apply NoDup_app in Hnodup as (H1 & H2 & H3).
    apply NoDup_app. split; [exact H1|]. split.
    + intros x Hx Hx'. apply elem_of_cons in Hx' as [->|Hx'].
      * apply (H2 p Hx). left.
      * apply elem_of_cons in Hx' as [->|Hx'].
        -- apply Hcl. apply elem_of_app. left. exact Hx.
        -- apply (H2 x Hx). right. exact Hx'.
    + apply NoDup_cons in H3 as [H3 H4].
      apply NoDup_cons. split.
      * intros Hx. apply elem_of_cons in Hx as [->|Hx]; [congruence|contradiction].
      * apply NoDup_cons. split; [|exact H4].
        intros Hx. apply Hcl. apply elem_of_app. right. right. exact Hx.
  - intros Hx. unfold old in Hself.
    apply elem_of_app in Hx as [Hx|Hx].
    + apply Hself. apply elem_of_app. left. exact Hx.
    + apply elem_of_cons in Hx as [->|Hx]; [apply Hself; apply elem_of_app; right; left|].
      apply elem_of_cons in Hx as [Hx|Hx]; [congruence|].
      apply Hself. apply elem_of_app. right. right. exact Hx.
Qed.

Lemma closeLoop_chain h g gn l :
  h !! g = Some gn -> lastChild gn = last l -> linked h l -> NoDup l ->
  forall fuel i a, l !! i = Some a -> (length l - i <= S fuel)%nat ->
  closeLoop fuel h (Some g) (Some a) = Done (Some <$> drop i l).
Proof.
  intros Hg Hlast Hlinked Hnodup.
  induction fuel as [|f IH]; intros i a Hi Hfuel.
  - assert (Hlt : (i < length l)%nat) by (eapply lookup_lt_Some; eauto).
    assert (Hz : last l = Some a).
    { rewrite last_lookup. rewrite <- Hi. f_equal. lia. }
    rewrite closeLoop_eq. simpl load. rewrite Hg. simpl obind.
    rewrite Hlast, Hz, ptrEq_refl.
    rewrite (drop_S _ _ _ Hi). rewrite drop_ge by lia. reflexivity.
  - assert (Hlt : (i < length l)%nat) by (eapply lookup_lt_Some; eauto).
    rewrite closeLoop_eq. simpl load. rewrite Hg. simpl obind.
    rewrite (drop_S _ _ _ Hi).
    destruct (decide (S i = length l)) as [Hend|Hmore].
    + assert (Hz : last l = Some a).
      { rewrite last_lookup. rewrite <- Hi. f_equal. lia. }
      rewrite Hlast, Hz, ptrEq_refl. rewrite drop_ge by lia. reflexivity.
    + destruct (lookup_lt_is_Some_2 l (S i)) as [b Hb]; [lia|].
      rewrite ptrEq_ne.
      2:{ rewrite Hlast, last_lookup. intros E. symmetry in E.
          pose proof (NoDup_index _ _ _ _ Hnodup E Hi). lia. }
      destruct (Hlinked _ _ Hi) as (n & Hn & _ & Hnx).
      rewrite Hn. simpl obind. rewrite Hnx, Hb.
      rewrite (IH (S i) b Hb) by lia. reflexivity.
Qed.

Lemma SendCloseChildren_chain h g l fuel :
  childrenOf h g l -> (length l <= S fuel)%nat ->
  SendCloseChildren fuel h (Some g) = Done (Some <$> l).
Proof.
  intros [Hfirst Hlast Hlinked _ Hnodup _] Hfuel.
  destruct (h !! g) as [gn|] eqn:Hg; [|discriminate].
  injection Hfirst as Hfirst. injection Hlast as Hlast.
  unfold SendCloseChildren. simpl load. rewrite Hg. simpl obind.
  rewrite Hfirst. destruct l as [|a l']; [reflexivity|].
  cbn [head isNil].
  rewrite (closeLoop_chain h g gn (a :: l') Hg Hlast Hlinked Hnodup fuel 0%nat a eq_refl).
  - reflexivity.
  - simpl in *. lia.
Qed.

(** Chains of a concrete store are checked by evaluation. *)
Ltac concrete_chain :=
  split;
  [ vm_compute; reflexivity
  | vm_compute; reflexivity
  | intros i a Hi;
    repeat (destruct i as [|i];
            [ injection Hi as <-; eexists; split; [vm_compute; reflexivity|];
              split; reflexivity | ]);
    discriminate Hi
  | intros a Ha;
    repeat (apply elem_of_cons in Ha as [-> | Ha]; [vm_compute; reflexivity|]);
    apply elem_of_nil in Ha; destruct Ha
  | apply (bool_decide_unpack _); vm_compute; exact I
  | apply (bool_decide_unpack _); vm_compute; exact I ].

Ltac concrete_detached :=
  eexists; split; [vm_compute; reflexivity|]; split; reflexivity.

Ltac concrete_notin := apply (bool_decide_unpack _); vm_compute; exact I.

(** X17: when the children of [g] form a well-formed chain [l] (first and
    last pointers, [prev]/[next] links and Parent all consistent) and [c] is
    a detached node outside it, [g.AppendNode(c)] returns and the children
    of [g] form the well-formed chain [l ++ [c]]; the only nodes written are
    [g], [c] and the former last child; and [SendCloseChildren] on [g] then
    sends [l] followed by [c]. *)
Theorem AppendNode_appends (s : State) (g c : nat) (l : list nat) :
  childrenOf (nodes s) g l ->
  detached (nodes s) c -> c ∉ l -> c <> g ->
  exists s',
    AppendNode (Some g) (Some c) s = Done (tt, s') /\
    childrenOf (nodes s') g (l ++ [c]) /\
    (forall a, a <> g -> a <> c -> last l <> Some a ->
       nodes s' !! a = nodes s !! a) /\
    (forall fuel, (length (l ++ [c]) <= fuel)%nat ->
       SendCloseChildren fuel (nodes s') (Some g) = Done (Some <$> l ++ [c])).
Proof.
  intros Hco Hdet Hcl Hcg.
  destruct (AppendNode_chain s g c l Hco Hdet Hcl Hcg) as (s' & Hrun & Hco' & Hframe).
  exists s'. split; [exact Hrun|]. split; [exact Hco'|]. split; [exact Hframe|].
  intros fuel Hfuel. apply SendCloseChildren_chain; [exact Hco'|lia].
Qed.

Lemma AppendNode_witness :
  let s := withFresh "<a><b/><c/></a>" in
  childrenOf (nodes s) 1 [2; 3]%nat /\
  exists s',
    AppendNode (Some 1%nat) (Some 4%nat) s = Done (tt, s') /\
    childrenOf (nodes s') 1 [2; 3; 4]%nat /\
    SendCloseChildren 3 (nodes s') (Some 1%nat)
    = Done [Some 2; Some 3; Some 4]%nat.
Proof.
  intros s.
  assert (Hco : childrenOf (nodes s) 1 [2; 3]%nat) by concrete_chain.
  split; [exact Hco|].
  destruct (AppendNode_appends s 1 4 [2; 3]%nat Hco
              ltac:(concrete_detached) ltac:(concrete_notin) ltac:(discriminate))
    as (s' & Hrun & Hco' & _ & Hsend).
  exists s'. split; [exact Hrun|]. split; [exact Hco'|].
  exact (Hsend 3%nat ltac:(simpl; lia)).
Defined.

(** X18: when the children of [g] form a well-formed chain [l] and [c] is a
    detached node outside it, [g.PrependNode(c)] returns and the children of
    [g] form the well-formed chain [c :: l]; the only nodes written are [g],
    [c] and the former first child; and [SendCloseChildren] on [g] then
    sends [c] followed by [l]. *)
Theorem PrependNode_prepends (s : State) (g c : nat) (l : list nat) :
  childrenOf (nodes s) g l ->
  detached (nodes s) c -> c ∉ l -> c <> g ->
  exists s',
    PrependNode (Some g) (Some c) s = Done (tt, s') /\
    childrenOf (nodes s') g (c :: l) /\
    (forall a, a <> g -> a <> c -> head l <> Some a ->
       nodes s' !! a = nodes s !! a) /\
    (forall fuel, (length (c :: l) <= fuel)%nat ->
       SendCloseChildren fuel (nodes s') (Some g) = Done (Some <$> c :: l)).
Proof.
  intros Hco Hdet Hcl Hcg.
  destruct (PrependNode_chain s g c l Hco Hdet Hcl Hcg) as (s' & Hrun & Hco' & Hframe).
  exists s'. split; [exact Hrun|]. split; [exact Hco'|]. split; [exact Hframe|].
  intros fuel Hfuel. apply SendCloseChildren_chain; [exact Hco'|lia].
Qed.

Lemma PrependNode_witness :
  let s := withFresh "<a><b/><c/></a>" in
  childrenOf (nodes s) 1 [2; 3]%nat /\
  exists s',
    PrependNode (Some 1%nat) (Some 4%nat) s = Done (tt, s') /\
    childrenOf (nodes s') 1 [4; 2; 3]%nat /\
    SendCloseChildren 3 (nodes s') (Some 1%nat)
    = Done [Some 4; Some 2; Some 3]%nat.
Proof.
  intros s.
  assert (Hco : childrenOf (nodes s) 1 [2; 3]%nat) by concrete_chain.
  split; [exact Hco|].
  destruct (PrependNode_prepends s 1 4 [2; 3]%nat Hco
              ltac:(concrete_detached) ltac:(concrete_notin) ltac:(discriminate))
    as (s' & Hrun & Hco' & _ & Hsend).
  exists s'. split; [exact Hrun|]. split; [exact Hco'|].
  exact (Hsend 3%nat ltac:(simpl; lia)).
Defined.

(** X19: when the children of [g] form the well-formed chain [l1 ++ w :: l2]
    and [c] is a detached node outside it, [g.InsertNode(w, c)] returns (it
    does not take the panic branch) and the children of [g] form the well-
    formed chain [l1 ++ c :: w :: l2], which is what [SendCloseChildren]
    then sends. *)
Theorem InsertNode_inserts_before (s : State) (g w c : nat) (l1 l2 : list nat) :
  childrenOf (nodes s) g (l1 ++ w :: l2) ->
  detached (nodes s) c -> c ∉ l1 ++ w :: l2 -> c <> g ->
  exists s',
    InsertNode (Some g) (Some w) (Some c) s = Done (tt, s') /\
    childrenOf (nodes s') g (l1 ++ c :: w :: l2) /\
    (forall fuel, (length (l1 ++ c :: w :: l2) <= fuel)%nat ->
       SendCloseChildren fuel (nodes s') (Some g)
       = Done (Some <$> l1 ++ c :: w :: l2)).
Proof.
  intros Hco Hdet Hcl Hcg.
  destruct (InsertNode_chain s g w c l1 l2 Hco Hdet Hcl Hcg) as (s' & Hrun & Hco').
  exists s'. split; [exact Hrun|]. split; [exact Hco'|].
  intros fuel Hfuel. apply SendCloseChildren_chain; [exact Hco'|lia].
Qed.

Lemma InsertNode_witness :
  let s := withFresh "<a><b/><c/></a>" in
  childrenOf (nodes s) 1 ([2] ++ 3 :: [])%nat /\
  exists s',
    InsertNode (Some 1%nat) (Some 3%nat) (Some 4%nat) s = Done (tt, s') /\
    childrenOf (nodes s') 1 [2; 4; 3]%nat /\
    SendCloseChildren 3 (nodes s') (Some 1%nat)
    = Done [Some 2; Some 4; Some 3]%nat.
Proof.
  intros s.
  assert (Hco : childrenOf (nodes s) 1 ([2] ++ 3 :: [])%nat) by concrete_chain.
  split; [exact Hco|].
  destruct (InsertNode_inserts_before s 1 3 4 [2]%nat [] Hco
              ltac:(concrete_detached) ltac:(concrete_notin) ltac:(discriminate))
    as (s' & Hrun & Hco' & Hsend).
  exists s'. split; [exact Hrun|]. split; [exact Hco'|].
  exact (Hsend 3%nat ltac:(simpl; lia)).
Defined.

(** X20: when the children of [g] form a well-formed chain [l],
    [g.RemoveFirstNode()] returns and the children of [g] form the well-
    formed chain [tail l]; on a node without children it changes nothing;
    and the removed node itself is not written: it keeps its Parent and its
    [next] pointer into the chain. *)
Theorem RemoveFirstNode_removes (s : State) (g : nat) (l : list nat) :
  childrenOf (nodes s) g l ->
  exists s',
    RemoveFirstNode (Some g) s = Done (tt, s') /\
    childrenOf (nodes s') g (tail l) /\
    (l = [] -> s' = s) /\
    (forall a, head l = Some a -> nodes s' !! a = nodes s !! a) /\
    (forall fuel, (length (tail l) <= fuel)%nat ->
       SendCloseChildren fuel (nodes s') (Some g) = Done (Some <$> tail l)).
Proof.
  intros Hco.
  destruct (RemoveFirstNode_chain s g l Hco) as (s' & Hrun & Hco' & Hnil & Hkeep).
  exists s'. split; [exact Hrun|]. split; [exact Hco'|].
  split; [exact Hnil|]. split; [exact Hkeep|].
  intros fuel Hfuel. apply SendCloseChildren_chain; [exact Hco'|lia].
Qed.

Lemma RemoveFirstNode_witness :
  let s := parsedState "<a><b/><c/><d/></a>" in
  childrenOf (nodes s) 1 [2; 3; 4]%nat /\
  exists s',
    RemoveFirstNode (Some 1%nat) s = Done (tt, s') /\
    childrenOf (nodes s') 1 [3; 4]%nat /\
    (Parent <$> (gbase <$> nodes s' !! 2%nat)) = Some (Some 1%nat) /\
    SendCloseChildren 2 (nodes s') (Some 1%nat) = Done [Some 3; Some 4]%nat.
Proof.
  intros s.
  assert (Hco : childrenOf (nodes s) 1 [2; 3; 4]%nat) by concrete_chain.
  split; [exact Hco|].
  destruct (RemoveFirstNode_removes s 1 [2; 3; 4]%nat Hco)
    as (s' & Hrun & Hco' & _ & Hkeep & Hsend).
  exists s'. split; [exact Hrun|]. split; [exact Hco'|]. split.
  - rewrite (Hkeep 2%nat eq_refl). vm_compute. reflexivity.
  - exact (Hsend 2%nat ltac:(simpl; lia)).
Defined.

(** X21: when the children of [g] form a well-formed chain [l],
    [g.RemoveLastNode()] returns and the children of [g] form the well-
    formed chain [l] without its last node; on a node without children it
    changes nothing; and the removed node itself is not written. *)
Theorem RemoveLastNode_removes (s : State) (g : nat) (l : list nat) :
  childrenOf (nodes s) g l ->
  exists s',
    RemoveLastNode (Some g) s = Done (tt, s') /\
    childrenOf (nodes s') g (removelast l) /\
    (l = [] -> s' = s) /\
    (forall a, last l = Some a -> nodes s' !! a = nodes s !! a) /\
    (forall fuel, (length (removelast l) <= fuel)%nat ->
       SendCloseChildren fuel (nodes s') (Some g) = Done (Some <$> removelast l)).
Proof.
  intros Hco.
  destruct (RemoveLastNode_chain s g l Hco) as (s' & Hrun & Hco' & Hnil & Hkeep).
  exists s'. split; [exact Hrun|]. split; [exact Hco'|].
  split; [exact Hnil|]. split; [exact Hkeep|].
  intros fuel Hfuel. apply SendCloseChildren_chain; [exact Hco'|lia].
Qed.

Lemma RemoveLastNode_witness :
  let s := parsedState "<a><b/><c/><d/></a>" in
  childrenOf (nodes s) 1 [2; 3; 4]%nat /\
  exists s',
    RemoveLastNode (Some 1%nat) s = Done (tt, s') /\
    childrenOf (nodes s') 1 [2; 3]%nat /\
    SendCloseChildren 2 (nodes s') (Some 1%nat) = Done [Some 2; Some 3]%nat.
Proof.
  intros s.
  assert (Hco : childrenOf (nodes s) 1 [2; 3; 4]%nat) by concrete_chain.
  split; [exact Hco|].
  destruct (RemoveLastNode_removes s 1 [2; 3; 4]%nat Hco)
    as (s' & Hrun & Hco' & _ & _ & Hsend).
  exists s'. split; [exact Hrun|]. split; [exact Hco'|].
  exact (Hsend 2%nat ltac:(simpl; lia)).
Defined.

(** X22: when the children of [g] form the well-formed chain [l1 ++ w ::
    l2], [g.RemoveNode(w)] returns (it does not take the panic branch) and
    the children of [g] form the well-formed chain [l1 ++ l2], which is what
    [SendCloseChildren] then sends; the removed node [w] is not written. *)
Theorem RemoveNode_splices (s : State) (g w : nat) (l1 l2 : list nat) :
  childrenOf (nodes s) g (l1 ++ w :: l2) ->
  exists s',
    RemoveNode (Some g) (Some w) s = Done (tt, s') /\
    childrenOf (nodes s') g (l1 ++ l2) /\
    nodes s' !! w = nodes s !! w /\
    (forall fuel, (length (l1 ++ l2) <= fuel)%nat ->
       SendCloseChildren fuel (nodes s') (Some g) = Done (Some <$> l1 ++ l2)).
Proof.
  intros Hco.
  destruct (RemoveNode_chain s g w l1 l2 Hco) as (s' & Hrun & Hco' & Hkeep).
  exists s'. split; [exact Hrun|]. split; [exact Hco'|]. split; [exact Hkeep|].
  intros fuel Hfuel. apply SendCloseChildren_chain; [exact Hco'|lia].
Qed.

Lemma RemoveNode_witness :
  let s := parsedState "<a><b/><c/><d/></a>" in
  childrenOf (nodes s) 1 ([2] ++ 3 :: [4])%nat /\
  exists s',
    RemoveNode (Some 1%nat) (Some 3%nat) s = Done (tt, s') /\
    childrenOf (nodes s') 1 [2; 4]%nat /\
    nodes s' !! 3%nat = nodes s !! 3%nat /\
    SendCloseChildren 2 (nodes s') (Some 1%nat) = Done [Some 2; Some 4]%nat.
Proof.
  intros s.
  assert (Hco : childrenOf (nodes s) 1 ([2] ++ 3 :: [4])%nat) by concrete_chain.
  split; [exact Hco|].
  destruct (RemoveNode_splices s 1 3 [2]%nat [4]%nat Hco)
    as (s' & Hrun & Hco' & Hkeep & Hsend).
  exists s'. split; [exact Hrun|]. split; [exact Hco'|]. split; [exact Hkeep|].
  exact (Hsend 2%nat ltac:(simpl; lia)).
Defined.

(** X24: inserting a detached node [c] before a child [w] of [g] and then
    removing [c] again gives back the child chain [g] had before. *)
Theorem InsertNode_then_RemoveNode (s : State) (g w c : nat) (l1 l2 : list nat) :
  childrenOf (nodes s) g (l1 ++ w :: l2) ->
  detached (nodes s) c -> c ∉ l1 ++ w :: l2 -> c <> g ->
  exists s',
    (InsertNode (Some g) (Some w) (Some c) ;;; RemoveNode (Some g) (Some c)) s
    = Done (tt, s') /\
    childrenOf (nodes s') g (l1 ++ w :: l2).
Proof.
  intros Hco Hdet Hcl Hcg.
  destruct (InsertNode_chain s g w c l1 l2 Hco Hdet Hcl Hcg) as (s1 & Hrun1 & Hco1).
  destruct (RemoveNode_chain s1 g c l1 (w :: l2) Hco1) as (s2 & Hrun2 & Hco2 & _).
  exists s2. split; [|exact Hco2].
  rewrite (bind_run _ _ _ _ _ Hrun1). exact Hrun2.
Qed.

Lemma InsertNode_then_RemoveNode_witness :
  let s := withFresh "<a><b/><c/></a>" in
  childrenOf (nodes s) 1 ([2] ++ 3 :: [])%nat /\
  exists s',
    (InsertNode (Some 1%nat) (Some 3%nat) (Some 4%nat) ;;;
     RemoveNode (Some 1%nat) (Some 4%nat)) s = Done (tt, s') /\
    childrenOf (nodes s') 1 [2; 3]%nat.
Proof.
  intros s.
  assert (Hco : childrenOf (nodes s) 1 ([2] ++ 3 :: [])%nat) by concrete_chain.
  split; [exact Hco|].
  exact (InsertNode_then_RemoveNode s 1 3 4 [2]%nat [] Hco
           ltac:(concrete_detached) ltac:(concrete_notin) ltac:(discriminate)).
Defined.

(** X25: appending a detached node [c] to [g] and then removing the last
    child gives back the child chain [g] had before; [c] is left with the
    stale links [AppendNode] gave it: its [prev] is the last child of [g]
    and its Parent is [g]. *)
Theorem AppendNode_then_RemoveLastNode (s : State) (g c : nat) (l : list nat) :
  childrenOf (nodes s) g l ->
  detached (nodes s) c -> c ∉ l -> c <> g ->
  exists s',
    (AppendNode (Some g) (Some c) ;;; RemoveLastNode (Some g)) s = Done (tt, s') /\
    childrenOf (nodes s') g l /\
    (fun n => (prev n, Parent (gbase n))) <$> nodes s' !! c = Some (last l, Some g).
Proof.
  intros Hco Hdet Hcl Hcg.
  destruct (AppendNode_chain s g c l Hco Hdet Hcl Hcg) as (s1 & Hrun1 & Hco1 & _).
  destruct (RemoveLastNode_chain s1 g _ Hco1) as (s2 & Hrun2 & Hco2 & _ & Hkeep).
  rewrite removelast_last in Hco2.
  exists s2. split; [|split; [exact Hco2|]].
  - rewrite (bind_run _ _ _ _ _ Hrun1). exact Hrun2.
  - rewrite (Hkeep c) by apply last_snoc.
    destruct Hco1 as [_ _ Hlinked Hparent _ _].
    assert (Hci : (l ++ [c]) !! (length l + 0)%nat = Some c)
      by (rewrite lookup_mid; reflexivity).
    destruct (Hlinked _ _ Hci) as (n & Hn & Hnp & _).
    specialize (Hparent c ltac:(apply elem_of_app; right; left)).
    rewrite Hn in Hparent |- *. simpl in *. injection Hparent as Hparent.
    rewrite Hparent, Hnp. f_equal. f_equal.
    destruct l as [|z l _] using rev_ind; [reflexivity|].
    rewrite last_snoc, length_app. simpl.
    replace (length l + 1 + 0)%nat with (S (length l + 0)) by lia.
    rewrite <- app_assoc. rewrite lookup_mid. reflexivity.
Qed.

Lemma AppendNode_then_RemoveLastNode_witness :
  let s := withFresh "<a><b/><c/></a>" in
  childrenOf (nodes s) 1 [2; 3]%nat /\
  exists s',
    (AppendNode (Some 1%nat) (Some 4%nat) ;;; RemoveLastNode (Some 1%nat)) s
    = Done (tt, s') /\
    childrenOf (nodes s') 1 [2; 3]%nat /\
    (fun n => (prev n, Parent (gbase n))) <$> nodes s' !! 4%nat
    = Some (Some 3%nat, Some 1%nat).
Proof.
  intros s.
  assert (Hco : childrenOf (nodes s) 1 [2; 3]%nat) by concrete_chain.
  split; [exact Hco|].
  exact (AppendNode_then_RemoveLastNode s 1 4 [2; 3]%nat Hco
           ltac:(concrete_detached) ltac:(concrete_notin) ltac:(discriminate)).
Defined.

(** X23: [g.RemoveAllNodes()] leaves [g] without children, so that
    [SendCloseChildren] sends nothing, and writes no other node: every
    former child keeps [g] as its Parent and keeps its sibling links. *)
Theorem RemoveAllNodes_unlinks_the_parent_only (s : State) (g : nat) (l : list nat) :
  childrenOf (nodes s) g l ->
  exists s',
    RemoveAllNodes (Some g) s = Done (tt, s') /\
    childrenOf (nodes s') g [] /\
    (forall a, a <> g -> nodes s' !! a = nodes s !! a) /\
    (forall a, a ∈ l ->
       (fun n => Parent (gbase n)) <$> nodes s' !! a = Some (Some g)) /\
    (forall fuel, SendCloseChildren fuel (nodes s') (Some g) = Done []).
Proof.
  intros [Hfirst Hlast Hlinked Hparent Hnodup Hself].
  destruct (nodes s !! g) as [gn|] eqn:Hg; [|discriminate].
  unfold RemoveAllNodes. run_upd. run_last.
  eexists. split; [reflexivity|].
  match goal with
  | |- childrenOf ?h _ _ /\ _ => assert (Hco' : childrenOf h g [])
  end.
  { split.
    - rewrite nodes_setNodes. lk. reflexivity.
    - rewrite nodes_setNodes. lk. reflexivity.
    - intros i a Hi. destruct i; discriminate.
    - intros a Ha. apply elem_of_nil in Ha. destruct Ha.
    - apply NoDup_nil_2.
    - intros Ha. apply elem_of_nil in Ha. destruct Ha. }
  split; [exact Hco'|]. split; [|split].
  - intros a Ha. rewrite nodes_setNodes. lk. reflexivity.
  - intros a Ha. rewrite nodes_setNodes.
    assert (a <> g) by (intros ->; contradiction).
    lk. apply Hparent. exact Ha.
  - intros fuel. apply (SendCloseChildren_chain _ g []); [exact Hco'|simpl; lia].
Qed.

Lemma RemoveAllNodes_witness :
  let s := parsedState "<a><b/><c/><d/></a>" in
  childrenOf (nodes s) 1 [2; 3; 4]%nat /\
  exists s',
    RemoveAllNodes (Some 1%nat) s = Done (tt, s') /\
    childrenOf (nodes s') 1 [] /\
    (fun n => Parent (gbase n)) <$> nodes s' !! 3%nat = Some (Some 1%nat) /\
    SendCloseChildren 0 (nodes s') (Some 1%nat) = Done [].
Proof.
  intros s.
  assert (Hco : childrenOf (nodes s) 1 [2; 3; 4]%nat) by concrete_chain.
  split; [exact Hco|].
  destruct (RemoveAllNodes_unlinks_the_parent_only s 1 [2; 3; 4]%nat Hco)
    as (s' & Hrun & Hco' & _ & Hpar & Hsend).
  exists s'. split; [exact Hrun|]. split; [exact Hco'|]. split.
  - apply Hpar. right. left.
  - exact (Hsend 0%nat).
Defined.

(** ** Attribute chains *)

Lemma loadAttr_run a n s :
  attrs s !! a = Some n -> loadAttr (Some a) s = Done (n, s).
Proof. intros H. unfold loadAttr. rewrite H. reflexivity. Qed.

Lemma updAttr_run a n f s :
  attrs s !! a = Some n ->
  updAttr (Some a) f s = Done (tt, setAttrs (<[a := f n]> (attrs s)) s).
Proof. intros H. unfold updAttr. rewrite H. reflexivity. Qed.

Ltac lka :=
  cbn [nodes attrs setNodes setAttrs];
  repeat first
    [ rewrite list_lookup_insert_ne by congruence
    | erewrite lookup_insert_here by (lka; first [eassumption | reflexivity]) ].

Ltac step_node :=
  rewrite ?bind_assoc;
  first
    [ erewrite (bind_run (loadNode _)) by (apply loadNode_run; lka; first [eassumption | reflexivity])
    | erewrite (bind_run (updNode _ _)) by (apply updNode_run; lka; first [eassumption | reflexivity]) ];
  cbv beta.
Ltac step_attr :=
  rewrite ?bind_assoc;
  first
    [ erewrite (bind_run (loadAttr _)) by (apply loadAttr_run; lka; first [eassumption | reflexivity])
    | erewrite (bind_run (updAttr _ _)) by (apply updAttr_run; lka; first [eassumption | reflexivity]) ];
  cbv beta.
Ltac last_node :=
  erewrite updNode_run by (lka; first [eassumption | reflexivity]).
Ltac last_attr :=
  erewrite updAttr_run by (lka; first [eassumption | reflexivity]).

Lemma attrChain_eq fuel h i :
  attrChain fuel h i =
  match i with
  | None => Done []
  | Some a =>
      match fuel with
      | O => Timeout
      | S f =>
          match h !! a with
          | None => Crash NilDereference
          | Some n =>
              match attrChain f h (attrNext n) with
              | Done l => Done (a :: l)
              | Crash p => Crash p
              | Timeout => Timeout
              end
          end
      end
  end.
Proof. destruct fuel; reflexivity. Qed.

Lemma attrChain_linked h l :
  attrLinked h l ->
  forall fuel i, (length l - i <= fuel)%nat ->
  attrChain fuel h (l !! i) = Done (drop i l).
Proof.
  intros Hl. induction fuel as [|f IH]; intros i Hfuel.
  - rewrite lookup_ge_None_2 by lia. rewrite drop_ge by lia. reflexivity.
  - destruct (l !! i) as [a|] eqn:Hi.
    + destruct (Hl _ _ Hi) as (n & Hn & _ & Hnx).
      rewrite attrChain_eq. rewrite Hn, Hnx.
      rewrite (IH (S i)) by lia. rewrite (drop_S _ _ _ Hi). reflexivity.
    + apply lookup_ge_None_1 in Hi. rewrite drop_ge by lia. reflexivity.
Qed.

Lemma GetAttributes_chain s g l fuel :
  attributesOf s g l -> (length l <= fuel)%nat ->
  GetAttributes fuel s (Some g) = Done l.
Proof.
  intros [Hfirst _ Hlinked _] Hfuel.
  destruct (nodes s !! g) as [gn|] eqn:Hg; [|discriminate].
  injection Hfirst as Hfirst.
  unfold GetAttributes. simpl load. rewrite Hg. simpl obind.
  rewrite Hfirst, head_lookup.
  rewrite (attrChain_linked _ _ Hlinked) by lia. reflexivity.
Qed.

(** X27: when the attributes of [g] form a well-formed chain [l] and [a] is
    a detached attribute outside it, [g.AppendAttribute(a)] returns, the
    attributes of [g] form the well-formed chain [l ++ [a]], the Parent of
    [a] is [g], and [GetAttributes] then returns [l] followed by [a]. *)
Theorem AppendAttribute_appends (s : State) (g a : nat) (l : list nat) :
  attributesOf s g l -> detachedAttr s a -> a ∉ l ->
  exists s',
    AppendAttribute (Some g) (Some a) s = Done (tt, s') /\
    attributesOf s' g (l ++ [a]) /\
    (fun n => Parent (abase n)) <$> attrs s' !! a = Some (Some g) /\
    (forall fuel, (length (l ++ [a]) <= fuel)%nat ->
       GetAttributes fuel s' (Some g) = Done (l ++ [a])).
Proof.
  intros [Hfirst Hlast Hlinked Hnodup] (an & Ha & Hap & Han) Hal.
  destruct (nodes s !! g) as [gn|] eqn:Hg; [|discriminate].
  injection Hfirst as Hfirst. injection Hlast as Hlast.
  assert (Hgoal : exists s',
    AppendAttribute (Some g) (Some a) s = Done (tt, s') /\
    attributesOf s' g (l ++ [a]) /\
    (fun n => Parent (abase n)) <$> attrs s' !! a = Some (Some g)).
  { unfold AppendAttribute. step_node.
    destruct l as [|z l _] using rev_ind.
    - simpl in Hfirst. rewrite Hfirst. cbn [isNil].
      step_node. step_node. last_attr.
      eexists. split; [reflexivity|]. split; [split|].
      + lka. reflexivity.
      + lka. reflexivity.
      + intros i x Hi. destruct i; [|discriminate]. injection Hi as <-.
        lka. eexists. split; [reflexivity|]. simpl. auto.
      + apply NoDup_singleton.
      + lka. reflexivity.
    - rewrite last_snoc in Hlast.
      assert (Hfa : isNil (firstAttribute gn) = false).
      { rewrite Hfirst. destruct l; reflexivity. }
      rewrite Hfa.
      assert (Hzi : (l ++ [z]) !! (length l + 0)%nat = Some z)
        by (rewrite lookup_mid; reflexivity).
      destruct (Hlinked _ _ Hzi) as (zn & Hzn & Hzprev & Hznext).
      assert (Hza : z <> a).
      { intros ->. apply Hal. apply elem_of_app. right. left. }
      rewrite Hlast. step_attr. step_node. rewrite Hlast. step_attr. step_node. last_attr.
      eexists. split; [reflexivity|]. split; [split|].
      + lka. simpl. rewrite Hfirst. destruct l; reflexivity.
      + lka. simpl. rewrite last_snoc. reflexivity.
      + intros i x Hi. cbn [attrs setAttrs setNodes].
        destruct (decide (i < length (l ++ [z]))%nat) as [Hlt|Hge].
        * assert (Hi' : (l ++ [z]) !! i = Some x)
            by (rewrite lookup_app_l in Hi by exact Hlt; exact Hi).
          destruct (Hlinked _ _ Hi') as (n & Hn & Hnp & Hnx).
          assert (Hxa : x <> a).
          { intros ->. apply Hal. eapply list_elem_of_lookup_2; eauto. }
          assert (Hp : match i with O => None | S j => ((l ++ [z]) ++ [a]) !! j end
                       = match i with O => None | S j => (l ++ [z]) !! j end).
          { destruct i; [reflexivity|]. rewrite lookup_app_l by lia. reflexivity. }
          rewrite length_app in Hlt. simpl in Hlt.
          destruct (decide (x = z)) as [->|Hxz].
          -- assert (i = (length l + 0)%nat) by (eapply NoDup_index; eauto). subst i.
             lka. eexists. split; [reflexivity|]. simpl.
             assert (n = zn) by congruence. subst n. split.
             ++ rewrite Hnp. symmetry. exact Hp.
             ++ replace (S (length l + 0)) with (length (l ++ [z]) + 0)%nat
                  by (rewrite length_app; simpl; lia).
                rewrite lookup_mid. reflexivity.
          -- lka. exists n. split; [exact Hn|]. split.
             ++ rewrite Hnp. symmetry. exact Hp.
             ++ rewrite Hnx.
                assert (i <> length l).
                { intros ->. apply Hxz.
                  replace (length l) with (length l + 0)%nat in Hi' by lia.
                  rewrite lookup_mid in Hi'. simpl in Hi'. congruence. }
                rewrite (lookup_app_l (l ++ [z])) by (rewrite length_app; simpl; lia).
                reflexivity.
        * assert (i = (length (l ++ [z]) + 0)%nat).
          { apply lookup_lt_Some in Hi. rewrite !length_app in *. simpl in *. lia. }
          subst i. rewrite lookup_mid in Hi. injection Hi as <-.
          lka. eexists. split; [reflexivity|]. simpl. split.
          -- rewrite length_app. simpl.
             replace (length l + 1 + 0)%nat with (S (length l + 0)) by lia.
             rewrite lookup_app_l by (rewrite length_app; simpl; lia).
             rewrite lookup_mid. reflexivity.
          -- rewrite Han. symmetry. apply lookup_ge_None_2.
             rewrite !length_app. simpl. lia.
      + apply NoDup_app. split; [exact Hnodup|]. split.
        * intros x Hx Hx'. apply list_elem_of_singleton in Hx'. subst x. contradiction.
        * apply NoDup_singleton.
      + lka. reflexivity. }
  destruct Hgoal as (s' & Hrun & Hco' & Hpar).
  exists s'. split; [exact Hrun|]. split; [exact Hco'|]. split; [exact Hpar|].
  intros fuel Hfuel. apply GetAttributes_chain; assumption.
Qed.

Ltac concrete_attrs :=
  split;
  [ vm_compute; reflexivity
  | vm_compute; reflexivity
  | intros i a Hi;
    repeat (destruct i as [|i];
            [ injection Hi as <-; eexists; split; [vm_compute; reflexivity|];
              split; reflexivity | ]);
    discriminate Hi
  | apply (bool_decide_unpack _); vm_compute; exact I ].

Lemma AppendAttribute_witness :
  let s := withFreshAttr "<a x='1' y='2'/>" in
  attributesOf s 1 [0; 1]%nat /\
  exists s',
    AppendAttribute (Some 1%nat) (Some 2%nat) s = Done (tt, s') /\
    GetAttributes 3 s' (Some 1%nat) = Done [0; 1; 2]%nat.
Proof.
  intros s.
  assert (Hco : attributesOf s 1 [0; 1]%nat) by concrete_attrs.
  split; [exact Hco|].
  destruct (AppendAttribute_appends s 1 2 [0; 1]%nat Hco
              ltac:(concrete_detached) ltac:(concrete_notin))
    as (s' & Hrun & _ & _ & Hget).
  exists s'. split; [exact Hrun|].
  exact (Hget 3%nat ltac:(simpl; lia)).
Defined.

(** X28: when the attributes of [g] form a well-formed chain [l] and [a] is
    a detached attribute outside it, [g.PrependAttribute(a)] returns, the
    attributes of [g] form the well-formed chain [a :: l], and
    [GetAttributes] then returns [a] followed by [l]. *)
Theorem PrependAttribute_prepends (s : State) (g a : nat) (l : list nat) :
  attributesOf s g l -> detachedAttr s a -> a ∉ l ->
  exists s',
    PrependAttribute (Some g) (Some a) s = Done (tt, s') /\
    attributesOf s' g (a :: l) /\
    (forall fuel, (length (a :: l) <= fuel)%nat ->
       GetAttributes fuel s' (Some g) = Done (a :: l)).
Proof.
  intros [Hfirst Hlast Hlinked Hnodup] (an & Ha & Hap & Han) Hal.
  destruct (nodes s !! g) as [gn|] eqn:Hg; [|discriminate].
  injection Hfirst as Hfirst. injection Hlast as Hlast.
  assert (Hgoal : exists s',
    PrependAttribute (Some g) (Some a) s = Done (tt, s') /\
    attributesOf s' g (a :: l)).
  { unfold PrependAttribute. step_node.
    destruct l as [|b l].
    - simpl in Hfirst. rewrite Hfirst. cbn [isNil].
      step_node. step_node. last_node.
      eexists. split; [reflexivity|]. split.
      + lka. reflexivity.
      + lka. reflexivity.
      + intros i x Hi. destruct i; [|discriminate]. injection Hi as <-.
        exists an. split; [exact Ha|]. split; assumption.
      + apply NoDup_singleton.
    - simpl in Hfirst. rewrite Hfirst. cbn [isNil].
      destruct (Hlinked 0%nat b eq_refl) as (bn & Hbn & Hbprev & Hbnext).
      assert (Hba : b <> a) by (intros ->; apply Hal; left).
      step_attr. step_node. rewrite Hfirst. step_attr. step_node. last_node.
      eexists. split; [reflexivity|]. split.
      + lka. reflexivity.
      + lka. simpl. rewrite Hlast. reflexivity.
      + intros i x Hi. cbn [attrs setAttrs setNodes]. destruct i as [|i].
        * injection Hi as <-. lka. eexists. split; [reflexivity|]. simpl. auto.
        * simpl in Hi. destruct (Hlinked _ _ Hi) as (n & Hn & Hnp & Hnx).
          assert (Hxa : x <> a).
          { intros ->. apply Hal. eapply list_elem_of_lookup_2; eauto. }
          destruct (decide (x = b)) as [->|Hxb].
          -- assert (i = 0%nat) by (eapply NoDup_index; eauto; reflexivity). subst i.
             lka. eexists. split; [reflexivity|]. simpl.
             assert (n = bn) by congruence. subst n. split; [reflexivity|exact Hnx].
          -- lka. exists n. split; [exact Hn|]. split; [|exact Hnx].
             destruct i as [|i]; [simpl in Hi; congruence|exact Hnp].
      + apply NoDup_cons. split; assumption. }
  destruct Hgoal as (s' & Hrun & Hco').
  exists s'. split; [exact Hrun|]. split; [exact Hco'|].
  intros fuel Hfuel. apply GetAttributes_chain; assumption.
Qed.

Lemma PrependAttribute_witness :
  let s := withFreshAttr "<a x='1' y='2'/>" in
  attributesOf s 1 [0; 1]%nat /\
  exists s',
    PrependAttribute (Some 1%nat) (Some 2%nat) s = Done (tt, s') /\
    GetAttributes 3 s' (Some 1%nat) = Done [2; 0; 1]%nat.
Proof.
  intros s.
  assert (Hco : attributesOf s 1 [0; 1]%nat) by concrete_attrs.
  split; [exact Hco|].
  destruct (PrependAttribute_prepends s 1 2 [0; 1]%nat Hco
              ltac:(concrete_detached) ltac:(concrete_notin))
    as (s' & Hrun & _ & Hget).
  exists s'. split; [exact Hrun|].
  exact (Hget 3%nat ltac:(simpl; lia)).
Defined.

(** ** Nodes from the arena *)

Lemma relinked_refl s : relinked s s.
Proof. exists (nodes s). split; [destruct s; reflexivity|]. split; reflexivity. Qed.

Lemma relinked_trans s1 s2 s3 : relinked s1 s2 -> relinked s2 s3 -> relinked s1 s3.
Proof.
  intros (h2 & -> & Hl2 & Ht2) (h3 & -> & Hl3 & Ht3).
  exists h3. split; [reflexivity|]. rewrite nodes_setNodes in *.
  split; [congruence|]. intros a. rewrite Ht3. apply Ht2.
Qed.

Lemma updNode_relinked p f s u s' :
  (forall n, nodeType (f n) = nodeType n) ->
  updNode p f s = Done (u, s') -> relinked s s'.
Proof.
  intros Hf H. apply updNode_Done in H as (b & n & _ & Hn & ->).
  eexists. split; [reflexivity|]. split; [apply length_insert|].
  intros a. destruct (decide (a = b)) as [->|Hab].
  - erewrite lookup_insert_here by exact Hn. rewrite Hn. simpl. f_equal. apply Hf.
  - rewrite list_lookup_insert_ne by congruence. reflexivity.
Qed.

Lemma AppendNode_relinked g c s s' :
  AppendNode g c s = Done (tt, s') -> relinked s s'.
Proof.
  unfold AppendNode. intros H.
  step_inv H as gn s1 H1. apply loadNode_Done in H1 as [-> _].
  step_inv H as u s2 H2. step_inv H as u' s3 H3.
  apply updNode_relinked in H; [|reflexivity].
  apply updNode_relinked in H3; [|reflexivity].
  eapply relinked_trans; [|exact H]. eapply relinked_trans; [|exact H3].
  destruct (isNil (firstChild gn)).
  - apply updNode_relinked in H2; [exact H2|reflexivity].
  - step_inv H2 as u2 s4 H4. step_inv H2 as gn' s5 H5.
    apply loadNode_Done in H5 as [-> _].
    apply updNode_relinked in H2; [|reflexivity].
    apply updNode_relinked in H4; [|reflexivity].
    eapply relinked_trans; eassumption.
Qed.

Lemma childrenOf_grows h h' g l :
  childrenOf h g l ->
  (forall a x, h !! a = Some x -> h' !! a = Some x) ->
  childrenOf h' g l.
Proof.
  intros [Hfirst Hlast Hlinked Hparent Hnodup Hself] Hext.
  split; try assumption.
  - destruct (h !! g) as [gn|] eqn:Hg; [|discriminate].
    rewrite (Hext _ _ Hg). exact Hfirst.
  - destruct (h !! g) as [gn|] eqn:Hg; [|discriminate].
    rewrite (Hext _ _ Hg). exact Hlast.
  - intros i a Hi. destruct (Hlinked _ _ Hi) as (n & Hn & Hp & Hx).
    exists n. split; [apply Hext; exact Hn|]. split; assumption.
  - intros a Ha. specialize (Hparent _ Ha).
    destruct (h !! a) as [n|] eqn:Hn; [|discriminate].
    rewrite (Hext _ _ Hn). exact Hparent.
Qed.

Lemma childrenOf_in_store h g l :
  childrenOf h g l -> (g < length h)%nat /\ forall a, a ∈ l -> (a < length h)%nat.
Proof.
  intros [Hfirst _ _ Hparent _ _]. split.
  - destruct (h !! g) as [gn|] eqn:Hg; [|discriminate].
    eapply lookup_lt_Some; eauto.
  - intros a Ha. specialize (Hparent _ Ha).
    destruct (h !! a) as [n|] eqn:Hn; [|discriminate].
    eapply lookup_lt_Some; eauto.
Qed.

(** X26: in a state whose arena cells are zero, a node taken with [newNode
    t] and appended to [g] becomes the last child of [g]: the child chain
    stays well formed, the new node is the next cell of the store and has
    type [t], and the arena invariant is kept.  This is the step the parser
    takes for every node it reads. *)
Theorem newNode_then_AppendNode (s : State) (t : NodeType) (g : nat) (l : list nat) :
  arenaOk s ->
  childrenOf (nodes s) g l ->
  exists s',
    (c <- newNode t ;; AppendNode (Some g) c) s = Done (tt, s') /\
    childrenOf (nodes s') g (l ++ [length (nodes s)]) /\
    nodeType <$> nodes s' !! length (nodes s) = Some t /\
    length (nodes s') = S (length (nodes s)) /\
    arenaOk s'.
Proof.
  intros Hok Hco.
  destruct (nodeArena_get_fresh s Hok) as (s1 & Hget & Hnodes1 & _ & _ & Hok1).
  set (c := length (nodes s)) in *.
  assert (Hc1 : nodes s1 !! c = Some zeroNode).
  { rewrite Hnodes1. replace c with (length (nodes s) + 0)%nat by (unfold c; lia).
    rewrite lookup_mid. reflexivity. }
  assert (Hnew : newNode t s
                 = Done (Some c, setNodes (<[c := setNodeType t zeroNode]> (nodes s1)) s1)).
  { unfold newNode. rewrite (bind_run _ _ _ _ _ Hget).
    rewrite (bind_run _ _ _ _ _ (updNode_run _ _ _ _ Hc1)). reflexivity. }
  set (s2 := setNodes (<[c := setNodeType t zeroNode]> (nodes s1)) s1) in *.
  destruct (childrenOf_in_store _ _ _ Hco) as [Hg Hl].
  assert (Hext : forall a x, nodes s !! a = Some x -> nodes s2 !! a = Some x).
  { intros a x Ha. unfold s2. rewrite nodes_setNodes.
    assert (a < c)%nat by (eapply lookup_lt_Some; eauto).
    rewrite list_lookup_insert_ne by lia.
    rewrite Hnodes1. rewrite lookup_app_l by lia. exact Ha. }
  assert (Hco2 : childrenOf (nodes s2) g l) by (eapply childrenOf_grows; eauto).
  assert (Hc2 : nodes s2 !! c = Some (setNodeType t zeroNode)).
  { unfold s2. rewrite nodes_setNodes. eapply lookup_insert_here. exact Hc1. }
  assert (Hdet : detached (nodes s2) c).
  { eexists. split; [exact Hc2|]. split; reflexivity. }
  assert (Hcl : c ∉ l) by (intros Hin; apply Hl in Hin; unfold c in Hin; lia).
  assert (Hcg : c <> g) by (unfold c; lia).
  destruct (AppendNode_chain s2 g c l Hco2 Hdet Hcl Hcg) as (s' & Hrun & Hco' & Hframe).
  destruct (AppendNode_relinked _ _ _ _ Hrun) as (h' & -> & Hlen & Htypes).
  exists (setNodes h' s2). split; [|split; [exact Hco'|split; [|split]]].
  - rewrite (bind_run _ _ _ _ _ Hnew). exact Hrun.
  - rewrite nodes_setNodes in *.
    rewrite (Htypes c), Hc2. reflexivity.
  - rewrite nodes_setNodes, Hlen. unfold s2. rewrite nodes_setNodes, length_insert.
    rewrite Hnodes1, length_app. simpl. lia.
  - exact Hok1.
Qed.

Lemma newNode_then_AppendNode_witness :
  let s := parsedState "<a><b/><c/></a>" in
  arenaOk s /\ childrenOf (nodes s) 1 [2; 3]%nat /\
  exists s',
    (c <- newNode Comment ;; AppendNode (Some 1%nat) c) s = Done (tt, s') /\
    childrenOf (nodes s') 1 [2; 3; 4]%nat /\
    nodeType <$> nodes s' !! 4%nat = Some Comment.
Proof.
  intros s.
  assert (Hok : arenaOk s).
  { split; [|vm_compute; lia].
    apply Forall_forall. intros x Hx.
    assert (Hna : na s = repeat zeroNode 96) by (vm_compute; reflexivity).
    rewrite Hna in Hx. apply list_elem_of_In, repeat_spec in Hx. exact Hx. }
  assert (Hco : childrenOf (nodes s) 1 [2; 3]%nat) by concrete_chain.
  split; [exact Hok|]. split; [exact Hco|].
  destruct (newNode_then_AppendNode s Comment 1 [2; 3]%nat Hok Hco)
    as (s' & Hrun & Hco' & Hty & _ & _).
  exists s'. split; [exact Hrun|]. split; [exact Hco'|exact Hty].
Defined.

(** ** Whitespace at the end of the input *)

Lemma parseLoop_whitespace_tail fuel doc s :
  0 <= pos s < len s ->
  (forall i, pos s <= i < len s -> classAt lookupWhitespace s i) ->
  parseLoop (S fuel) doc s = Done ((doc, None), onR (setPosition (len s - 1)) s).
Proof.
  intros Hp Hws. rewrite parseLoop_S.
  unfold bind at 1, getPos at 1, gets at 1.
  unfold bind at 1, getLen at 1, gets at 1.
  destruct (pos s <? len s) eqn:E; [|lia].
  rewrite (bind_run _ _ _ _ _ (skip_to_end _ _ Hp Hws)).
  unfold bind at 1, getPos at 1, gets at 1.
  unfold bind at 1, getLen at 1, gets at 1.
  rewrite pos_setPosition, len_setPosition.
  rewrite Z.eqb_refl. reflexivity.
Qed.

(** X12: when the top-level loop of [Parse] stands inside the buffer and
    only whitespace is left up to the end, the loop ends with a nil error,
    hands back the document pointer it was given and leaves the position on
    the last byte. *)
Theorem whitespace_up_to_the_end_ends_the_parse
    (fuel : nat) (doc : ptr) (s : State) :
  0 <= pos s < len s ->
  (forall i, pos s <= i < len s -> classAt lookupWhitespace s i) ->
  parseLoop (S fuel) doc s = Done ((doc, None), onR (setPosition (len s - 1)) s).
Proof. apply parseLoop_whitespace_tail. Qed.

Lemma whitespace_is_no_mark c d :
  isSet lookupWhitespace c = true ->
  hasPrefix (c :: d) [xef; xbb; xbf] = false /\
  hasPrefix (c :: d) [xff; xfe] = false /\
  hasPrefix (c :: d) [xfe; xff] = false.
Proof.
  intros H. destruct c; try discriminate H; repeat split; reflexivity.
Qed.

(** X13: [Parse] of a non-empty buffer of whitespace bytes only returns a
    nil error and a Document node that is still the zero value (no children,
    no name), with the buffer installed and the position on its last byte. *)
Theorem Parse_of_whitespace
    (decodeUTF16 : list byte -> option (list byte)) (fuel : nat)
    (b : list byte) (s : State) :
  arenaOk s ->
  b <> [] ->
  Forall (fun c => isSet lookupWhitespace c = true) b ->
  exists doc s',
    Parse decodeUTF16 (S fuel) b s = Done ((Some doc, None), s') /\
    buf s' = b /\ pos s' = Z.of_nat (length b) - 1 /\
    nodes s' !! doc = Some zeroNode /\
    SendCloseChildren fuel (nodes s') (Some doc) = Done [].
Proof.
  intros Hok Hne Hws.
  set (s1 := onR (setData b) (onR (setPosition 0) s)).
  assert (Hok1 : arenaOk s1) by exact Hok.
  destruct (nodeArena_get_fresh s1 Hok1) as (s2 & Hget & Hnodes & Hr & Hattrs & Hok2).
  set (doc := length (nodes s1)) in *.
  assert (Hlk : nodes s2 !! doc = Some zeroNode).
  { rewrite Hnodes. unfold doc. rewrite lookup_app_r by lia.
    rewrite Nat.sub_diag. reflexivity. }
  set (s3 := setNodes (<[doc := zeroNode]> (nodes s2)) s2).
  assert (Hbuf : buf s3 = b).
  { unfold s3, buf. simpl. rewrite Hr. reflexivity. }
  assert (Hpos : pos s3 = 0).
  { unfold s3, pos. simpl. rewrite Hr. reflexivity. }
  assert (Hstart : parseStart decodeUTF16 b s = Done (Some doc, s3)).
  { unfold parseStart. unfold bind at 1, setPos, modify.
    unfold bind at 1. fold s1.
    unfold bind at 1, newNode. unfold bind at 1. rewrite Hget.
    unfold bind at 1, updNode. rewrite Hlk.
    change (setNodeType Document zeroNode) with zeroNode. fold s3.
    unfold ret at 1.
    unfold bind at 1, skipBOM. unfold bind at 1, gets at 1.
    rewrite Hbuf. destruct b as [|c d]; [congruence|].
    apply Forall_cons in Hws as [Hc _].
    destruct (whitespace_is_no_mark c d Hc) as (-> & -> & ->). reflexivity. }
  assert (Hn3 : nodes s3 !! doc = Some zeroNode).
  { unfold s3. simpl. apply list_lookup_insert_eq.
    eapply lookup_lt_Some; eauto. }
  assert (Hlen : len s3 = Z.of_nat (length b)) by (unfold len; rewrite Hbuf; reflexivity).
  assert (Hlen_pos : 0 < Z.of_nat (length b)) by (destruct b; [congruence|simpl; lia]).
  exists doc, (onR (setPosition (len s3 - 1)) s3). split; [|split; [|split; [|split]]].
  - unfold Parse. rewrite (bind_run _ _ _ _ _ Hstart).
    apply parseLoop_whitespace_tail; [lia|].
    intros i Hi. unfold classAt. rewrite Hbuf.
    destruct (index_in_range b i ltac:(lia)) as [c Hc].
    exists c. split; [exact Hc|].
    rewrite Forall_forall in Hws. apply Hws.
    unfold index in Hc.
    destruct (i <? 0); [discriminate|].
    eapply list_elem_of_lookup_2. exact Hc.
  - exact Hbuf.
  - rewrite pos_setPosition, Hlen. reflexivity.
  - exact Hn3.
  - change (nodes (onR (setPosition (len s3 - 1)) s3)) with (nodes s3).
    unfold SendCloseChildren, load. rewrite Hn3. reflexivity.
Qed.

Lemma Parse_of_whitespace_witness :
  exists doc s',
    Parse rejectUTF16 1 [x20; x0a; x09] (initState NewDefaultRunXML)
    = Done ((Some doc, None), s') /\
    pos s' = 2 /\ nodes s' !! doc = Some zeroNode.
Proof.
  destruct (Parse_of_whitespace rejectUTF16 0 [x20; x0a; x09]
              (initState NewDefaultRunXML) (initState_arenaOk _)
              ltac:(discriminate)
              ltac:(repeat constructor))
    as (doc & s' & Hrun & _ & Hpos & Hn & _).
  exists doc, s'. split; [exact Hrun|]. split; [exact Hpos|exact Hn].
Defined.

Lemma whitespace_tail_witness :
  let s := onR (setPosition 4) (bufferState "<a/> ") in
  parseLoop 1 (Some 0%nat) s = Done ((Some 0%nat, None), s).
Proof.
  intros s.
  refine (eq_trans (whitespace_up_to_the_end_ends_the_parse 0 (Some 0%nat) s _ _) _).
  - vm_compute. split; [discriminate|reflexivity].
  - intros i Hi.
    change (pos s) with 4 in Hi. change (len s) with 5 in Hi.
    assert (i = 4) as -> by lia.
    eexists. split; [vm_compute; reflexivity|reflexivity].
  - reflexivity.
Defined.

(** ** CDATA sections, processing instructions and comments *)

Lemma newNode_fresh t s :
  arenaOk s ->
  exists s', newNode t s = Done (Some (length (nodes s)), s') /\
             freshNode s s' (length (nodes s)) t.
Proof.
  intros Hok.
  destruct (nodeArena_get_fresh s Hok) as (s1 & Hget & Hnodes1 & Hr & Hat & Hok1).
  assert (Hc1 : nodes s1 !! length (nodes s) = Some zeroNode).
  { rewrite Hnodes1. rewrite lookup_app_r by lia. rewrite Nat.sub_diag. reflexivity. }
  eexists. split.
  - unfold newNode. rewrite (bind_run _ _ _ _ _ Hget).
    rewrite (bind_run _ _ _ _ _ (updNode_run _ _ _ _ Hc1)). reflexivity.
  - split; [reflexivity|]. split; [|split; [exact Hr|split; [exact Hat|exact Hok1]]].
    rewrite nodes_setNodes, Hnodes1.
    rewrite insert_app_r_alt by lia. rewrite Nat.sub_diag. reflexivity.
Qed.

Lemma freshNode_buf s s' c t : freshNode s s' c t -> buf s' = buf s /\ pos s' = pos s.
Proof. intros (_ & _ & Hr & _). unfold buf, pos. rewrite Hr. auto. Qed.

Lemma freshNode_lookup s s' c t :
  freshNode s s' c t -> nodes s' !! c = Some (setNodeType t zeroNode).
Proof.
  intros (-> & Hn & _). rewrite Hn.
  rewrite lookup_app_r by lia. rewrite Nat.sub_diag. reflexivity.
Qed.

Lemma sliceFrom_run a s :
  0 <= a <= pos s -> pos s <= len s ->
  sliceFrom a s = Done (Span a (pos s), s).
Proof.
  intros H1 H2. unfold sliceFrom, bind, getPos, gets, sliceData.
  destruct ((0 <=? a) && (a <=? pos s) && (pos s <=? len s)) eqn:E; [reflexivity|lia].
Qed.

Lemma arenaOk_onR f s : arenaOk (onR f s) <-> arenaOk s.
Proof. reflexivity. Qed.

(** X14: [parseCDATA], started inside the buffer, searches for the first
    []]] from the position on.  When there is one it allocates a Cdata node
    whose Value is the slice from the start up to it and returns with the
    position ON those brackets: the closing []]>] is not consumed.  When
    there is none it returns [unexpected end of file], allocates nothing and
    leaves the position on the last byte. *)
Theorem parseCDATA_stops_at_the_closing_brackets (s : State) :
  arenaOk s -> 0 <= pos s < len s ->
  exists res s',
    parseCDATA s = Done (res, s') /\ buf s' = buf s /\
    match res with
    | (Some cd, None) =>
        pos s <= pos s' < len s /\
        prefixAt (bytes "]]") s (pos s') = true /\
        (forall i, pos s <= i < pos s' -> prefixAt (bytes "]]") s i = false) /\
        cd = length (nodes s) /\
        nodes s' !! cd
        = Some (onBase (setValue (Some (Span (pos s) (pos s'))))
                       (setNodeType Cdata zeroNode))
    | (None, Some e) =>
        e = UnexpectedEndOfFile /\ pos s' = len s - 1 /\ nodes s' = nodes s /\
        forall i, pos s <= i < len s -> prefixAt (bytes "]]") s i = false
    | _ => False
    end.
Proof.
  intros Hok Hp. unfold parseCDATA.
  unfold bind at 1, getPos at 1, gets at 1.
  destruct (skipToCharsLoop_spec (bytes "]]") (length (buf s)) s Hp
              ltac:(unfold len in *; lia)) as (e & p' & Hrun & Hres).
  change (skipToCharsLoop (length (buf s)) (bytes "]]") s)
    with (skipToChars (bytes "]]") s) in Hrun.
  rewrite (bind_run _ _ _ _ _ Hrun).
  set (s1 := onR (setPosition p') s) in *.
  destruct e as [err|].
  - destruct Hres as (-> & -> & Hall).
    exists (None, Some UnexpectedEndOfFile), s1.
    split; [reflexivity|]. split; [reflexivity|].
    split; [reflexivity|]. split; [reflexivity|]. split; [reflexivity|exact Hall].
  - destruct Hres as (Hp' & Hfound & Hall).
    destruct (newNode_fresh Cdata s1 Hok) as (s2 & Hnew & Hfresh).
    destruct (freshNode_buf _ _ _ _ Hfresh) as [Hbuf Hpos].
    pose proof (freshNode_lookup _ _ _ _ Hfresh) as Hlk.
    change (nodes s1) with (nodes s) in *.
    change (buf s1) with (buf s) in Hbuf. change (pos s1) with p' in Hpos.
    rewrite (bind_run _ _ _ _ _ Hnew).
    rewrite (bind_run _ _ _ _ _ (sliceFrom_run (pos s) s2
               ltac:(lia) ltac:(unfold len; rewrite Hbuf; fold (len s); lia))).
    rewrite (bind_run _ _ _ _ _ (updNode_run _ _ _ _ Hlk)).
    eexists (_, _), _. split; [reflexivity|].
    split; [exact Hbuf|].
    change (pos (setNodes _ s2)) with (pos s2). rewrite Hpos.
    split; [exact Hp'|]. split; [exact Hfound|]. split; [exact Hall|].
    split; [reflexivity|].
    rewrite nodes_setNodes. eapply lookup_insert_here. exact Hlk.
Qed.

Lemma parseCDATA_witness :
  let s := onR (setPosition 9) (bufferState "<![CDATA[x]]>") in
  (arenaOk s /\ 0 <= pos s < len s) /\
  exists s',
    parseCDATA s = Done ((Some 0%nat, None), s') /\ pos s' = 10 /\
    (valueOf s' <$> nodes s' !! 0%nat) = Some (bytes "x").
Proof.
  intros s.
  assert (Hok : arenaOk s) by (apply initState_arenaOk).
  assert (Hp : 0 <= pos s < len s) by (vm_compute; split; [discriminate|reflexivity]).
  split; [auto|].
  destruct (parseCDATA_stops_at_the_closing_brackets s Hok Hp)
    as (res & s' & Hrun & _ & _).
  assert (E : parseCDATA s
              = Done ((Some 0%nat, None),
                      match parseCDATA s with Done (_, x) => x | _ => s end))
    by (vm_compute; reflexivity).
  rewrite E in Hrun. injection Hrun as <- <-.
  eexists. split; [exact E|]. split; vm_compute; reflexivity.
Defined.

Lemma classAt_buf table s s' i : buf s' = buf s -> classAt table s' i -> classAt table s i.
Proof. unfold classAt. intros ->. auto. Qed.

Lemma stopAt_buf table s s' i : buf s' = buf s -> stopAt table s' i -> stopAt table s i.
Proof. unfold stopAt. intros ->. auto. Qed.

Lemma prefixAt_buf b s s' i : buf s' = buf s -> prefixAt b s' i = prefixAt b s i.
Proof. unfold prefixAt. intros ->. reflexivity. Qed.

Lemma hasPrefix_length d p : hasPrefix d p = true -> (length p <= length d)%nat.
Proof.
  revert d. induction p as [|a p IH]; intros d H; [simpl; lia|].
  destruct d as [|b d]; [discriminate|]. simpl in H.
  apply andb_true_iff in H as [_ H]. apply IH in H. simpl. lia.
Qed.

Lemma prefixAt_room b s j :
  0 <= j -> (0 < length b)%nat -> prefixAt b s j = true ->
  j + Z.of_nat (length b) <= len s.
Proof.
  intros Hj Hb H. unfold prefixAt in H. apply hasPrefix_length in H.
  rewrite length_drop in H. unfold len. lia.
Qed.

Lemma classAt_not_stopAt table s i : classAt table s i -> stopAt table s i -> False.
Proof. intros (c & Hc & Hin) (c' & Hc' & Hout). congruence. Qed.

(** X15: [parsePI], started inside the buffer, always returns, and which of
    its three outcomes it takes is fixed by the input.  It returns [expected
    PI target], allocating nothing and moving nothing, exactly when the
    start is on a byte that is no node-name byte or on the last byte of the
    buffer.  Otherwise a Pi node is allocated whose Name is the run of node-
    name bytes from the start; with [p2] the end of the whitespace run after
    the name, either no [?>] follows from [p2] and the error is [unexpected
    end of file], with the position on the last byte and the node left in
    the store with its Name only, or the node is returned with Value the
    slice from [p2] up to the first [?>] and the position just past that
    [?>]. *)
Theorem parsePI_reads_target_and_data (s : State) :
  arenaOk s -> 0 <= pos s < len s ->
  exists res s',
    parsePI s = Done (res, s') /\ buf s' = buf s /\
    match res with
    | (Some pin, None) =>
        exists p1 p2 j,
          pos s < p1 <= p2 /\ p2 <= j /\ j + 2 <= len s /\ pos s' = j + 2 /\
          (forall i, pos s <= i < p1 -> classAt lookupNodeName s i) /\
          stopAt lookupNodeName s p1 /\
          (forall i, p1 <= i < p2 -> classAt lookupWhitespace s i) /\
          stopAt lookupWhitespace s p2 /\
          prefixAt (bytes "?>") s j = true /\
          (forall i, p2 <= i < j -> prefixAt (bytes "?>") s i = false) /\
          pin = length (nodes s) /\
          nodes s'
          = nodes s ++ [onBase (setValue (Some (Span p2 j)))
                          (onBase (setName (Some (Span (pos s) p1)))
                             (setNodeType Pi zeroNode))]
    | (None, Some e) =>
        (e = ExpectedPITarget /\ s' = s /\
         (stopAt lookupNodeName s (pos s) \/ pos s = len s - 1)) \/
        (e = UnexpectedEndOfFile /\ pos s' = len s - 1 /\
         exists p1 p2,
           pos s < p1 <= p2 /\ p2 < len s /\
           (forall i, pos s <= i < p1 -> classAt lookupNodeName s i) /\
           (stopAt lookupNodeName s p1 \/
            (p1 = len s - 1 /\ classAt lookupNodeName s p1)) /\
           (forall i, p1 <= i < p2 -> classAt lookupWhitespace s i) /\
           (stopAt lookupWhitespace s p2 \/
            (p2 = len s - 1 /\ classAt lookupWhitespace s p2)) /\
           (forall i, p2 <= i < len s -> prefixAt (bytes "?>") s i = false) /\
           nodes s'
           = nodes s ++ [onBase (setName (Some (Span (pos s) p1)))
                           (setNodeType Pi zeroNode)])
    | _ => False
    end /\
    ((stopAt lookupNodeName s (pos s) \/ pos s = len s - 1) <->
     res = (None, Some ExpectedPITarget)).
Proof.
  intros Hok Hp. unfold parsePI.
  unfold bind at 1, getPos at 1, gets at 1.
  destruct (skip_in_range lookupNodeName s Hp) as (p1 & Hskip1 & Hr1 & Hname & Hend1).
  rewrite (bind_run _ _ _ _ _ Hskip1).
  set (s1 := onR (setPosition p1) s) in *.
  unfold bind at 1, getPos at 1, gets at 1. change (pos s1) with p1.
  destruct (pos s =? p1) eqn:E.
  { assert (p1 = pos s) by lia. subst p1.
    assert (Hcond : stopAt lookupNodeName s (pos s) \/ pos s = len s - 1).
    { destruct Hend1 as [Hstop | [Hlast _]]; [left; exact Hstop|right; exact Hlast]. }
    exists (None, Some ExpectedPITarget), s1.
    split; [reflexivity|]. split; [reflexivity|]. split.
    - left. split; [reflexivity|]. split; [apply onR_setPosition_id|exact Hcond].
    - split; [reflexivity|intros _; exact Hcond]. }
  assert (Hnot : ~ (stopAt lookupNodeName s (pos s) \/ pos s = len s - 1)).
  { intros [Hstop | Hlast]; [|lia].
    apply (classAt_not_stopAt lookupNodeName s (pos s)); [|exact Hstop].
    apply Hname. lia. }
  destruct (newNode_fresh Pi s1 Hok) as (s2 & Hnew & Hfresh).
  destruct (freshNode_buf _ _ _ _ Hfresh) as [Hbuf2 Hpos2].
  pose proof (freshNode_lookup _ _ _ _ Hfresh) as Hlk.
  destruct Hfresh as (_ & Hnodes2 & _ & _ & Hok2).
  change (nodes s1) with (nodes s) in *.
  change (buf s1) with (buf s) in Hbuf2. change (pos s1) with p1 in Hpos2.
  assert (Hlen2 : len s2 = len s) by (unfold len; rewrite Hbuf2; reflexivity).
  rewrite (bind_run _ _ _ _ _ Hnew).
  rewrite (bind_run _ _ _ _ _ (sliceFrom_run (pos s) s2 ltac:(lia) ltac:(lia))).
  rewrite (bind_run _ _ _ _ _ (updNode_run _ _ _ _ Hlk)).
  rewrite Hpos2.
  set (pn := onBase (setName (Some (Span (pos s) p1))) (setNodeType Pi zeroNode)).
  set (s3 := setNodes (<[length (nodes s) := pn]> (nodes s2)) s2).
  assert (Hbuf3 : buf s3 = buf s) by exact Hbuf2.
  assert (Hpos3 : pos s3 = p1) by exact Hpos2.
  assert (Hlen3 : len s3 = len s) by exact Hlen2.
  assert (Hlk3 : nodes s3 !! length (nodes s) = Some pn).
  { unfold s3. rewrite nodes_setNodes. eapply lookup_insert_here. exact Hlk. }
  assert (Hnodes3 : nodes s3 = nodes s ++ [pn]).
  { unfold s3. rewrite nodes_setNodes, Hnodes2.
    rewrite insert_app_r_alt by lia. rewrite Nat.sub_diag. reflexivity. }
  assert (Hend1' : stopAt lookupNodeName s p1 \/
                   (p1 = len s - 1 /\ classAt lookupNodeName s p1)).
  { destruct Hend1 as [Hstop | [Hlast Hall1]]; [left; exact Hstop|].
    right. split; [exact Hlast|]. apply Hall1. lia. }
  destruct (skip_in_range lookupWhitespace s3 ltac:(lia))
    as (p2 & Hskip2 & Hr2 & Hws & Hend2).
  rewrite (bind_run _ _ _ _ _ Hskip2).
  set (s4 := onR (setPosition p2) s3) in *.
  unfold bind at 1, getPos at 1, gets at 1. change (pos s4) with p2.
  assert (Hp4 : 0 <= pos s4 < len s4).
  { change (pos s4) with p2. change (len s4) with (len s3). lia. }
  destruct (skipToCharsLoop_spec (bytes "?>") (length (buf s4)) s4 Hp4
              ltac:(unfold len in *; lia)) as (e & j & Hrun & Hres).
  change (skipToCharsLoop (length (buf s4)) (bytes "?>") s4)
    with (skipToChars (bytes "?>") s4) in Hrun.
  rewrite (bind_run _ _ _ _ _ Hrun).
  set (s5 := onR (setPosition j) s4) in *.
  change (pos s4) with p2 in Hres. change (len s4) with (len s3) in Hres.
  destruct e as [err|].
  - destruct Hres as (-> & -> & Hall).
    exists (None, Some UnexpectedEndOfFile), s5.
    split; [reflexivity|]. split; [exact Hbuf3|]. split.
    2:{ split; [intros H; destruct (Hnot H)|discriminate]. }
    right.
    split; [reflexivity|]. split; [change (pos s5) with (len s3 - 1); lia|].
    exists p1, p2. split; [lia|]. split; [lia|]. split; [exact Hname|].
    split; [exact Hend1'|]. split.
    { intros i Hi. apply (classAt_buf _ s s3 i Hbuf3). apply Hws. lia. }
    split.
    { destruct Hend2 as [Hstop | [Hlast Hall2]].
      - left. apply (stopAt_buf _ s s3 p2 Hbuf3). exact Hstop.
      - right. split; [lia|]. apply (classAt_buf _ s s3 p2 Hbuf3). apply Hall2. lia. }
    split.
    { intros i Hi. rewrite <- (prefixAt_buf _ s s4 i Hbuf3). apply Hall. lia. }
    exact Hnodes3.
  - destruct Hres as (Hj & Hfound & Hall).
    assert (Hlk5 : nodes s5 !! length (nodes s) = Some pn) by exact Hlk3.
    rewrite (bind_run _ _ _ _ _ (sliceFrom_run p2 s5
               ltac:(change (pos s5) with j; lia)
               ltac:(change (pos s5) with j; change (len s5) with (len s3); lia))).
    rewrite (bind_run _ _ _ _ _ (updNode_run _ _ _ _ Hlk5)).
    change (pos s5) with j.
    eexists (_, _), _. split; [reflexivity|]. split; [exact Hbuf3|]. split.
    2:{ split; [intros H; destruct (Hnot H)|discriminate]. }
    assert (Hroom : j + 2 <= len s).
    { rewrite <- Hlen3. apply (prefixAt_room (bytes "?>") s4 j); [lia|simpl; lia|exact Hfound]. }
    exists p1, p2, j.
    split; [lia|]. split; [lia|]. split; [exact Hroom|]. split; [reflexivity|].
    split; [exact Hname|]. split.
    { destruct Hend1 as [Hstop | [Hlast _]]; [exact Hstop|lia]. }
    split.
    { intros i Hi. apply (classAt_buf _ s s3 i Hbuf3). apply Hws. lia. }
    split.
    { destruct Hend2 as [Hstop | [Hlast _]]; [|lia].
      apply (stopAt_buf _ s s3 p2 Hbuf3). exact Hstop. }
    split.
    { rewrite <- (prefixAt_buf _ s s4 j Hbuf3). exact Hfound. }
    split.
    { intros i Hi. rewrite <- (prefixAt_buf _ s s4 i Hbuf3). apply Hall. exact Hi. }
    split; [reflexivity|].
    change (<[length (nodes s) := onBase (setValue (Some (Span p2 j))) pn]> (nodes s3)
            = nodes s ++ [onBase (setValue (Some (Span p2 j))) pn]).
    rewrite Hnodes3. rewrite insert_app_r_alt by lia. rewrite Nat.sub_diag. reflexivity.
Qed.

Lemma parsePI_witness :
  let s := onR (setPosition 2) (bufferState "<?pi  data?>") in
  let t := onR (setPosition 2) (bufferState "<? x?>") in
  (arenaOk s /\ 0 <= pos s < len s /\ arenaOk t /\ 0 <= pos t < len t) /\
  (exists res s',
     parsePI s = Done (res, s') /\ buf s' = buf s /\
     res = (Some 0%nat, None) /\ pos s' = 12 /\
     (nameOf s' <$> nodes s' !! 0%nat) = Some (bytes "pi") /\
     (valueOf s' <$> nodes s' !! 0%nat) = Some (bytes "data")) /\
  parsePI t = Done ((None, Some ExpectedPITarget), t).
Proof.
  intros s t.
  assert (Hok : arenaOk s) by (apply initState_arenaOk).
  assert (Hp : 0 <= pos s < len s) by (vm_compute; split; [discriminate|reflexivity]).
  assert (Hokt : arenaOk t) by (apply initState_arenaOk).
  assert (Hpt : 0 <= pos t < len t) by (vm_compute; split; [discriminate|reflexivity]).
  split; [auto|]. split.
  - destruct (parsePI_reads_target_and_data s Hok Hp) as (res & s' & Hrun & Hbuf & _).
    exists res, s'. split; [exact Hrun|]. split; [exact Hbuf|].
    set (x := match parsePI s with Done (_, x) => x | _ => s end).
    assert (E : parsePI s = Done ((Some 0%nat, None), x))
      by (vm_compute; reflexivity).
    pose proof (eq_trans (eq_sym Hrun) E) as H.
    assert (Hr : res = (Some 0%nat, None))
      by exact (f_equal (fun o => match o with Done (a, _) => a | _ => res end) H).
    assert (Hs : s' = x)
      by exact (f_equal (fun o => match o with Done (_, b) => b | _ => s' end) H).
    split; [exact Hr|]. rewrite Hs.
    split; [|split]; vm_compute; reflexivity.
  - destruct (parsePI_reads_target_and_data t Hokt Hpt)
      as (res & t' & Hrun & _ & Hres & Hiff).
    assert (Hstop : stopAt lookupNodeName t (pos t))
      by (exists " "%byte; split; vm_compute; reflexivity).
    pose proof (proj1 Hiff (or_introl Hstop)) as Hr. subst res.
    destruct Hres as [(_ & -> & _) | (He & _)]; [exact Hrun|discriminate He].
Defined.

(** ** Comments *)

Lemma hasPrefixToEnd_run p s :
  0 <= pos s <= len s ->
  hasPrefixToEnd p s = Done (prefixAt (bytes p) s (pos s), s).
Proof.
  intros H. unfold hasPrefixToEnd. rewrite (bind_run _ _ _ _ _ (sliceToEnd_in_range s H)).
  reflexivity.
Qed.

Lemma skipBytes_run k s :
  skipBytes k s =
  if len s <=? pos s + k then Done (Some EndOfFile, s)
  else Done (None, onR (setPosition (pos s + k)) s).
Proof.
  unfold skipBytes, bind, getPos, getLen, gets, addPos, modify, ret.
  destruct (len s <=? pos s + k); reflexivity.
Qed.

Lemma commentLoop_unfold fuel s :
  0 <= pos s <= len s ->
  commentLoop fuel s =
  if prefixAt (bytes "--") s (pos s) then Done (false, s)
  else if len s <=? pos s + 1 then Done (true, s)
  else match fuel with
       | O => Timeout
       | S f => commentLoop f (onR (setPosition (pos s + 1)) s)
       end.
Proof.
  intros H.
  destruct fuel; simpl; rewrite (bind_run _ _ _ _ _ (hasPrefixToEnd_run "--" s H));
    (destruct (prefixAt (bytes "--") s (pos s)); [reflexivity|]);
    cbn [negb]; unfold bind at 1; rewrite skipBytes_run;
    destruct (len s <=? pos s + 1); reflexivity.
Qed.

Lemma commentLoop_spec fuel : forall s,
  0 <= pos s <= len s -> len s - pos s <= Z.of_nat fuel ->
  exists eof p',
    commentLoop fuel s = Done (eof, onR (setPosition p') s) /\
    pos s <= p' <= len s /\
    (forall i, pos s <= i < p' -> prefixAt (bytes "--") s i = false) /\
    prefixAt (bytes "--") s p' = negb eof /\
    (eof = true -> len s <= p' + 1).
Proof.
  induction fuel as [|f IH]; intros s Hr Hf.
  - rewrite commentLoop_unfold by lia.
    destruct (prefixAt (bytes "--") s (pos s)) eqn:Hpre.
    + exists false, (pos s). rewrite onR_setPosition_id.
      split; [reflexivity|]. split; [lia|]. split; [intros; lia|].
      split; [exact Hpre|discriminate].
    + destruct (len s <=? pos s + 1) eqn:E; [|lia].
      exists true, (pos s). rewrite onR_setPosition_id.
      split; [reflexivity|]. split; [lia|]. split; [intros; lia|].
      split; [exact Hpre|]. intros _. lia.
  - rewrite commentLoop_unfold by lia.
    destruct (prefixAt (bytes "--") s (pos s)) eqn:Hpre.
    + exists false, (pos s). rewrite onR_setPosition_id.
      split; [reflexivity|]. split; [lia|]. split; [intros; lia|].
      split; [exact Hpre|discriminate].
    + destruct (len s <=? pos s + 1) eqn:E.
      * exists true, (pos s). rewrite onR_setPosition_id.
        split; [reflexivity|]. split; [lia|]. split; [intros; lia|].
        split; [exact Hpre|]. intros _. lia.
      * set (s1 := onR (setPosition (pos s + 1)) s).
        destruct (IH s1) as (eof & p' & Hrun & Hp' & Hall & Hat & Heof).
        { change (pos s1) with (pos s + 1). change (len s1) with (len s). lia. }
        { change (pos s1) with (pos s + 1). change (len s1) with (len s). lia. }
        change (pos s1) with (pos s + 1) in *. change (len s1) with (len s) in *.
        exists eof, p'. split; [rewrite Hrun; reflexivity|].
        split; [lia|]. split; [|split; [exact Hat|exact Heof]].
        intros i Hi. destruct (Z.eq_dec i (pos s)) as [->|]; [exact Hpre|].
        apply (Hall i). lia.
Qed.

(** X16: [parseComment] always returns.  It looks for the first [--] from
    the position on; when that [--] is followed by [>], it returns a new
    Comment node whose Value is the slice from the start up to the [--], and
    the position moves past the [>] unless the [>] is the last byte of the
    buffer, where it stays on it.  When the [--] is followed by another byte
    the error is [invalid '--' inside comment]; when there is no [--] with a
    byte after it the error is [unexpected end of file]; in both cases no
    node is allocated. *)
Theorem parseComment_reads_up_to_the_first_dashes (s : State) :
  arenaOk s -> 0 <= pos s <= len s ->
  exists res s',
    parseComment s = Done (res, s') /\ buf s' = buf s /\
    match res with
    | (Some c, None) =>
        exists j,
          pos s <= j /\ j + 2 < len s /\
          prefixAt (bytes "--") s j = true /\
          (forall i, pos s <= i < j -> prefixAt (bytes "--") s i = false) /\
          index (buf s) (j + 2) = Some ">"%byte /\
          pos s' = (if len s <=? j + 3 then j + 2 else j + 3) /\
          c = length (nodes s) /\
          nodes s' !! c
          = Some (onBase (setValue (Some (Span (pos s) j)))
                    (setNodeType Comment zeroNode))
    | (None, Some e) =>
        nodes s' = nodes s /\
        ((e = UnexpectedEndOfFile /\
          forall i, pos s <= i -> i + 2 < len s ->
                    prefixAt (bytes "--") s i = false) \/
         (e = DashDashInComment /\
          exists j c,
            pos s <= j /\ prefixAt (bytes "--") s j = true /\
            (forall i, pos s <= i < j -> prefixAt (bytes "--") s i = false) /\
            index (buf s) (j + 2) = Some c /\ c <> ">"%byte))
    | _ => False
    end.
Proof.
  intros Hok Hp. unfold parseComment.
  unfold bind at 1, getPos at 1, gets at 1.
  unfold bind at 1, gets at 1.
  destruct (commentLoop_spec (length (buf s)) s Hp ltac:(unfold len in *; lia))
    as (eof & j & Hrun & Hj & Hall & Hat & Heof).
  rewrite (bind_run _ _ _ _ _ Hrun).
  set (s1 := onR (setPosition j) s) in *.
  destruct eof.
  { exists (None, Some UnexpectedEndOfFile), s1.
    split; [reflexivity|]. split; [reflexivity|]. split; [reflexivity|]. left.
    split; [reflexivity|]. intros i Hi1 Hi2. apply Hall.
    specialize (Heof eq_refl). lia. }
  cbn [negb] in Hat. clear Heof.
  unfold bind at 1. rewrite skipBytes_run.
  change (len s1) with (len s). change (pos s1) with j.
  destruct (len s <=? j + 2) eqn:E2.
  { exists (None, Some UnexpectedEndOfFile), s1.
    split; [reflexivity|]. split; [reflexivity|]. split; [reflexivity|]. left.
    split; [reflexivity|]. intros i Hi1 Hi2. apply Hall. lia. }
  cbn [isNil negb].
  set (s2 := onR (setPosition (j + 2)) s1).
  destruct (index_in_range (buf s) (j + 2) ltac:(unfold len in *; lia)) as [c Hc].
  unfold bind at 1, getCurrentByte at 1, bind at 1, getPos at 1, gets at 1, byteAt at 1.
  change (buf s2) with (buf s). change (pos s2) with (j + 2). rewrite Hc.
  destruct (Byte.eqb c ">") eqn:Ec; cbn [negb].
  2:{ exists (None, Some DashDashInComment), s2.
      split; [reflexivity|]. split; [reflexivity|]. split; [reflexivity|]. right.
      split; [reflexivity|]. exists j, c.
      split; [lia|]. split; [exact Hat|]. split; [exact Hall|]. split; [exact Hc|].
      intros ->. discriminate Ec. }
  apply Byte.byte_dec_bl in Ec. subst c.
  destruct (newNode_fresh Comment s2 Hok) as (s3 & Hnew & Hfresh).
  destruct (freshNode_buf _ _ _ _ Hfresh) as [Hbuf3 Hpos3].
  pose proof (freshNode_lookup _ _ _ _ Hfresh) as Hlk.
  change (nodes s2) with (nodes s) in *.
  change (buf s2) with (buf s) in Hbuf3. change (pos s2) with (j + 2) in Hpos3.
  assert (Hlen3 : len s3 = len s) by (unfold len; rewrite Hbuf3; reflexivity).
  rewrite (bind_run _ _ _ _ _ Hnew).
  unfold bind at 1, getPos at 1, gets at 1. rewrite Hpos3.
  replace (j + 2 - 2) with j by lia.
  assert (Hsl : sliceData (pos s) j s3 = Done (Span (pos s) j, s3)).
  { unfold sliceData.
    destruct ((0 <=? pos s) && (pos s <=? j) && (j <=? len s3)) eqn:E; [reflexivity|lia]. }
  rewrite (bind_run _ _ _ _ _ Hsl).
  rewrite (bind_run _ _ _ _ _ (updNode_run _ _ _ _ Hlk)).
  set (cn := onBase (setValue (Some (Span (pos s) j))) (setNodeType Comment zeroNode)).
  set (s4 := setNodes (<[length (nodes s) := cn]> (nodes s3)) s3).
  assert (Hlk4 : nodes s4 !! length (nodes s) = Some cn).
  { unfold s4. rewrite nodes_setNodes. eapply lookup_insert_here. exact Hlk. }
  unfold bind at 1. rewrite skipBytes_run.
  change (len s4) with (len s3). change (pos s4) with (pos s3).
  rewrite Hlen3, Hpos3. replace (j + 2 + 1) with (j + 3) by lia.
  destruct (len s <=? j + 3) eqn:E3.
  - eexists (_, _), _. split; [reflexivity|]. split; [exact Hbuf3|].
    exists j. split; [lia|]. split; [lia|]. split; [exact Hat|].
    split; [exact Hall|]. split; [exact Hc|]. split; [rewrite E3; exact Hpos3|].
    split; [reflexivity|exact Hlk4].
  - eexists (_, _), _. split; [reflexivity|]. split; [exact Hbuf3|].
    exists j. split; [lia|]. split; [lia|]. split; [exact Hat|].
    split; [exact Hall|]. split; [exact Hc|]. split; [rewrite E3; reflexivity|].
    split; [reflexivity|exact Hlk4].
Qed.

Lemma parseComment_witness :
  let s := onR (setPosition 4) (bufferState "<!-- a-b -->") in
  (arenaOk s /\ 0 <= pos s <= len s) /\
  exists res s',
    parseComment s = Done (res, s') /\ buf s' = buf s /\
    res = (Some 0%nat, None) /\ pos s' = 11 /\
    (valueOf s' <$> nodes s' !! 0%nat) = Some (bytes " a-b ").
Proof.
  intros s.
  assert (Hok : arenaOk s) by (apply initState_arenaOk).
  assert (Hp : 0 <= pos s <= len s) by (vm_compute; split; discriminate).
  split; [auto|].
  destruct (parseComment_reads_up_to_the_first_dashes s Hok Hp)
    as (res & s' & Hrun & Hbuf & _).
  exists res, s'. split; [exact Hrun|]. split; [exact Hbuf|].
  set (x := match parseComment s with Done (_, x) => x | _ => s end).
  assert (E : parseComment s = Done ((Some 0%nat, None), x))
    by (vm_compute; reflexivity).
  pose proof (eq_trans (eq_sym Hrun) E) as H.
  assert (Hr : res = (Some 0%nat, None))
    by exact (f_equal (fun o => match o with Done (a, _) => a | _ => res end) H).
  assert (Hs : s' = x)
    by exact (f_equal (fun o => match o with Done (_, b) => b | _ => s' end) H).
  split; [exact Hr|]. rewrite Hs.
  split; vm_compute; reflexivity.
Defined.

(** ** [skipPastChar] *)

Lemma skipPastCharLoop_unfold b fuel s :
  skipPastCharLoop fuel b s =
  let s1 := onR (setPosition (pos s + 1)) s in
  if pos s + 1 >=? len s - 1 then Done (Some UnexpectedEndOfData, s1)
  else match index (buf s) (pos s + 1) with
       | None => Crash IndexOutOfRange
       | Some c =>
           if Byte.eqb c b then Done (None, onR (setPosition (pos s + 1 + 1)) s)
           else match fuel with
                | O => Timeout
                | S f => skipPastCharLoop f b s1
                end
       end.
Proof.
  cbv zeta.
  destruct fuel; cbn [skipPastCharLoop];
    unfold bind, addPos, modify, getPos, getLen, gets, byteAt, ret;
    cbv beta iota;
    change (pos (onR (setPosition (pos s + 1)) s)) with (pos s + 1);
    change (len (onR (setPosition (pos s + 1)) s)) with (len s);
    (destruct (pos s + 1 >=? len s - 1); [reflexivity|]);
    cbv beta;
    change (buf (onR (setPosition (pos s + 1)) s)) with (buf s);
    (destruct (index (buf s) (pos s + 1)) as [c|]; [|reflexivity]);
    destruct (Byte.eqb c b); reflexivity.
Qed.

Lemma skipPastCharLoop_spec b fuel : forall s,
  -1 <= pos s -> len s - 2 - pos s <= Z.of_nat fuel ->
  exists e p',
    skipPastCharLoop fuel b s = Done (e, onR (setPosition p') s) /\
    match e with
    | None =>
        pos s < p' - 1 < len s - 1 /\ index (buf s) (p' - 1) = Some b /\
        forall i, pos s < i < p' - 1 -> index (buf s) i <> Some b
    | Some err =>
        err = UnexpectedEndOfData /\ p' = Z.max (pos s + 1) (len s - 1) /\
        forall i, pos s < i < len s - 1 -> index (buf s) i <> Some b
    end.
Proof.
  induction fuel as [|f IH]; intros s Hp Hf;
    rewrite skipPastCharLoop_unfold; cbv zeta;
    (destruct (pos s + 1 >=? len s - 1) eqn:E;
     [ exists (Some UnexpectedEndOfData), (pos s + 1);
       split; [reflexivity|]; split; [reflexivity|]; split; [lia|]; intros; lia | ]);
    destruct (index_in_range (buf s) (pos s + 1) ltac:(unfold len in *; lia))
      as [c Hc]; rewrite Hc;
    (destruct (Byte.eqb c b) eqn:Ecb;
     [ apply Byte.byte_dec_bl in Ecb; subst c;
       exists None, (pos s + 1 + 1); split; [reflexivity|];
       replace (pos s + 1 + 1 - 1) with (pos s + 1) by lia;
       split; [lia|]; split; [exact Hc|]; intros; lia | ]).
  - lia.
  - set (s1 := onR (setPosition (pos s + 1)) s).
    destruct (IH s1) as (e & p' & Hrun & Hres).
    { change (pos s1) with (pos s + 1). lia. }
    { change (pos s1) with (pos s + 1). change (len s1) with (len s). lia. }
    change (pos s1) with (pos s + 1) in Hres. change (len s1) with (len s) in Hres.
    change (buf s1) with (buf s) in Hres.
    assert (Hhere : index (buf s) (pos s + 1) <> Some b).
    { rewrite Hc. intros [= ->]. rewrite (Byte.byte_dec_lb eq_refl) in Ecb. discriminate. }
    exists e, p'. split; [rewrite Hrun; reflexivity|].
    destruct e as [err|].
    + destruct Hres as (-> & -> & Hall). split; [reflexivity|]. split; [lia|].
      intros i Hi. destruct (Z.eq_dec i (pos s + 1)) as [->|]; [exact Hhere|].
      apply Hall. lia.
    + destruct Hres as (Hp' & Hb & Hall). split; [lia|]. split; [exact Hb|].
      intros i Hi. destruct (Z.eq_dec i (pos s + 1)) as [->|]; [exact Hhere|].
      apply Hall. lia.
Qed.

(** X29: [skipPastChar b], started inside the buffer, always returns and
    moves only the position.  It returns nil with the position just past the
    first [b] that lies strictly after the start and strictly before the
    last byte.  The byte under the start position is never examined, and a
    [b] that is the last byte of the buffer is not found: when no [b] lies
    strictly between, the error is [unexpected end of data] and the position
    ends on the last byte (one past the start when the start was the last
    byte). *)
Theorem skipPastChar_never_matches_the_ends (b : byte) (s : State) :
  0 <= pos s < len s ->
  exists e p',
    skipPastChar b s = Done (e, onR (setPosition p') s) /\
    match e with
    | None =>
        pos s < p' - 1 < len s - 1 /\ index (buf s) (p' - 1) = Some b /\
        forall i, pos s < i < p' - 1 -> index (buf s) i <> Some b
    | Some err =>
        err = UnexpectedEndOfData /\ p' = Z.max (pos s + 1) (len s - 1) /\
        forall i, pos s < i < len s - 1 -> index (buf s) i <> Some b
    end.
Proof.
  intros H. unfold skipPastChar. apply skipPastCharLoop_spec; [lia|].
  unfold len in *. lia.
Qed.

Lemma skipPastChar_witness :
  let s := onR (setPosition 1) (bufferState "<!x>>") in
  0 <= pos s < len s /\
  exists e p',
    skipPastChar ">" s = Done (e, onR (setPosition p') s) /\
    e = None /\ p' = 4.
Proof.
  intros s.
  assert (H : 0 <= pos s < len s) by (vm_compute; split; [discriminate | reflexivity]).
  split; [exact H|].
  destruct (skipPastChar_never_matches_the_ends ">" s H) as (e & p' & Hrun & Hres).
  exists e, p'. split; [exact Hrun|].
  assert (E : skipPastChar ">" s = Done (None, onR (setPosition 4) s))
    by (vm_compute; reflexivity).
  pose proof (eq_trans (eq_sym Hrun) E) as Heq.
  assert (He : e = None)
    by exact (f_equal (fun o => match o with Done (a, _) => a | _ => e end) Heq).
  split; [exact He|].
  exact (f_equal (fun o => match o with Done (_, x) => pos x | _ => p' end) Heq).
Defined.

(** ** Empty element tags *)

Lemma getCurrentByte_run s c :
  index (buf s) (pos s) = Some c -> getCurrentByte s = Done (c, s).
Proof.
  intros H. unfold getCurrentByte, bind, getPos, gets, byteAt. rewrite H. reflexivity.
Qed.

Lemma parseAttributesLoop_stop fuel element s c :
  index (buf s) (pos s) = Some c -> isSet lookupAttributeName c = false ->
  parseAttributesLoop fuel element s = Done (None, s).
Proof.
  intros Hc Hout.
  destruct fuel; cbn [parseAttributesLoop];
    rewrite (bind_run _ _ _ _ _ (getCurrentByte_run s c Hc)); rewrite Hout; reflexivity.
Qed.

(** X30: on a tag made of a non-empty run of node-name bytes, then
    whitespace (possibly none), then [/>], [parseElement] returns a new
    Element node, the next cell of the store, whose Name is the slice of the
    name run and which has neither attributes nor children; the position
    ends just past the [>]; no attribute is allocated and the parser of the
    contents is not called. *)
Theorem parseElement_of_an_empty_element_tag
    (parseNodeContents : ptr -> M (option error)) (s : State) (p1 p2 : Z) :
  arenaOk s ->
  0 <= pos s -> pos s < p1 -> p1 <= p2 -> p2 + 1 < len s ->
  (forall i, pos s <= i < p1 -> classAt lookupNodeName s i) ->
  stopAt lookupNodeName s p1 ->
  (forall i, p1 <= i < p2 -> classAt lookupWhitespace s i) ->
  index (buf s) p2 = Some "/"%byte ->
  index (buf s) (p2 + 1) = Some ">"%byte ->
  exists s',
    parseElement parseNodeContents s = Done ((Some (length (nodes s)), None), s') /\
    buf s' = buf s /\ pos s' = p2 + 2 /\ attrs s' = attrs s /\
    nodes s' = nodes s ++ [onBase (setName (Some (Span (pos s) p1)))
                             (setNodeType Element zeroNode)].
Proof.
  intros Hok Hp Hp1 Hp2 Hlen Hname Hstop1 Hws Hslash Hgt.
  unfold parseElement.
  destruct (newNode_fresh Element s Hok) as (s1 & Hnew & Hfresh).
  destruct (freshNode_buf _ _ _ _ Hfresh) as [Hbuf1 Hpos1].
  pose proof (freshNode_lookup _ _ _ _ Hfresh) as Hlk.
  destruct Hfresh as (_ & Hnodes1 & _ & Hattrs1 & _).
  assert (Hlen1 : len s1 = len s) by (unfold len; rewrite Hbuf1; reflexivity).
  rewrite (bind_run _ _ _ _ _ Hnew).
  unfold bind at 1, getPos at 1, gets at 1. rewrite Hpos1.
  assert (Hskip1 : skip lookupNodeName s1
                   = Done (tt, onR (setPosition (pos s1 + (p1 - pos s))) s1)).
  { apply skip_to_stop; rewrite ?Hpos1, ?Hlen1; try lia.
    - intros i Hi. unfold classAt. rewrite Hbuf1. apply Hname. lia.
    - unfold stopAt. rewrite Hbuf1.
      replace (pos s + (p1 - pos s)) with p1 by lia. exact Hstop1. }
  rewrite Hpos1 in Hskip1. replace (pos s + (p1 - pos s)) with p1 in Hskip1 by lia.
  rewrite (bind_run _ _ _ _ _ Hskip1).
  set (s2 := onR (setPosition p1) s1) in *.
  unfold bind at 1, getPos at 1, gets at 1. change (pos s2) with p1.
  destruct (pos s =? p1) eqn:E; [lia|].
  assert (Hsl : sliceData (pos s) p1 s2 = Done (Span (pos s) p1, s2)).
  { unfold sliceData. change (len s2) with (len s1). rewrite Hlen1.
    destruct ((0 <=? pos s) && (pos s <=? p1) && (p1 <=? len s)) eqn:E1; [reflexivity|lia]. }
  rewrite (bind_run _ _ _ _ _ Hsl).
  assert (Hlk2 : nodes s2 !! length (nodes s) = Some (setNodeType Element zeroNode))
    by exact Hlk.
  rewrite (bind_run _ _ _ _ _ (updNode_run _ _ _ _ Hlk2)).
  set (en := onBase (setName (Some (Span (pos s) p1))) (setNodeType Element zeroNode)).
  set (s3 := setNodes (<[length (nodes s) := en]> (nodes s2)) s2).
  assert (Hbuf3 : buf s3 = buf s) by exact Hbuf1.
  assert (Hlen3 : len s3 = len s) by exact Hlen1.
  assert (Hskip2 : skip lookupWhitespace s3
                   = Done (tt, onR (setPosition (pos s3 + (p2 - p1))) s3)).
  { apply skip_to_stop; change (pos s3) with p1; rewrite ?Hlen3; try lia.
    - intros i Hi. unfold classAt. rewrite Hbuf3. apply Hws. lia.
    - unfold stopAt. rewrite Hbuf3.
      replace (p1 + (p2 - p1)) with p2 by lia.
      exists "/"%byte. split; [exact Hslash|reflexivity]. }
  change (pos s3) with p1 in Hskip2. replace (p1 + (p2 - p1)) with p2 in Hskip2 by lia.
  rewrite (bind_run _ _ _ _ _ Hskip2).
  set (s4 := onR (setPosition p2) s3) in *.
  assert (Hcur : index (buf s4) (pos s4) = Some "/"%byte).
  { change (buf s4) with (buf s3). change (pos s4) with p2. rewrite Hbuf3. exact Hslash. }
  assert (Hattr : parseAttributes (Some (length (nodes s))) s4 = Done (None, s4)).
  { unfold parseAttributes. eapply parseAttributesLoop_stop; [exact Hcur|reflexivity]. }
  rewrite (bind_run _ _ _ _ _ Hattr).
  rewrite (bind_run _ _ _ _ _ (getCurrentByte_run s4 _ Hcur)).
  change (Byte.eqb "/" ">") with false. change (Byte.eqb "/" "/") with true. cbv iota.
  assert (Hnext : index (buf s4) (pos s4 + 1) = Some ">"%byte).
  { change (buf s4) with (buf s3). change (pos s4) with p2. rewrite Hbuf3. exact Hgt. }
  rewrite (bind_run _ _ _ _ _ (getNextByte_at s4 _ Hnext)).
  change (Byte.eqb ">" ">") with true. cbn [negb].
  eexists. split; [reflexivity|].
  split; [exact Hbuf3|]. split.
  { change (pos s4) with p2. cbn. lia. }
  split; [exact Hattrs1|].
  change (<[length (nodes s) := en]> (nodes s1) = nodes s ++ [en]).
  rewrite Hnodes1. rewrite insert_app_r_alt by lia. rewrite Nat.sub_diag. reflexivity.
Qed.

Lemma parseElement_witness :
  let s := onR (setPosition 1) (bufferState "<br />") in
  (arenaOk s /\ 0 <= pos s /\ pos s < 3 /\ 3 <= 4 /\ 4 + 1 < len s) /\
  exists s',
    parseElement (fun _ => crash (PanicMsg "contents")) s
    = Done ((Some 0%nat, None), s') /\
    pos s' = 6 /\ (nameOf s' <$> nodes s' !! 0%nat) = Some (bytes "br").
Proof.
  intros s.
  assert (Hok : arenaOk s) by (apply initState_arenaOk).
  assert (H1 : 0 <= pos s) by (vm_compute; discriminate).
  assert (H2 : pos s < 3) by (vm_compute; reflexivity).
  assert (H3 : 3 <= 4) by lia.
  assert (H4 : 4 + 1 < len s) by (vm_compute; reflexivity).
  split; [auto|].
  destruct (parseElement_of_an_empty_element_tag
              (fun _ => crash (PanicMsg "contents")) s 3 4 Hok H1 H2 H3 H4)
    as (s' & Hrun & Hbuf & Hpos & _ & Hnodes).
  - intros i Hi. change (pos s) with 1 in Hi.
    assert (i = 1 \/ i = 2) as [-> | ->] by lia;
      eexists; split; vm_compute; reflexivity.
  - eexists. split; vm_compute; reflexivity.
  - intros i Hi. assert (i = 3) as -> by lia.
    eexists. split; vm_compute; reflexivity.
  - vm_compute. reflexivity.
  - vm_compute. reflexivity.
  - exists s'. split; [exact Hrun|]. split; [exact Hpos|].
    unfold nameOf. rewrite Hnodes, Hbuf. vm_compute. reflexivity.
Defined.
